(** * Translation engine and digest synchronisation: a shallow embedding

    The development follows the two scripts of the repository:

    - [scripts/translate_openai.py]: the cached, retrying chat wrapper, the
      regular-expression clean-up of the translated HTML, the title helper
      and the batch driver [process_products];
    - [scripts/register_translations.py]: the digest protocol (fetch, seed,
      poll, build, register, verify) and its batch driver [main].

    Python strings are sequences of Unicode code points, so they are lists
    of [N] here.  Remote services are parameters: a world state and one
    transition function per remote operation. *)

From Stdlib Require Import QArith.
From Stdlib Require Import String Ascii NArith ZArith List Lia Bool DecimalString.
From stdpp Require Import gmap list.

Set Default Proof Using "Type".

(** ** Python strings *)

Module Py.

Abbreviation char := N (only parsing).
Abbreviation str := (list N) (only parsing).

(** ASCII literals of the source are written [u "..."]. *)
Definition u (s : string) : str := map N_of_ascii (list_ascii_of_string s).
Arguments u s%_string.

Definition in_range (lo hi c : N) : bool := ((lo <=? c) && (c <=? hi))%N.

(** [str.isspace] and the class [\s] of [re] on [str] patterns. *)
Definition isspace (c : N) : bool :=
  in_range 0x09 0x0D c || in_range 0x1C 0x20 c || (c =? 0x85)%N || (c =? 0xA0)%N
  || (c =? 0x1680)%N || in_range 0x2000 0x200A c || in_range 0x2028 0x2029 c
  || (c =? 0x202F)%N || (c =? 0x205F)%N || (c =? 0x3000)%N.

(** The class [\d]: the decimal digits (category Nd) of Unicode 14.0, the
    table of CPython 3.11, as ranges of code points. *)
Definition decimal_ranges : list (N * N) :=
  [ (0x30, 0x39); (0x660, 0x669); (0x6F0, 0x6F9); (0x7C0, 0x7C9); (0x966, 0x96F);
    (0x9E6, 0x9EF); (0xA66, 0xA6F); (0xAE6, 0xAEF); (0xB66, 0xB6F); (0xBE6, 0xBEF);
    (0xC66, 0xC6F); (0xCE6, 0xCEF); (0xD66, 0xD6F); (0xDE6, 0xDEF); (0xE50, 0xE59);
    (0xED0, 0xED9); (0xF20, 0xF29); (0x1040, 0x1049); (0x1090, 0x1099);
    (0x17E0, 0x17E9); (0x1810, 0x1819); (0x1946, 0x194F); (0x19D0, 0x19D9);
    (0x1A80, 0x1A89); (0x1A90, 0x1A99); (0x1B50, 0x1B59); (0x1BB0, 0x1BB9);
    (0x1C40, 0x1C49); (0x1C50, 0x1C59); (0xA620, 0xA629); (0xA8D0, 0xA8D9);
    (0xA900, 0xA909); (0xA9D0, 0xA9D9); (0xA9F0, 0xA9F9); (0xAA50, 0xAA59);
    (0xABF0, 0xABF9); (0xFF10, 0xFF19); (0x104A0, 0x104A9); (0x10D30, 0x10D39);
    (0x11066, 0x1106F); (0x110F0, 0x110F9); (0x11136, 0x1113F); (0x111D0, 0x111D9);
    (0x112F0, 0x112F9); (0x11450, 0x11459); (0x114D0, 0x114D9); (0x11650, 0x11659);
    (0x116C0, 0x116C9); (0x11730, 0x11739); (0x118E0, 0x118E9); (0x11950, 0x11959);
    (0x11C50, 0x11C59); (0x11D50, 0x11D59); (0x11DA0, 0x11DA9); (0x16A60, 0x16A69);
    (0x16AC0, 0x16AC9); (0x16B50, 0x16B59); (0x1D7CE, 0x1D7FF); (0x1E140, 0x1E149);
    (0x1E2F0, 0x1E2F9); (0x1E950, 0x1E959); (0x1FBF0, 0x1FBF9) ]%N.

Definition isdecimal (c : N) : bool :=
  existsb (fun r => in_range (fst r) (snd r) c) decimal_ranges.

(** The class [\w]: the alphanumeric characters of the same Unicode
    version ([str.isalnum]) and the underscore. *)
Definition word_ranges : list (N * N) :=
  [ (0x30, 0x39); (0x41, 0x5A); (0x5F, 0x5F); (0x61, 0x7A); (0xAA, 0xAA); (0xB2, 0xB3);
    (0xB5, 0xB5); (0xB9, 0xBA); (0xBC, 0xBE); (0xC0, 0xD6); (0xD8, 0xF6);
    (0xF8, 0x2C1); (0x2C6, 0x2D1); (0x2E0, 0x2E4); (0x2EC, 0x2EC); (0x2EE, 0x2EE);
    (0x370, 0x374); (0x376, 0x377); (0x37A, 0x37D); (0x37F, 0x37F); (0x386, 0x386);
    (0x388, 0x38A); (0x38C, 0x38C); (0x38E, 0x3A1); (0x3A3, 0x3F5); (0x3F7, 0x481);
    (0x48A, 0x52F); (0x531, 0x556); (0x559, 0x559); (0x560, 0x588); (0x5D0, 0x5EA);
    (0x5EF, 0x5F2); (0x620, 0x64A); (0x660, 0x669); (0x66E, 0x66F); (0x671, 0x6D3);
    (0x6D5, 0x6D5); (0x6E5, 0x6E6); (0x6EE, 0x6FC); (0x6FF, 0x6FF); (0x710, 0x710);
    (0x712, 0x72F); (0x74D, 0x7A5); (0x7B1, 0x7B1); (0x7C0, 0x7EA); (0x7F4, 0x7F5);
    (0x7FA, 0x7FA); (0x800, 0x815); (0x81A, 0x81A); (0x824, 0x824); (0x828, 0x828);
    (0x840, 0x858); (0x860, 0x86A); (0x870, 0x887); (0x889, 0x88E); (0x8A0, 0x8C9);
    (0x904, 0x939); (0x93D, 0x93D); (0x950, 0x950); (0x958, 0x961); (0x966, 0x96F);
    (0x971, 0x980); (0x985, 0x98C); (0x98F, 0x990); (0x993, 0x9A8); (0x9AA, 0x9B0);
    (0x9B2, 0x9B2); (0x9B6, 0x9B9); (0x9BD, 0x9BD); (0x9CE, 0x9CE); (0x9DC, 0x9DD);
    (0x9DF, 0x9E1); (0x9E6, 0x9F1); (0x9F4, 0x9F9); (0x9FC, 0x9FC); (0xA05, 0xA0A);
    (0xA0F, 0xA10); (0xA13, 0xA28); (0xA2A, 0xA30); (0xA32, 0xA33); (0xA35, 0xA36);
    (0xA38, 0xA39); (0xA59, 0xA5C); (0xA5E, 0xA5E); (0xA66, 0xA6F); (0xA72, 0xA74);
    (0xA85, 0xA8D); (0xA8F, 0xA91); (0xA93, 0xAA8); (0xAAA, 0xAB0); (0xAB2, 0xAB3);
    (0xAB5, 0xAB9); (0xABD, 0xABD); (0xAD0, 0xAD0); (0xAE0, 0xAE1); (0xAE6, 0xAEF);
    (0xAF9, 0xAF9); (0xB05, 0xB0C); (0xB0F, 0xB10); (0xB13, 0xB28); (0xB2A, 0xB30);
    (0xB32, 0xB33); (0xB35, 0xB39); (0xB3D, 0xB3D); (0xB5C, 0xB5D); (0xB5F, 0xB61);
    (0xB66, 0xB6F); (0xB71, 0xB77); (0xB83, 0xB83); (0xB85, 0xB8A); (0xB8E, 0xB90);
    (0xB92, 0xB95); (0xB99, 0xB9A); (0xB9C, 0xB9C); (0xB9E, 0xB9F); (0xBA3, 0xBA4);
    (0xBA8, 0xBAA); (0xBAE, 0xBB9); (0xBD0, 0xBD0); (0xBE6, 0xBF2); (0xC05, 0xC0C);
    (0xC0E, 0xC10); (0xC12, 0xC28); (0xC2A, 0xC39); (0xC3D, 0xC3D); (0xC58, 0xC5A);
    (0xC5D, 0xC5D); (0xC60, 0xC61); (0xC66, 0xC6F); (0xC78, 0xC7E); (0xC80, 0xC80);
    (0xC85, 0xC8C); (0xC8E, 0xC90); (0xC92, 0xCA8); (0xCAA, 0xCB3); (0xCB5, 0xCB9);
    (0xCBD, 0xCBD); (0xCDD, 0xCDE); (0xCE0, 0xCE1); (0xCE6, 0xCEF); (0xCF1, 0xCF2);
    (0xD04, 0xD0C); (0xD0E, 0xD10); (0xD12, 0xD3A); (0xD3D, 0xD3D); (0xD4E, 0xD4E);
    (0xD54, 0xD56); (0xD58, 0xD61); (0xD66, 0xD78); (0xD7A, 0xD7F); (0xD85, 0xD96);
    (0xD9A, 0xDB1); (0xDB3, 0xDBB); (0xDBD, 0xDBD); (0xDC0, 0xDC6); (0xDE6, 0xDEF);
    (0xE01, 0xE30); (0xE32, 0xE33); (0xE40, 0xE46); (0xE50, 0xE59); (0xE81, 0xE82);
    (0xE84, 0xE84); (0xE86, 0xE8A); (0xE8C, 0xEA3); (0xEA5, 0xEA5); (0xEA7, 0xEB0);
    (0xEB2, 0xEB3); (0xEBD, 0xEBD); (0xEC0, 0xEC4); (0xEC6, 0xEC6); (0xED0, 0xED9);
    (0xEDC, 0xEDF); (0xF00, 0xF00); (0xF20, 0xF33); (0xF40, 0xF47); (0xF49, 0xF6C);
    (0xF88, 0xF8C); (0x1000, 0x102A); (0x103F, 0x1049); (0x1050, 0x1055);
    (0x105A, 0x105D); (0x1061, 0x1061); (0x1065, 0x1066); (0x106E, 0x1070);
    (0x1075, 0x1081); (0x108E, 0x108E); (0x1090, 0x1099); (0x10A0, 0x10C5);
    (0x10C7, 0x10C7); (0x10CD, 0x10CD); (0x10D0, 0x10FA); (0x10FC, 0x1248);
    (0x124A, 0x124D); (0x1250, 0x1256); (0x1258, 0x1258); (0x125A, 0x125D);
    (0x1260, 0x1288); (0x128A, 0x128D); (0x1290, 0x12B0); (0x12B2, 0x12B5);
    (0x12B8, 0x12BE); (0x12C0, 0x12C0); (0x12C2, 0x12C5); (0x12C8, 0x12D6);
    (0x12D8, 0x1310); (0x1312, 0x1315); (0x1318, 0x135A); (0x1369, 0x137C);
    (0x1380, 0x138F); (0x13A0, 0x13F5); (0x13F8, 0x13FD); (0x1401, 0x166C);
    (0x166F, 0x167F); (0x1681, 0x169A); (0x16A0, 0x16EA); (0x16EE, 0x16F8);
    (0x1700, 0x1711); (0x171F, 0x1731); (0x1740, 0x1751); (0x1760, 0x176C);
    (0x176E, 0x1770); (0x1780, 0x17B3); (0x17D7, 0x17D7); (0x17DC, 0x17DC);
    (0x17E0, 0x17E9); (0x17F0, 0x17F9); (0x1810, 0x1819); (0x1820, 0x1878);
    (0x1880, 0x1884); (0x1887, 0x18A8); (0x18AA, 0x18AA); (0x18B0, 0x18F5);
    (0x1900, 0x191E); (0x1946, 0x196D); (0x1970, 0x1974); (0x1980, 0x19AB);
    (0x19B0, 0x19C9); (0x19D0, 0x19DA); (0x1A00, 0x1A16); (0x1A20, 0x1A54);
    (0x1A80, 0x1A89); (0x1A90, 0x1A99); (0x1AA7, 0x1AA7); (0x1B05, 0x1B33);
    (0x1B45, 0x1B4C); (0x1B50, 0x1B59); (0x1B83, 0x1BA0); (0x1BAE, 0x1BE5);
    (0x1C00, 0x1C23); (0x1C40, 0x1C49); (0x1C4D, 0x1C7D); (0x1C80, 0x1C88);
    (0x1C90, 0x1CBA); (0x1CBD, 0x1CBF); (0x1CE9, 0x1CEC); (0x1CEE, 0x1CF3);
    (0x1CF5, 0x1CF6); (0x1CFA, 0x1CFA); (0x1D00, 0x1DBF); (0x1E00, 0x1F15);
    (0x1F18, 0x1F1D); (0x1F20, 0x1F45); (0x1F48, 0x1F4D); (0x1F50, 0x1F57);
    (0x1F59, 0x1F59); (0x1F5B, 0x1F5B); (0x1F5D, 0x1F5D); (0x1F5F, 0x1F7D);
    (0x1F80, 0x1FB4); (0x1FB6, 0x1FBC); (0x1FBE, 0x1FBE); (0x1FC2, 0x1FC4);
    (0x1FC6, 0x1FCC); (0x1FD0, 0x1FD3); (0x1FD6, 0x1FDB); (0x1FE0, 0x1FEC);
    (0x1FF2, 0x1FF4); (0x1FF6, 0x1FFC); (0x2070, 0x2071); (0x2074, 0x2079);
    (0x207F, 0x2089); (0x2090, 0x209C); (0x2102, 0x2102); (0x2107, 0x2107);
    (0x210A, 0x2113); (0x2115, 0x2115); (0x2119, 0x211D); (0x2124, 0x2124);
    (0x2126, 0x2126); (0x2128, 0x2128); (0x212A, 0x212D); (0x212F, 0x2139);
    (0x213C, 0x213F); (0x2145, 0x2149); (0x214E, 0x214E); (0x2150, 0x2189);
    (0x2460, 0x249B); (0x24EA, 0x24FF); (0x2776, 0x2793); (0x2C00, 0x2CE4);
    (0x2CEB, 0x2CEE); (0x2CF2, 0x2CF3); (0x2CFD, 0x2CFD); (0x2D00, 0x2D25);
    (0x2D27, 0x2D27); (0x2D2D, 0x2D2D); (0x2D30, 0x2D67); (0x2D6F, 0x2D6F);
    (0x2D80, 0x2D96); (0x2DA0, 0x2DA6); (0x2DA8, 0x2DAE); (0x2DB0, 0x2DB6);
    (0x2DB8, 0x2DBE); (0x2DC0, 0x2DC6); (0x2DC8, 0x2DCE); (0x2DD0, 0x2DD6);
    (0x2DD8, 0x2DDE); (0x2E2F, 0x2E2F); (0x3005, 0x3007); (0x3021, 0x3029);
    (0x3031, 0x3035); (0x3038, 0x303C); (0x3041, 0x3096); (0x309D, 0x309F);
    (0x30A1, 0x30FA); (0x30FC, 0x30FF); (0x3105, 0x312F); (0x3131, 0x318E);
    (0x3192, 0x3195); (0x31A0, 0x31BF); (0x31F0, 0x31FF); (0x3220, 0x3229);
    (0x3248, 0x324F); (0x3251, 0x325F); (0x3280, 0x3289); (0x32B1, 0x32BF);
    (0x3400, 0x4DBF); (0x4E00, 0xA48C); (0xA4D0, 0xA4FD); (0xA500, 0xA60C);
    (0xA610, 0xA62B); (0xA640, 0xA66E); (0xA67F, 0xA69D); (0xA6A0, 0xA6EF);
    (0xA717, 0xA71F); (0xA722, 0xA788); (0xA78B, 0xA7CA); (0xA7D0, 0xA7D1);
    (0xA7D3, 0xA7D3); (0xA7D5, 0xA7D9); (0xA7F2, 0xA801); (0xA803, 0xA805);
    (0xA807, 0xA80A); (0xA80C, 0xA822); (0xA830, 0xA835); (0xA840, 0xA873);
    (0xA882, 0xA8B3); (0xA8D0, 0xA8D9); (0xA8F2, 0xA8F7); (0xA8FB, 0xA8FB);
    (0xA8FD, 0xA8FE); (0xA900, 0xA925); (0xA930, 0xA946); (0xA960, 0xA97C);
    (0xA984, 0xA9B2); (0xA9CF, 0xA9D9); (0xA9E0, 0xA9E4); (0xA9E6, 0xA9FE);
    (0xAA00, 0xAA28); (0xAA40, 0xAA42); (0xAA44, 0xAA4B); (0xAA50, 0xAA59);
    (0xAA60, 0xAA76); (0xAA7A, 0xAA7A); (0xAA7E, 0xAAAF); (0xAAB1, 0xAAB1);
    (0xAAB5, 0xAAB6); (0xAAB9, 0xAABD); (0xAAC0, 0xAAC0); (0xAAC2, 0xAAC2);
    (0xAADB, 0xAADD); (0xAAE0, 0xAAEA); (0xAAF2, 0xAAF4); (0xAB01, 0xAB06);
    (0xAB09, 0xAB0E); (0xAB11, 0xAB16); (0xAB20, 0xAB26); (0xAB28, 0xAB2E);
    (0xAB30, 0xAB5A); (0xAB5C, 0xAB69); (0xAB70, 0xABE2); (0xABF0, 0xABF9);
    (0xAC00, 0xD7A3); (0xD7B0, 0xD7C6); (0xD7CB, 0xD7FB); (0xF900, 0xFA6D);
    (0xFA70, 0xFAD9); (0xFB00, 0xFB06); (0xFB13, 0xFB17); (0xFB1D, 0xFB1D);
    (0xFB1F, 0xFB28); (0xFB2A, 0xFB36); (0xFB38, 0xFB3C); (0xFB3E, 0xFB3E);
    (0xFB40, 0xFB41); (0xFB43, 0xFB44); (0xFB46, 0xFBB1); (0xFBD3, 0xFD3D);
    (0xFD50, 0xFD8F); (0xFD92, 0xFDC7); (0xFDF0, 0xFDFB); (0xFE70, 0xFE74);
    (0xFE76, 0xFEFC); (0xFF10, 0xFF19); (0xFF21, 0xFF3A); (0xFF41, 0xFF5A);
    (0xFF66, 0xFFBE); (0xFFC2, 0xFFC7); (0xFFCA, 0xFFCF); (0xFFD2, 0xFFD7);
    (0xFFDA, 0xFFDC); (0x10000, 0x1000B); (0x1000D, 0x10026); (0x10028, 0x1003A);
    (0x1003C, 0x1003D); (0x1003F, 0x1004D); (0x10050, 0x1005D); (0x10080, 0x100FA);
    (0x10107, 0x10133); (0x10140, 0x10178); (0x1018A, 0x1018B); (0x10280, 0x1029C);
    (0x102A0, 0x102D0); (0x102E1, 0x102FB); (0x10300, 0x10323); (0x1032D, 0x1034A);
    (0x10350, 0x10375); (0x10380, 0x1039D); (0x103A0, 0x103C3); (0x103C8, 0x103CF);
    (0x103D1, 0x103D5); (0x10400, 0x1049D); (0x104A0, 0x104A9); (0x104B0, 0x104D3);
    (0x104D8, 0x104FB); (0x10500, 0x10527); (0x10530, 0x10563); (0x10570, 0x1057A);
    (0x1057C, 0x1058A); (0x1058C, 0x10592); (0x10594, 0x10595); (0x10597, 0x105A1);
    (0x105A3, 0x105B1); (0x105B3, 0x105B9); (0x105BB, 0x105BC); (0x10600, 0x10736);
    (0x10740, 0x10755); (0x10760, 0x10767); (0x10780, 0x10785); (0x10787, 0x107B0);
    (0x107B2, 0x107BA); (0x10800, 0x10805); (0x10808, 0x10808); (0x1080A, 0x10835);
    (0x10837, 0x10838); (0x1083C, 0x1083C); (0x1083F, 0x10855); (0x10858, 0x10876);
    (0x10879, 0x1089E); (0x108A7, 0x108AF); (0x108E0, 0x108F2); (0x108F4, 0x108F5);
    (0x108FB, 0x1091B); (0x10920, 0x10939); (0x10980, 0x109B7); (0x109BC, 0x109CF);
    (0x109D2, 0x10A00); (0x10A10, 0x10A13); (0x10A15, 0x10A17); (0x10A19, 0x10A35);
    (0x10A40, 0x10A48); (0x10A60, 0x10A7E); (0x10A80, 0x10A9F); (0x10AC0, 0x10AC7);
    (0x10AC9, 0x10AE4); (0x10AEB, 0x10AEF); (0x10B00, 0x10B35); (0x10B40, 0x10B55);
    (0x10B58, 0x10B72); (0x10B78, 0x10B91); (0x10BA9, 0x10BAF); (0x10C00, 0x10C48);
    (0x10C80, 0x10CB2); (0x10CC0, 0x10CF2); (0x10CFA, 0x10D23); (0x10D30, 0x10D39);
    (0x10E60, 0x10E7E); (0x10E80, 0x10EA9); (0x10EB0, 0x10EB1); (0x10F00, 0x10F27);
    (0x10F30, 0x10F45); (0x10F51, 0x10F54); (0x10F70, 0x10F81); (0x10FB0, 0x10FCB);
    (0x10FE0, 0x10FF6); (0x11003, 0x11037); (0x11052, 0x1106F); (0x11071, 0x11072);
    (0x11075, 0x11075); (0x11083, 0x110AF); (0x110D0, 0x110E8); (0x110F0, 0x110F9);
    (0x11103, 0x11126); (0x11136, 0x1113F); (0x11144, 0x11144); (0x11147, 0x11147);
    (0x11150, 0x11172); (0x11176, 0x11176); (0x11183, 0x111B2); (0x111C1, 0x111C4);
    (0x111D0, 0x111DA); (0x111DC, 0x111DC); (0x111E1, 0x111F4); (0x11200, 0x11211);
    (0x11213, 0x1122B); (0x11280, 0x11286); (0x11288, 0x11288); (0x1128A, 0x1128D);
    (0x1128F, 0x1129D); (0x1129F, 0x112A8); (0x112B0, 0x112DE); (0x112F0, 0x112F9);
    (0x11305, 0x1130C); (0x1130F, 0x11310); (0x11313, 0x11328); (0x1132A, 0x11330);
    (0x11332, 0x11333); (0x11335, 0x11339); (0x1133D, 0x1133D); (0x11350, 0x11350);
    (0x1135D, 0x11361); (0x11400, 0x11434); (0x11447, 0x1144A); (0x11450, 0x11459);
    (0x1145F, 0x11461); (0x11480, 0x114AF); (0x114C4, 0x114C5); (0x114C7, 0x114C7);
    (0x114D0, 0x114D9); (0x11580, 0x115AE); (0x115D8, 0x115DB); (0x11600, 0x1162F);
    (0x11644, 0x11644); (0x11650, 0x11659); (0x11680, 0x116AA); (0x116B8, 0x116B8);
    (0x116C0, 0x116C9); (0x11700, 0x1171A); (0x11730, 0x1173B); (0x11740, 0x11746);
    (0x11800, 0x1182B); (0x118A0, 0x118F2); (0x118FF, 0x11906); (0x11909, 0x11909);
    (0x1190C, 0x11913); (0x11915, 0x11916); (0x11918, 0x1192F); (0x1193F, 0x1193F);
    (0x11941, 0x11941); (0x11950, 0x11959); (0x119A0, 0x119A7); (0x119AA, 0x119D0);
    (0x119E1, 0x119E1); (0x119E3, 0x119E3); (0x11A00, 0x11A00); (0x11A0B, 0x11A32);
    (0x11A3A, 0x11A3A); (0x11A50, 0x11A50); (0x11A5C, 0x11A89); (0x11A9D, 0x11A9D);
    (0x11AB0, 0x11AF8); (0x11C00, 0x11C08); (0x11C0A, 0x11C2E); (0x11C40, 0x11C40);
    (0x11C50, 0x11C6C); (0x11C72, 0x11C8F); (0x11D00, 0x11D06); (0x11D08, 0x11D09);
    (0x11D0B, 0x11D30); (0x11D46, 0x11D46); (0x11D50, 0x11D59); (0x11D60, 0x11D65);
    (0x11D67, 0x11D68); (0x11D6A, 0x11D89); (0x11D98, 0x11D98); (0x11DA0, 0x11DA9);
    (0x11EE0, 0x11EF2); (0x11FB0, 0x11FB0); (0x11FC0, 0x11FD4); (0x12000, 0x12399);
    (0x12400, 0x1246E); (0x12480, 0x12543); (0x12F90, 0x12FF0); (0x13000, 0x1342E);
    (0x14400, 0x14646); (0x16800, 0x16A38); (0x16A40, 0x16A5E); (0x16A60, 0x16A69);
    (0x16A70, 0x16ABE); (0x16AC0, 0x16AC9); (0x16AD0, 0x16AED); (0x16B00, 0x16B2F);
    (0x16B40, 0x16B43); (0x16B50, 0x16B59); (0x16B5B, 0x16B61); (0x16B63, 0x16B77);
    (0x16B7D, 0x16B8F); (0x16E40, 0x16E96); (0x16F00, 0x16F4A); (0x16F50, 0x16F50);
    (0x16F93, 0x16F9F); (0x16FE0, 0x16FE1); (0x16FE3, 0x16FE3); (0x17000, 0x187F7);
    (0x18800, 0x18CD5); (0x18D00, 0x18D08); (0x1AFF0, 0x1AFF3); (0x1AFF5, 0x1AFFB);
    (0x1AFFD, 0x1AFFE); (0x1B000, 0x1B122); (0x1B150, 0x1B152); (0x1B164, 0x1B167);
    (0x1B170, 0x1B2FB); (0x1BC00, 0x1BC6A); (0x1BC70, 0x1BC7C); (0x1BC80, 0x1BC88);
    (0x1BC90, 0x1BC99); (0x1D2E0, 0x1D2F3); (0x1D360, 0x1D378); (0x1D400, 0x1D454);
    (0x1D456, 0x1D49C); (0x1D49E, 0x1D49F); (0x1D4A2, 0x1D4A2); (0x1D4A5, 0x1D4A6);
    (0x1D4A9, 0x1D4AC); (0x1D4AE, 0x1D4B9); (0x1D4BB, 0x1D4BB); (0x1D4BD, 0x1D4C3);
    (0x1D4C5, 0x1D505); (0x1D507, 0x1D50A); (0x1D50D, 0x1D514); (0x1D516, 0x1D51C);
    (0x1D51E, 0x1D539); (0x1D53B, 0x1D53E); (0x1D540, 0x1D544); (0x1D546, 0x1D546);
    (0x1D54A, 0x1D550); (0x1D552, 0x1D6A5); (0x1D6A8, 0x1D6C0); (0x1D6C2, 0x1D6DA);
    (0x1D6DC, 0x1D6FA); (0x1D6FC, 0x1D714); (0x1D716, 0x1D734); (0x1D736, 0x1D74E);
    (0x1D750, 0x1D76E); (0x1D770, 0x1D788); (0x1D78A, 0x1D7A8); (0x1D7AA, 0x1D7C2);
    (0x1D7C4, 0x1D7CB); (0x1D7CE, 0x1D7FF); (0x1DF00, 0x1DF1E); (0x1E100, 0x1E12C);
    (0x1E137, 0x1E13D); (0x1E140, 0x1E149); (0x1E14E, 0x1E14E); (0x1E290, 0x1E2AD);
    (0x1E2C0, 0x1E2EB); (0x1E2F0, 0x1E2F9); (0x1E7E0, 0x1E7E6); (0x1E7E8, 0x1E7EB);
    (0x1E7ED, 0x1E7EE); (0x1E7F0, 0x1E7FE); (0x1E800, 0x1E8C4); (0x1E8C7, 0x1E8CF);
    (0x1E900, 0x1E943); (0x1E94B, 0x1E94B); (0x1E950, 0x1E959); (0x1EC71, 0x1ECAB);
    (0x1ECAD, 0x1ECAF); (0x1ECB1, 0x1ECB4); (0x1ED01, 0x1ED2D); (0x1ED2F, 0x1ED3D);
    (0x1EE00, 0x1EE03); (0x1EE05, 0x1EE1F); (0x1EE21, 0x1EE22); (0x1EE24, 0x1EE24);
    (0x1EE27, 0x1EE27); (0x1EE29, 0x1EE32); (0x1EE34, 0x1EE37); (0x1EE39, 0x1EE39);
    (0x1EE3B, 0x1EE3B); (0x1EE42, 0x1EE42); (0x1EE47, 0x1EE47); (0x1EE49, 0x1EE49);
    (0x1EE4B, 0x1EE4B); (0x1EE4D, 0x1EE4F); (0x1EE51, 0x1EE52); (0x1EE54, 0x1EE54);
    (0x1EE57, 0x1EE57); (0x1EE59, 0x1EE59); (0x1EE5B, 0x1EE5B); (0x1EE5D, 0x1EE5D);
    (0x1EE5F, 0x1EE5F); (0x1EE61, 0x1EE62); (0x1EE64, 0x1EE64); (0x1EE67, 0x1EE6A);
    (0x1EE6C, 0x1EE72); (0x1EE74, 0x1EE77); (0x1EE79, 0x1EE7C); (0x1EE7E, 0x1EE7E);
    (0x1EE80, 0x1EE89); (0x1EE8B, 0x1EE9B); (0x1EEA1, 0x1EEA3); (0x1EEA5, 0x1EEA9);
    (0x1EEAB, 0x1EEBB); (0x1F100, 0x1F10C); (0x1FBF0, 0x1FBF9); (0x20000, 0x2A6DF);
    (0x2A700, 0x2B738); (0x2B740, 0x2B81D); (0x2B820, 0x2CEA1); (0x2CEB0, 0x2EBE0);
    (0x2F800, 0x2FA1D); (0x30000, 0x3134A) ]%N.

Definition isword (c : N) : bool :=
  existsb (fun r => in_range (fst r) (snd r) c) word_ranges.

(** Simple lower-casing as [re.IGNORECASE] applies it.  Only the code points
    that fold to an ASCII letter matter, because the patterns of the source
    contain no other cased character: the capitals, U+0130 and the Kelvin
    sign U+212A. *)
Definition lower_cp (c : N) : N :=
  if in_range 0x41 0x5A c then (c + 32)%N
  else if (c =? 0x130)%N then 0x69%N
  else if (c =? 0x212A)%N then 0x6B%N
  else c.

(** A pattern character [p] against a subject character [x] under
    [re.IGNORECASE]; dotless i (U+0131) and long s (U+017F) are the two
    extra equivalents CPython adds for [i] and [s]. *)
Definition ieq (p x : N) : bool :=
  (lower_cp x =? lower_cp p)%N
  || ((lower_cp p =? 0x69) && (x =? 0x131))%N
  || ((lower_cp p =? 0x73) && (x =? 0x17F))%N.

Definition str_eqb (a b : str) : bool := bool_decide (a = b).

(** [s.startswith(p)] *)
Fixpoint startswith (s p : str) {struct p} : bool :=
  match p, s with
  | [], _ => true
  | c :: p', x :: s' => (x =? c)%N && startswith s' p'
  | _ :: _, [] => false
  end.

(** [needle in hay] *)
Fixpoint contains (needle hay : str) : bool :=
  startswith hay needle ||
  match hay with
  | [] => false
  | _ :: hay' => contains needle hay'
  end.

Fixpoint lstrip (s : str) : str :=
  match s with
  | c :: s' => if isspace c then lstrip s' else s
  | [] => []
  end.

Definition rstrip (s : str) : str := rev (lstrip (rev s)).

(** [s.strip()] *)
Definition strip (s : str) : str := rstrip (lstrip s).

(** [s.replace(old, new)]: non-overlapping occurrences, left to right.
    [skip] counts the characters of an occurrence still to be dropped. *)
Fixpoint replace_walk (old new s : str) (skip : nat) : str :=
  match skip, s with
  | S k, _ :: s' => replace_walk old new s' k
  | S _, [] => []
  | O, [] => if startswith [] old then new else []
  | O, c :: s' =>
      if startswith s old then
        match length old with
        | O => new ++ c :: replace_walk old new s' 0
        | S k => new ++ replace_walk old new s' k
        end
      else c :: replace_walk old new s' 0
  end.

Definition replace (s old new : str) : str := replace_walk old new s 0.

(** *** Regular expressions

    A backtracking matcher in continuation-passing style: alternatives are
    tried in the order [re] tries them, so the first success is the match
    [re] reports.  The cursor is the character before the position (for
    [\b]) and the rest of the subject. *)

Inductive re : Type :=
| Eps
| Lit (c : N)                  (* a literal character *)
| LitI (c : N)                 (* a literal character under re.I *)
| Cls (p : N -> bool)          (* a character class *)
| WordB                        (* \b *)
| Cat (a b : re)
| Alt (a b : re)
| Star (greedy : bool) (p : N -> bool)   (* [p]* and [p]*? *)
| Grp (n : nat) (a : re).      (* capturing group number n *)

Definition caps := list (nat * list N).
Definition cont (R : Type) := option N -> list N -> caps -> option R.

Fixpoint star {R} (greedy : bool) (p : N -> bool) (k : cont R)
    (prev : option N) (s : str) (g : caps) : option R :=
  match s with
  | c :: s' =>
      if p c then
        if greedy then
          match star greedy p k (Some c) s' g with
          | Some r => Some r
          | None => k prev s g
          end
        else
          match k prev s g with
          | Some r => Some r
          | None => star greedy p k (Some c) s' g
          end
      else k prev s g
  | [] => k prev s g
  end.

Definition word_opt (c : option N) : bool :=
  match c with Some x => isword x | None => false end.

Definition at_boundary (prev : option N) (s : str) : bool :=
  xorb (word_opt prev) (word_opt (head s)).

Fixpoint run {R} (r : re) (k : cont R) (prev : option N) (s : str) (g : caps)
    : option R :=
  match r with
  | Eps => k prev s g
  | Lit c =>
      match s with
      | x :: s' => if (x =? c)%N then k (Some x) s' g else None
      | [] => None
      end
  | LitI c =>
      match s with
      | x :: s' => if ieq c x then k (Some x) s' g else None
      | [] => None
      end
  | Cls p =>
      match s with
      | x :: s' => if p x then k (Some x) s' g else None
      | [] => None
      end
  | WordB => if at_boundary prev s then k prev s g else None
  | Cat a b => run a (run b k) prev s g
  | Alt a b =>
      match run a k prev s g with
      | Some r => Some r
      | None => run b k prev s g
      end
  | Star greedy p => star greedy p k prev s g
  | Grp n a =>
      run a (fun prev' s' g' =>
               k prev' s' ((n, take (length s - length s') s) :: g'))
          prev s g
  end.

(** Derived forms. *)
Definition plus (p : N -> bool) : re := Cat (Cls p) (Star true p).
Definition opt (a : re) : re := Alt a Eps.
Definition cats (l : list re) : re := foldr Cat Eps l.
Definition lit (s : str) : re := cats (map Lit s).
Definition liti (s : str) : re := cats (map LitI s).
Definition isnot (c : N) (x : N) : bool := negb (x =? c)%N.
Definition anychar (x : N) : bool := true.
Definition ws_star : re := Star true isspace.
Definition ws_plus : re := plus isspace.

(** One match attempt at the cursor: the length of the match and its
    groups.  With [adv] an empty match is refused (the search must
    advance), as after an empty match at the same position. *)
Definition match_at (r : re) (adv : bool) (prev : option N) (s : str)
    : option (nat * caps) :=
  run r (fun _ s' g =>
           let n := (length s - length s')%nat in
           if adv && (n =? 0)%nat then None else Some (n, g))
      prev s [].

(** Replacement templates: literal text and group references. *)
Inductive titem : Type :=
| TStr (s : list N)
| TGrp (n : nat).

Fixpoint group (g : caps) (n : nat) : str :=
  match g with
  | (m, v) :: g' => if (m =? n)%nat then v else group g' n
  | [] => []
  end.

Definition expand (t : list titem) (g : caps) : str :=
  concat (map (fun i => match i with TStr s => s | TGrp n => group g n end) t).

(** [re.sub(r, t, s)]: leftmost matches, replaced from left to right.
    [skip] counts the characters of the current match still to be dropped. *)
Fixpoint sub_walk (r : re) (t : list titem) (prev : option N) (s : str)
    (skip : nat) : str :=
  match skip, s with
  | S k, c :: s' => sub_walk r t (Some c) s' k
  | S _, [] => []
  | O, [] =>
      match match_at r false prev [] with
      | Some (_, g) => expand t g
      | None => []
      end
  | O, c :: s' =>
      match match_at r false prev s with
      | Some (S k, g) => expand t g ++ sub_walk r t (Some c) s' k
      | Some (O, g) =>
          expand t g ++
          match match_at r true prev s with
          | Some (S k, g') => expand t g' ++ sub_walk r t (Some c) s' k
          | _ => c :: sub_walk r t (Some c) s' 0
          end
      | None => c :: sub_walk r t (Some c) s' 0
      end
  end.

Definition sub (r : re) (t : list titem) (s : str) : str :=
  sub_walk r t None s 0.

(** *** Exceptions and results *)

(** [RuntimeError] is the only class the scripts catch by name; every
    other exception class (HTTP and connection errors, type errors) is
    [Exception].  The string is [str(e)]. *)
Inductive exn : Type :=
| RuntimeError (msg : list N)
| Exception (msg : list N).

Definition str_of_exn (e : exn) : str :=
  match e with RuntimeError m => m | Exception m => m end.

Inductive res (A : Type) : Type :=
| Ok (a : A)
| Raise (e : exn).
Arguments Ok {A} a.
Arguments Raise {A} e.

End Py.

(** ** The translation engine ([scripts/translate_openai.py]) *)

Module Translate.
Import Py.

(** *** Text helpers and the clean-up rules *)

(** [re.sub(r"<[^>]+>", " ", html_str)], then [re.sub(r"\s+", " ", txt).strip()] *)
Definition tag_re : re := cats [Lit 0x3C; plus (isnot 0x3E); Lit 0x3E].
Definition collapse_ws (s : str) : str := sub ws_plus [TStr (u " ")] s.

Definition html_to_text (html_str : str) : str :=
  let txt := sub tag_re [TStr (u " ")] html_str in
  strip (collapse_ws txt).

Definition BRAND_MAP : list (list N * list N) :=
  [ ([0x634; 0x627; 0x648; 0x645; 0x64A], u "Xiaomi");
    ([0x633; 0x627; 0x645; 0x633; 0x648; 0x646; 0x62C], u "Samsung");
    ([0x627; 0x628; 0x644], u "Apple");
    ([0x623; 0x628; 0x644], u "Apple");
    ([0x647; 0x648; 0x627; 0x648; 0x64A], u "Huawei");
    ([0x627; 0x646; 0x643; 0x631], u "Anker") ]%N.

Definition degree_sign : N := 0xB0.
Definition digits : re := plus isdecimal.

Definition units_360 : re :=
  cats [WordB; liti (u "360"); ws_star; liti (u "degree"); opt (LitI 0x73); WordB].
Definition units_celsius : re :=
  cats [Grp 1 (Cat (opt (Lit 0x2D)) digits); ws_star; liti (u "degrees");
        ws_star; liti (u "Celsius")].
Definition units_grams : re :=
  cats [WordB; Grp 1 digits; ws_star; liti (u "gram"); opt (LitI 0x73); WordB].
Definition units_millimeters : re :=
  cats [WordB; Grp 1 digits; ws_star; liti (u "millimeter"); opt (LitI 0x73); WordB].
Definition units_mm : re :=
  cats [Grp 1 (Cls isdecimal); Grp 2 (liti (u "mm")); WordB].

Definition normalize_units_symbols (s : str) : str :=
  let s := sub units_360 [TStr (u "360" ++ [degree_sign])] s in
  let s := sub units_celsius [TGrp 1; TStr (degree_sign :: u "C")] s in
  let s := sub units_grams [TGrp 1; TStr (u " g")] s in
  let s := sub units_millimeters [TGrp 1; TStr (u " mm")] s in
  let s := sub units_mm [TGrp 1; TStr (u " mm")] s in
  s.

Definition brand_label_re (ar : str) : re :=
  cats [liti (u "Brand:"); ws_star; liti ar; WordB].

Definition normalize_brand_names (html : str) : str :=
  let html :=
    fold_left (fun h b => sub (brand_label_re (fst b)) [TStr (u "Brand: " ++ snd b)] h)
              BRAND_MAP html in
  fold_left (fun h b => replace h (u "<strong>Brand:</strong> " ++ fst b)
                                  (u "<strong>Brand:</strong> " ++ snd b))
            BRAND_MAP html.

Definition meta_re (label : str) : re :=
  cats [liti (u "<p"); Star true (isnot 0x3E); LitI 0x3E; ws_star;
        opt (liti (u "<strong>")); ws_star; liti label; ws_star; LitI 0x3A;
        Star false anychar; liti (u "</p>")].

Definition name_in_arabic_ar : list N :=
  [0x627; 0x633; 0x645; 0x20; 0x627; 0x644; 0x645; 0x646; 0x62A; 0x62C; 0x20;
   0x628; 0x627; 0x644; 0x639; 0x631; 0x628; 0x64A]%N.
Definition name_in_english_ar : list N :=
  [0x627; 0x633; 0x645; 0x20; 0x627; 0x644; 0x645; 0x646; 0x62A; 0x62C; 0x20;
   0x628; 0x627; 0x644; 0x625; 0x646; 0x62C; 0x644; 0x64A; 0x632; 0x64A]%N.

Definition meta_patterns : list re :=
  [ meta_re (u "Product name in Arabic");
    meta_re (u "Product name in English");
    meta_re name_in_arabic_ar;
    meta_re name_in_english_ar ].

Definition newline : N := 0x0A.
Definition blank_lines_re : re :=
  cats [Lit newline; Lit newline; Star true (N.eqb newline)].

Definition drop_meta_lines (html : str) : str :=
  let html := fold_left (fun h pat => sub pat [] h) meta_patterns html in
  sub blank_lines_re [TStr [newline]] html.

Definition c400_and_c200 : re :=
  cats [WordB; Grp 1 (lit (u "C400")); ws_plus; lit (u "and"); ws_plus;
        Grp 2 (lit (u "C200")); WordB].
Definition c400_amp : list titem := [TGrp 1; TStr (u " & "); TGrp 2].
Definition google_alexa : re :=
  cats [liti (u "Works with Google Home"); ws_plus; liti (u "and"); ws_plus;
        liti (u "Alexa")].
Definition assumed_note : re :=
  cats [LitI 0x28; Alt (liti (u "Assumed")) (liti (u "Not mentioned"));
        Star true (isnot 0x29); LitI 0x29].
Definition input_cell : re := cats [Lit 0x3E; Grp 1 (lit (u "Input")); Lit 0x3C].

Definition normalize_phrasing (html : str) : str :=
  let html := sub c400_and_c200 c400_amp html in
  let html := sub google_alexa [TStr (u "Works with Google Home & Amazon Alexa")] html in
  let html := sub assumed_note [TStr (u "Not specified")] html in
  let html := sub input_cell [TStr (u ">Power input<")] html in
  let html := sub (liti (u ">Wireless connection<")) [TStr (u ">Wireless<")] html in
  let html := sub (liti (u ">Item dimensions<")) [TStr (u ">Dimensions<")] html in
  html.

Definition dquote : N := 0x22.
Definition translate_no_re : re :=
  cats [ws_star; liti (u "translate"); ws_star; LitI 0x3D; ws_star; LitI dquote;
        Alt (liti (u "no")) (liti (u "false")); LitI dquote].

Definition strip_translate_no_attr (html : str) : str :=
  sub translate_no_re [] html.

(** [re.sub(r">\s+</", "></", html)] *)
Definition inter_tag_re : re := cats [Lit 0x3E; ws_plus; Lit 0x3C; Lit 0x2F].
Definition inter_tag_repl : list titem := [TStr (u "></")].
Definition trim_inter_tag (html : str) : str := sub inter_tag_re inter_tag_repl html.

(** What the inter-tag rule looks for after a [>]: at least one blank, then
    any blanks, then the two characters that open a closing tag.  [gap s] is
    the text after that, when [s] starts this way. *)
Definition gap (s : str) : option (list N) :=
  match s with
  | c :: s1 =>
      if isspace c then
        match lstrip s1 with
        | a :: b :: s3 => if (a =? 0x3C)%N && (b =? 0x2F)%N then Some s3 else None
        | _ => None
        end
      else None
  | [] => None
  end.

(** The tail of the inter-tag pattern, as a continuation. *)
Definition close_tag {R} (k : cont R) : cont R :=
  run (Cat (Lit 0x3C) (Cat (Lit 0x2F) Eps)) k.

Definition postprocess_english_html (html : str)
    (drop_meta normalize_units normalize_brands fix_phrasing strip_translate_no : bool)
    : str :=
  let html := if normalize_units then normalize_units_symbols html else html in
  let html := if normalize_brands then normalize_brand_names html else html in
  let html := if fix_phrasing then normalize_phrasing html else html in
  let html := if drop_meta then drop_meta_lines html else html in
  let html := if strip_translate_no then strip_translate_no_attr html else html in
  trim_inter_tag html.

(** *** The cache, the retrying chat wrapper and the translation calls

    The chat service is a parameter: [_chat] takes the state of the outside
    world and the request and gives the next state and the reply or the
    exception.  [_sha_key] is the fingerprint of a request (SHA-256 of its
    JSON text, from [hashlib] and [json]); the engine only compares
    fingerprints, so any function serves.  Floats are rationals. *)

Inductive event : Type :=
| EvChat (messages : list (list N * list N)) (model : list N)
         (temperature : Q) (max_tokens : Z)
| EvSleep (seconds : Q).

Section Engine.
Context {W : Type}.
Variable _chat :
  W -> list (list N * list N) -> list N -> Q -> Z -> W * res (list N).
Variable _sha_key : list (list N * list N) -> list N.

Record state : Type := State {
  world : W;
  _CACHE : gmap (list N) (list N);
  log : list event
}.

Definition M (A : Type) : Type := state -> res A * state.

Definition ret {A} (a : A) : M A := fun st => (Ok a, st).
Definition raise {A} (e : exn) : M A := fun st => (Raise e, st).
Definition bind {A B} (m : M A) (f : A -> M B) : M B :=
  fun st =>
    match m st with
    | (Ok a, st') => f a st'
    | (Raise e, st') => (Raise e, st')
    end.
(** [try: m except Exception as e: h e] *)
Definition try_except {A} (m : M A) (h : exn -> M A) : M A :=
  fun st =>
    match m st with
    | (Ok a, st') => (Ok a, st')
    | (Raise e, st') => h e st'
    end.

Definition emit (e : event) : M unit :=
  fun st => (Ok tt, State (world st) (_CACHE st) (log st ++ [e])).

Definition call_chat (messages : list (list N * list N)) (model : str)
    (temperature : Q) (max_tokens : Z) : M str :=
  fun st =>
    let (w', out) := _chat (world st) messages model temperature max_tokens in
    (out, State w' (_CACHE st)
                (log st ++ [EvChat messages model temperature max_tokens])).

Definition cached_call (key : list (list N * list N)) (fn : M str) : M str :=
  fun st =>
    let k := _sha_key key in
    match _CACHE st !! k with
    | Some v => (Ok v, st)
    | None =>
        match fn st with
        | (Ok out, st') =>
            (Ok out, State (world st') (<[k := out]> (_CACHE st')) (log st'))
        | (Raise e, st') => (Raise e, st')
        end
    end.

Definition transient_signals : list (list N) :=
  [u "429"; u "500"; u "502"; u "503"; u "504"; u "ServiceUnavailable"].

Definition is_transient (msg : str) : bool :=
  existsb (fun x => contains x msg) transient_signals.

(** [min(backoff_max, backoff_min * (2 ** (i-1)))] *)
Definition backoff (backoff_min backoff_max : Q) (i : nat) : Q :=
  let d := (backoff_min * inject_Z (2 ^ Z.of_nat (i - 1)))%Q in
  if Qle_bool backoff_max d then backoff_max else d.

(** The loop [for i in range(1, attempts+1)], with [n] iterations left.
    The result is [None] when the range is empty. *)
Fixpoint chat_retry_from (n i : nat) (messages : list (list N * list N))
    (model : str) (temperature : Q) (max_tokens : Z) (attempts : nat)
    (backoff_min backoff_max : Q) : M (option (list N)) :=
  match n with
  | O => ret None
  | S n' =>
      try_except
        (bind (call_chat messages model temperature max_tokens)
              (fun r => ret (Some r)))
        (fun e =>
           let msg := str_of_exn e in
           if is_transient msg && (i <? attempts)%nat then
             bind (emit (EvSleep (backoff backoff_min backoff_max i)))
                  (fun _ => chat_retry_from n' (S i) messages model temperature
                              max_tokens attempts backoff_min backoff_max)
           else raise e)
  end.

Definition chat_retry (messages : list (list N * list N)) (model : str)
    (temperature : Q) (max_tokens : Z) (attempts : nat)
    (backoff_min backoff_max : Q) : M (option (list N)) :=
  chat_retry_from attempts 1 messages model temperature max_tokens attempts
                  backoff_min backoff_max.

(** [chat_retry(...).strip()]; [None] has no [strip]. *)
Definition strip_reply (r : option (list N)) : M str :=
  match r with
  | Some s => ret (strip s)
  | None => raise (Exception (u "'NoneType' object has no attribute 'strip'"))
  end.

Definition bullet : N := 0x2022.
Definition html_system : list N :=
  u "You are a precise technical translator." ++ [newline] ++
  u "Translate Arabic to English." ++ [newline] ++
  u "RULES:" ++ [newline] ++
  [bullet] ++ u " Translate ONLY human-visible text. Preserve ALL HTML tags/attributes/order exactly." ++ [newline] ++
  [bullet] ++ u " Do NOT add, remove, or infer features/specs." ++ [newline] ++
  [bullet] ++ u " Keep numbers/units/measurements exactly." ++ [newline] ++
  [bullet] ++ u " Do NOT translate brand names or model codes; leave them verbatim." ++ [newline] ++
  [bullet] ++ u " Return ONLY the translated HTML string.".
Definition html_user (ar_html : str) : list N :=
  u "Task: Translate the inner text of this HTML snippet from Arabic to English." ++ [newline] ++
  u "Return only the translated HTML (same tags & attributes):" ++ [newline; newline] ++
  ar_html.
Definition text_system : list N :=
  u "Translate Arabic to English precisely. No additions. Keep numbers/units. Do not translate brands/models.".

Definition request_key (t model system user : str) : list (list N * list N) :=
  [(u "t", t); (u "m", model); (u "sys", system); (u "usr", user)].
Definition chat_messages (system user : str) : list (list N * list N) :=
  [(u "system", system); (u "user", user)].

Definition translate_html_in_place (ar_html model : str) : M str :=
  let system := html_system in
  let user := html_user ar_html in
  let key := request_key (u "translate_html") model system user in
  cached_call key
    (bind (chat_retry (chat_messages system user) model 0.0 2000 6 1.0 20.0)
          strip_reply).

Definition translate_text (ar_text model : str) (max_tokens : Z) : M str :=
  let system := text_system in
  let user := ar_text in
  let key := request_key (u "translate_text") model system user in
  cached_call key
    (bind (chat_retry (chat_messages system user) model 0.0 max_tokens 6 1.0 20.0)
          strip_reply).

(** *** Titles and the batch driver *)

Definition make_title_en (title_ar model : str) : M str :=
  let ar_txt := html_to_text title_ar in
  bind (translate_text ar_txt model 400) (fun en =>
  let en := sub c400_and_c200 c400_amp en in
  ret (take 150 (strip (collapse_ws en)))).

(** A product is a JSON object whose fields are strings or [null]. *)
Abbreviation product := (gmap (list N) (option (list N))) (only parsing).

(** [p.get(k)] read as a string: empty when the key is missing, null or
    empty, which is all a truth test or an [or] with the empty string sees. *)
Definition get_or_empty (p : product) (k : str) : str :=
  match p !! k with
  | Some (Some s) => s
  | _ => []
  end.
Definition nonempty (s : str) : bool :=
  match s with [] => false | _ => true end.
Definition get_truthy (p : product) (k : str) : bool := nonempty (get_or_empty p k).

Definition wrap_paragraph (plain : str) : str :=
  if nonempty plain then u "<p>" ++ plain ++ u "</p>" else [].

(** The body of the loop after the skip test. *)
Definition translate_product (p : product) (model : str)
    (strip_translate_no : bool) (brand_normalize : str) : M product :=
  let title_ar := get_or_empty p (u "title_ar") in
  let desc_ar := get_or_empty p (u "descriptionHtml_ar") in
  bind
    (if nonempty title_ar then
       try_except
         (bind (make_title_en title_ar model)
               (fun t => ret (<[u "title_en" := Some t]> p)))
         (fun _ => ret (<[u "title_en" := Some (html_to_text title_ar)]> p))
     else ret p)
    (fun p =>
       if nonempty desc_ar then
         let fallback :=
           bind (translate_text (html_to_text desc_ar) model 400)
                (fun plain => ret (wrap_paragraph plain)) in
         bind
           (try_except
              (bind (translate_html_in_place desc_ar model) (fun desc_en =>
                 if negb (nonempty desc_en) || negb (nonempty (strip desc_en))
                 then fallback else ret desc_en))
              (fun _ => fallback))
           (fun desc_en =>
              let desc_en :=
                postprocess_english_html desc_en true true
                  (str_eqb brand_normalize (u "en")) true strip_translate_no in
              ret (<[u "descriptionHtml_en" := Some desc_en]> p))
       else ret p).

Fixpoint process_products (products : list product) (model : str) (force : bool)
    (strip_translate_no : bool) (brand_normalize : str) : M (list product) :=
  match products with
  | [] => ret []
  | p :: rest =>
      bind
        (if get_truthy p (u "title_en") && get_truthy p (u "descriptionHtml_en")
            && negb force
         then ret p
         else translate_product p model strip_translate_no brand_normalize)
        (fun p' =>
           bind (process_products rest model force strip_translate_no brand_normalize)
                (fun out => ret (p' :: out)))
  end.

(** *** Runs of the engine, for stating its properties *)

(** The world after [n] chat calls with one request. *)
Fixpoint world_after (n : nat) (messages : list (list N * list N)) (model : str)
    (temperature : Q) (max_tokens : Z) (w : W) : W :=
  match n with
  | O => w
  | S n' =>
      world_after n' messages model temperature max_tokens
                  (fst (_chat w messages model temperature max_tokens))
  end.

(** What [n] failed attempts in a row, the first numbered [i], add to the
    log: each a call, followed by its back-off sleep unless it is the last. *)
Fixpoint failed_attempts_log (messages : list (list N * list N)) (model : str)
    (temperature : Q) (max_tokens : Z) (backoff_min backoff_max : Q)
    (n i : nat) : list event :=
  match n with
  | O => []
  | S O => [EvChat messages model temperature max_tokens]
  | S n' =>
      EvChat messages model temperature max_tokens
      :: EvSleep (backoff backoff_min backoff_max i)
      :: failed_attempts_log messages model temperature max_tokens
           backoff_min backoff_max n' (S i)
  end.

(** An invocation of one of the two translation calls. *)
Inductive invocation : Type :=
| TranslateText (ar_text model : list N) (max_tokens : Z)
| TranslateHtml (ar_html model : list N).

Definition invoke (c : invocation) : M str :=
  match c with
  | TranslateText ar_text model max_tokens => translate_text ar_text model max_tokens
  | TranslateHtml ar_html model => translate_html_in_place ar_html model
  end.

(** The state after a sequence of invocations, whatever each returned or
    raised (the batch driver catches their exceptions and goes on). *)
Definition after_invocations (l : list invocation) (st : state) : state :=
  fold_left (fun st c => snd (invoke c st)) l st.

(** Both target fields of a product are populated. *)
Definition already_translated (p : product) : bool :=
  get_truthy p (u "title_en") && get_truthy p (u "descriptionHtml_en").

End Engine.

Arguments State {W} _ _ _.
Arguments world {W} _.
Arguments _CACHE {W} _.
Arguments log {W} _.

End Translate.

(** ** The digest protocol ([scripts/register_translations.py]) *)

Module Register.
Import Py.

Definition gid_prefix : list N := u "gid://shopify/Product/".

Definition ensure_gid (product_id : str) : str :=
  if startswith product_id gid_prefix then product_id
  else gid_prefix ++ product_id.

(** A cell of an input row, as the loaders read it. *)
Inductive cell : Type :=
| CNone
| CBool (b : bool)
| CInt (z : Z)
| CFloat (q : Q)
| CStr (s : list N).

Definition str_of_Z (z : Z) : str := u (NilZero.string_of_int (Z.to_int z)).

(** One entry of [translatableContent]: the key ([None] when missing or
    null) and the digest (absent, null, or a string). *)
Record content_item : Type := ContentItem {
  ci_key : option (list N);
  ci_digest : option (option (list N))
}.

(** One entry of the register payload. *)
Record translation : Type := Translation {
  tr_key : list N;
  tr_value : list N;
  tr_locale : list N;
  translatableContentDigest : list N
}.

(** The reply of [translationsRegister]. *)
Record registered (E : Type) : Type := Registered {
  userErrors : list E;
  translations : list (list N * list N)
}.
Arguments Registered {E} _ _.
Arguments userErrors {E} _.
Arguments translations {E} _.

(** The lines [main] prints. *)
Inductive line : Type :=
| SkipMissingId (i : nat)                      (* [i] SKIP: missing id *)
| ProductLine (i : nat) (gid locale : list N)  (* [i] Product: gid -> locale *)
| Seeding (need_title need_desc : bool)        (* Missing digest(s) -> seeding ... *)
| FailNotReady                                 (* FAIL: digests not ready yet; ... *)
| FailBuild (msg : list N)                     (* FAIL (build): msg *)
| NothingToRegister                            (* Nothing to register (empty ...) *)
| FailRegister (msg : list N)                  (* FAIL (register): msg *)
| Stored (keys : list (list N * list N))       (* Stored: key@locale, ... *)
| VerifyRows (n : nat)                         (* Verify -> and one line per row *)
| VerifyEmpty                                  (* Verify -> (no rows). ... *)
| Done (ok fail : nat).                        (* Done. OK=ok FAIL=fail *)

Inductive event : Type :=
| EvFetch (gid : list N)
| EvUpdate (gid : list N) (base_title base_desc_html : option (list N))
| EvRegister (gid : list N) (payload : list translation)
| EvVerify (gid locale : list N)
| EvSleep (seconds : Q)
| EvPrint (l : line).

Section Protocol.
Context {W E V : Type}.
(** The catalogue service, one function per GraphQL document: the reply is
    what [gql] returns, or the exception it raises ([RuntimeError] for a
    GraphQL error list, another class for an HTTP failure). *)
Variable remote_digests : W -> list N -> W * res (list content_item).
Variable remote_update :
  W -> list N -> option (list N) -> option (list N) -> W * res (list E).
Variable remote_register : W -> list N -> list translation -> W * res (registered E).
Variable remote_verify : W -> list N -> list N -> W * res (list V).
(** Python's text for a list of user errors and for a fractional float. *)
Variable repr_errors : list E -> list N.
Variable repr_float : Q -> list N.

Definition normalize_cell (v : cell) : str :=
  match v with
  | CNone => []
  | CInt z => str_of_Z z
  | CFloat q =>
      if (Qden (Qred q) =? 1)%positive then str_of_Z (Qnum (Qred q))
      else repr_float q
  | CBool b => strip (if b then u "True" else u "False")
  | CStr s => strip s
  end.

Record state : Type := State {
  world : W;
  log : list event
}.

Definition M (A : Type) : Type := state -> res A * state.
Definition ret {A} (a : A) : M A := fun st => (Ok a, st).
Definition raise {A} (e : exn) : M A := fun st => (Raise e, st).
Definition bind {A B} (m : M A) (f : A -> M B) : M B :=
  fun st =>
    match m st with
    | (Ok a, st') => f a st'
    | (Raise e, st') => (Raise e, st')
    end.
Definition emit (e : event) : M unit :=
  fun st => (Ok tt, State (world st) (log st ++ [e])).
Definition print (l : line) : M unit := emit (EvPrint l).
Definition sleep (seconds : Q) : M unit := emit (EvSleep seconds).
(** A remote call: the request is logged, the world moves on. *)
Definition remote {A} (e : event) (f : W -> W * res A) : M A :=
  fun st => let (w', r) := f (world st) in (r, State w' (log st ++ [e])).

Abbreviation digests := (gmap (list N) (option (list N))) (only parsing).
Abbreviation row := (gmap (list N) cell) (only parsing).

(** [row.get(k)] *)
Definition row_get (r : row) (k : str) : cell :=
  match r !! k with Some v => v | None => CNone end.

Definition nonempty (s : str) : bool :=
  match s with [] => false | _ => true end.

(** The truth value of [digests.get(k)] and, when true, the digest. *)
Definition digest_of (d : digests) (k : str) : option (list N) :=
  match d !! k with
  | Some (Some s) => if nonempty s then Some s else None
  | _ => None
  end.
Definition has_digest (d : digests) (k : str) : bool :=
  match digest_of d k with Some _ => true | None => false end.

(** One step of the dict comprehension of [fetch_digests]: an item with a
    non-empty key sets that key to its digest, the empty string when the
    item has none. *)
Definition digest_entry (d : digests) (it : content_item) : digests :=
  match ci_key it with
  | Some k =>
      if nonempty k then
        <[k := match ci_digest it with Some v => v | None => Some [] end]> d
      else d
  | None => d
  end.

Definition digests_of (items : list content_item) : digests :=
  fold_left digest_entry items ∅.

Definition fetch_digests (product_gid : str) : M digests :=
  bind (remote (EvFetch product_gid) (fun w => remote_digests w product_gid))
       (fun items => ret (digests_of items)).

Definition verify_locale (product_gid locale : str) : M (list V) :=
  remote (EvVerify product_gid locale) (fun w => remote_verify w product_gid locale).

Definition update_primary (product_gid : str)
    (base_title base_desc_html : option (list N)) : M unit :=
  bind (remote (EvUpdate product_gid base_title base_desc_html)
               (fun w => remote_update w product_gid base_title base_desc_html))
       (fun errs =>
          match errs with
          | [] => ret tt
          | _ => raise (RuntimeError (u "productUpdate errors: " ++ repr_errors errs))
          end).

Definition missing_title_msg : list N :=
  u "Missing digest for 'title' (primary title empty or not indexed yet).".
Definition missing_body_msg : list N :=
  u "Missing digest for 'body_html' (primary description empty or not indexed yet).".

Definition build_translations (r : row) (locale : str) (d : digests)
    : res (list translation) :=
  let title_en := normalize_cell (row_get r (u "title_en")) in
  let desc_en := normalize_cell (row_get r (u "descriptionHtml_en")) in
  match
    (if nonempty title_en then
       match digest_of d (u "title") with
       | None => Raise (RuntimeError missing_title_msg)
       | Some dg => Ok [Translation (u "title") title_en locale dg]
       end
     else Ok [])
  with
  | Raise e => Raise e
  | Ok out =>
      if nonempty desc_en then
        match digest_of d (u "body_html") with
        | None => Raise (RuntimeError missing_body_msg)
        | Some dg => Ok (out ++ [Translation (u "body_html") desc_en locale dg])
        end
      else Ok out
  end.

Definition register (product_gid : str) (payload : list translation)
    : M (registered E) :=
  bind (remote (EvRegister product_gid payload)
               (fun w => remote_register w product_gid payload))
       (fun reg =>
          match userErrors reg with
          | [] => ret reg
          | errs =>
              raise (RuntimeError (u "translationsRegister errors: " ++ repr_errors errs))
          end).

(** *** The batch driver *)

(** The polling loop [for attempt in range(20)], with [n] rounds left:
    [Some digests] after [break], [None] when the loop runs out (the
    [else] branch). *)
Definition ready (need_title need_desc : bool) (d : digests) : bool :=
  (negb need_title || has_digest d (u "title"))
  && (negb need_desc || has_digest d (u "body_html")).

Fixpoint poll (n : nat) (gid : str) (need_title need_desc : bool)
    : M (option digests) :=
  match n with
  | O => ret None
  | S n' =>
      bind (sleep 0.7) (fun _ =>
      bind (fetch_digests gid) (fun d =>
      if ready need_title need_desc d then ret (Some d)
      else poll n' gid need_title need_desc))
  end.

(** How the loop body ends for one row: which counter it bumps. *)
Inductive tally : Type := CountOk | CountFail.

(** Steps 3 and 4 of the loop body: build, register, verify. *)
Definition commit (r : row) (gid locale : str) (d : digests) : M tally :=
  match build_translations r locale d with
  | Raise (RuntimeError msg) =>
      bind (print (FailBuild msg)) (fun _ => ret CountFail)
  | Raise e => raise e
  | Ok [] => bind (print NothingToRegister) (fun _ => ret CountOk)
  | Ok payload =>
      fun st =>
        match register gid payload st with
        | (Raise (RuntimeError msg), st') =>
            bind (print (FailRegister msg)) (fun _ => ret CountFail) st'
        | (Raise e, st') => (Raise e, st')
        | (Ok reg, st') =>
            bind (print (Stored (translations reg))) (fun _ =>
            bind (verify_locale gid locale) (fun out =>
            bind (print (match out with [] => VerifyEmpty | _ => VerifyRows (length out) end))
                 (fun _ => ret CountOk))) st'
        end
  end.

(** [need_title] and [need_desc]: the row sets the field and the digest of
    its key is missing. *)
Definition needs (r : row) (field : str) (d : digests) (key : str) : bool :=
  nonempty (normalize_cell (row_get r field)) && negb (has_digest d key).

(** The body of [for i, row in enumerate(jobs, 1)]. *)
Definition main_body (i : nat) (r : row) (locale : str) (ensure_base : bool)
    (base_title base_desc : str) : M tally :=
  let pid := normalize_cell (row_get r (u "id")) in
  if negb (nonempty pid) then
    bind (print (SkipMissingId i)) (fun _ => ret CountFail)
  else
    let gid := ensure_gid pid in
    bind (print (ProductLine i gid locale)) (fun _ =>
    bind (fetch_digests gid) (fun d =>
    let need_title := needs r (u "title_en") d (u "title") in
    let need_desc := needs r (u "descriptionHtml_en") d (u "body_html") in
    if (need_title || need_desc) && ensure_base then
      bind (print (Seeding need_title need_desc)) (fun _ =>
      bind (update_primary gid
              (if need_title then Some base_title else None)
              (if need_desc then Some base_desc else None)) (fun _ =>
      bind (poll 20 gid need_title need_desc) (fun polled =>
      match polled with
      | None => bind (print FailNotReady) (fun _ => ret CountFail)
      | Some d' => commit r gid locale d'
      end)))
    else commit r gid locale d)).

Fixpoint main_loop (i : nat) (jobs : list row) (locale : str) (ensure_base : bool)
    (base_title base_desc : str) (ok fail : nat) : M (nat * nat) :=
  match jobs with
  | [] => ret (ok, fail)
  | r :: rest =>
      bind (main_body i r locale ensure_base base_title base_desc) (fun t =>
      match t with
      | CountOk => main_loop (S i) rest locale ensure_base base_title base_desc (S ok) fail
      | CountFail => main_loop (S i) rest locale ensure_base base_title base_desc ok (S fail)
      end)
  end.

(** [main] once the arguments are parsed and the jobs loaded. *)
Definition main (jobs : list row) (locale : str) (ensure_base : bool)
    (base_title base_desc : str) : M (nat * nat) :=
  bind (main_loop 1 jobs locale ensure_base base_title base_desc 0 0) (fun c =>
  bind (print (Done (fst c) (snd c))) (fun _ => ret c)).

(** *** Digest gating, as a property of the log *)

(** A register request is gated when every entry of its payload carries a
    non-empty digest. *)
Definition gated (ev : event) : Prop :=
  match ev with
  | EvRegister _ payload =>
      Forall (fun t => nonempty (translatableContentDigest t) = true) payload
  | _ => True
  end.

(** A computation only adds gated events to the log. *)
Definition adds_gated {A} (m : M A) : Prop :=
  forall st, exists l, log (snd (m st)) = log st ++ l /\ Forall gated l.

(** The row sets a field whose digest is missing from [d]. *)
Definition lacks_digest (r : row) (d : digests) : bool :=
  needs r (u "title_en") d (u "title")
  || needs r (u "descriptionHtml_en") d (u "body_html").

(** One round of polling in the log. *)
Definition poll_round (gid : str) : list event := [EvSleep 0.7; EvFetch gid].

End Protocol.

Arguments State {W} _ _.
Arguments world {W} _.
Arguments log {W} _.

End Register.

(** ** The specification's wording, for comparison with the code *)

Module Spec.
Import Py Translate.

(** The normalisation steps in the order the specification lists them, each
    with its toggle: units, brands, phrasing, boilerplate removal, optional
    attribute strip. *)
Definition normalization_steps
    (drop_meta normalize_units normalize_brands fix_phrasing strip_translate_no : bool)
    : list (bool * (list N -> list N)) :=
  [ (normalize_units, normalize_units_symbols);
    (normalize_brands, normalize_brand_names);
    (fix_phrasing, normalize_phrasing);
    (drop_meta, drop_meta_lines);
    (strip_translate_no, strip_translate_no_attr) ].

(** A step is applied exactly when its toggle is set. *)
Definition apply_enabled (html : list N) (step : bool * (list N -> list N)) : list N :=
  if fst step then snd step html else html.

Definition normalization_pipeline
    (drop_meta normalize_units normalize_brands fix_phrasing strip_translate_no : bool)
    (html : list N) : list N :=
  trim_inter_tag
    (fold_left apply_enabled
       (normalization_steps drop_meta normalize_units normalize_brands
                            fix_phrasing strip_translate_no)
       html).

(** The ampersand join in the specification's words: wherever the text has
    the code C400, blanks, the word and, blanks and the code C200, as whole
    words, the stretch becomes C400 & C200. *)
Definition drop_prefix (p s : list N) : option (list N) :=
  if startswith s p then Some (drop (length p) s) else None.

Definition drop_blanks (s : list N) : option (list N) :=
  match s with
  | c :: s' => if isspace c then Some (lstrip s') else None
  | [] => None
  end.

(** The text after the two codes, when [s] starts with them. *)
Definition codes_at (s : list N) : option (list N) :=
  match drop_prefix (u "C400") s with
  | Some s1 =>
      match drop_blanks s1 with
      | Some s2 =>
          match drop_prefix (u "and") s2 with
          | Some s3 =>
              match drop_blanks s3 with
              | Some s4 =>
                  match drop_prefix (u "C200") s4 with
                  | Some s5 => if word_opt (head s5) then None else Some s5
                  | None => None
                  end
              | None => None
              end
          | None => None
          end
      | None => None
      end
  | None => None
  end.

(** [skip] counts the characters of the current stretch still to be dropped. *)
Fixpoint join_walk (prev : option N) (s : list N) (skip : nat) : list N :=
  match skip, s with
  | S k, c :: s' => join_walk (Some c) s' k
  | S _, [] => []
  | O, [] => []
  | O, c :: s' =>
      match (if word_opt prev then None else codes_at s) with
      | Some rest =>
          u "C400 & C200" ++ join_walk (Some c) s' (length s' - length rest)
      | None => c :: join_walk (Some c) s' 0
      end
  end.

Definition ampersand_join (en : list N) : list N := join_walk None en 0.
Definition title_limit : nat := 150.
Definition title_polish (en : list N) : list N :=
  take title_limit (strip (collapse_ws (ampersand_join en))).

End Spec.

(** ** Sample services, for concrete runs *)

Module Examples.
Import Py.

(** A toy fingerprint: the sum of the code points of the request. *)
Definition sum_key (key : list (list N * list N)) : list N :=
  [fold_left N.add (concat (map snd key)) 0%N].

(** The world of the chat samples is the number of calls made so far. *)
Definition echo_chat (w : nat) (messages : list (list N * list N))
    (model : list N) (temperature : Q) (max_tokens : Z) : nat * res (list N) :=
  (S w, Ok (match last messages with Some m => snd m | None => [] end)).

Definition overloaded_chat (w : nat) (messages : list (list N * list N))
    (model : list N) (temperature : Q) (max_tokens : Z) : nat * res (list N) :=
  (S w, Raise (Exception (u "Error code: 429 - rate limit reached"))).

Definition rejecting_chat (w : nat) (messages : list (list N * list N))
    (model : list N) (temperature : Q) (max_tokens : Z) : nat * res (list N) :=
  (S w, Raise (Exception (u "Incorrect API key provided"))).

Definition gpt : list N := u "gpt-4o-mini".

Definition fresh : @Translate.state nat := Translate.State 0%nat ∅ [].

(** A catalogue that never indexes anything: no digests, every write
    accepted.  The world counts the requests. *)
Definition never_indexed_digests (w : nat) (gid : list N)
    : nat * res (list Register.content_item) := (S w, Ok []).
Definition accept_update (w : nat) (gid : list N) (t d : option (list N))
    : nat * res (list unit) := (S w, Ok []).
Definition accept_register (w : nat) (gid : list N)
    (payload : list Register.translation) : nat * res (Register.registered unit) :=
  (S w, Ok (Register.Registered [] (map (fun t => (Register.tr_key t, Register.tr_locale t)) payload))).
Definition empty_verify (w : nat) (gid locale : list N) : nat * res (list unit) :=
  (S w, Ok []).
Definition no_repr_errors (errs : list unit) : list N := u "[...]".
Definition no_repr_float (q : Q) : list N := u "0.5".

(** A catalogue whose title is indexed and whose description is not
    (Scenario B of the specification, with the two keys swapped). *)
Definition title_only_digests (w : nat) (gid : list N)
    : nat * res (list Register.content_item) :=
  (S w, Ok [Register.ContentItem (Some (u "title")) (Some (Some (u "d1")));
            Register.ContentItem (Some (u "body_html")) (Some (Some []))]).

Definition start : @Register.state nat := Register.State 0%nat [].

Definition job (id title_en desc_en : list N) : gmap (list N) Register.cell :=
  <[u "id" := Register.CStr id]>
    (<[u "title_en" := Register.CStr title_en]>
       (<[u "descriptionHtml_en" := Register.CStr desc_en]> ∅)).

Definition dash : list N := [0x2014]%N.
Definition dash_paragraph : list N := u "<p>" ++ [0x2014]%N ++ u "</p>".

(** A product whose target fields are populated. *)
Definition translated_item : gmap (list N) (option (list N)) :=
  <[u "title_ar" := Some [0x647; 0x627; 0x62A; 0x641]%N]>
    (<[u "title_en" := Some (u "Phone")]>
       (<[u "descriptionHtml_en" := Some (u "<p>Phone</p>")]> ∅)).

End Examples.

(** ** Measures on the logs, for the properties of the batch drivers *)

Module RegisterMeasures.
Import Py Register.

Section Measures.
Context {W : Type}.

(** A computation adds to the log a list of events that satisfies [Q]. *)
Definition adds {A} (Q : list event -> Prop) (m : @M W A) : Prop :=
  forall st, exists l, log (snd (m st)) = log st ++ l /\ Q l.

Definition is_fetch (e : event) : bool :=
  match e with EvFetch _ => true | _ => false end.
Definition is_update (e : event) : bool :=
  match e with EvUpdate _ _ _ => true | _ => false end.
Definition is_register (e : event) : bool :=
  match e with EvRegister _ _ => true | _ => false end.
Definition is_verify (e : event) : bool :=
  match e with EvVerify _ _ => true | _ => false end.

Definition count (f : event -> bool) (l : list event) : nat :=
  length (filter (fun e => f e = true) l).

(** At most [f] fetches, [u] updates, [r] register requests and [v]
    verification reads. *)
Definition within (f u r v : nat) (l : list event) : Prop :=
  count is_fetch l <= f /\ count is_update l <= u
  /\ count is_register l <= r /\ count is_verify l <= v.

(** With seeding authorised a row may cost one placeholder write and
    twenty polling fetches on top of its first fetch. *)
Definition seeding_share (ensure_base : bool) : nat := if ensure_base then 1 else 0.

End Measures.

Section RowMeasures.
Variable repr_float : Q -> list N.

(** A placeholder write made for row [r]: it sets at least one field, and
    only fields the row gives a value for. *)
Definition seeds_for (r : gmap (list N) cell) (e : event) : Prop :=
  match e with
  | EvUpdate _ t d =>
      (t <> None \/ d <> None)
      /\ (t <> None ->
          nonempty (normalize_cell repr_float (row_get r (u "title_en"))) = true)
      /\ (d <> None ->
          nonempty (normalize_cell repr_float (row_get r (u "descriptionHtml_en"))) = true)
  | _ => True
  end.

(** A well-formed payload entry for row [r] and [locale]. *)
Definition entry_for (r : gmap (list N) cell) (locale : list N) (t : translation)
    : Prop :=
  tr_locale t = locale
  /\ nonempty (tr_value t) = true
  /\ nonempty (translatableContentDigest t) = true
  /\ ((tr_key t = u "title"
       /\ tr_value t = normalize_cell repr_float (row_get r (u "title_en")))
      \/ (tr_key t = u "body_html"
          /\ tr_value t = normalize_cell repr_float (row_get r (u "descriptionHtml_en")))).

End RowMeasures.

(** The digest the last item with key [k] gives, as the dict comprehension
    of [fetch_digests] keeps it. *)
Fixpoint last_digest (k : list N) (items : list content_item)
    : option (option (list N)) :=
  match items with
  | [] => None
  | it :: rest =>
      match last_digest k rest with
      | Some v => Some v
      | None =>
          match ci_key it with
          | Some k' =>
              if bool_decide (k' = k) && nonempty k then
                Some (match ci_digest it with Some v => v | None => Some [] end)
              else None
          | None => None
          end
      end
  end.

End RegisterMeasures.

Module TranslateMeasures.
Import Py Translate.

Definition is_chat (e : event) : bool :=
  match e with EvChat _ _ _ _ => true | _ => false end.
Definition is_sleep (e : event) : bool :=
  match e with EvSleep _ => true | _ => false end.

Definition count (f : event -> bool) (l : list event) : nat :=
  length (filter (fun e => f e = true) l).

(** Every sleep in the log lasts at most [cap] seconds. *)
Definition sleep_capped (cap : Q) (e : event) : Prop :=
  match e with
  | EvSleep q => (q <= cap)%Q
  | _ => True
  end.

(** Every value of the cache is free of leading and trailing blanks. *)
Definition all_stripped (cache : gmap (list N) (list N)) : Prop :=
  map_Forall (fun _ v => strip v = v) cache.

(** Two products agree on every field but the two target fields. *)
Definition same_but_targets (p p' : gmap (list N) (option (list N))) : Prop :=
  forall k, k <> u "title_en" -> k <> u "descriptionHtml_en" -> p' !! k = p !! k.

(** A product with no source text to translate. *)
Definition no_source (p : gmap (list N) (option (list N))) : bool :=
  negb (nonempty (get_or_empty p (u "title_ar")))
  && negb (nonempty (get_or_empty p (u "descriptionHtml_ar"))).





(** A postcondition on the value a computation returns. *)
Definition returns {W A} (P : A -> Prop) (m : @M W A) : Prop :=
  forall st a st', m st = (Ok a, st') -> P a.

End TranslateMeasures.

Module ReMeasures.
Import Py Translate.

(** Every match of [r] consumes a character of class [P]: a syntactic
    check on the pattern. *)
Fixpoint must (P : N -> bool) (r : re) : Prop :=
  match r with
  | Lit c => P c = true
  | LitI c => forall x, ieq c x = true -> P x = true
  | Cls p => forall x, p x = true -> P x = true
  | Cat a b => must P a \/ must P b
  | Alt a b => must P a /\ must P b
  | Grp _ a => must P a
  | Eps | WordB | Star _ _ => False
  end.

(** No character of [s] is in class [P]. *)
Definition lacks (P : N -> bool) (s : list N) : Prop :=
  Forall (fun x => P x = false) s.

Definition is_char (c : N) (x : N) : bool := (x =? c)%N.

(** The text has a [>] followed by at least one blank and then the opening
    of a closing tag, which is what the inter-tag rule rewrites. *)
Fixpoint has_gap (s : list N) : bool :=
  match s with
  | [] => false
  | c :: s' =>
      ((c =? 0x3E)%N && match gap s' with Some _ => true | None => false end)
      || has_gap s'
  end.

(** No two blanks in a row, and no blank other than the plain space. *)
Fixpoint single_spaced (s : list N) : bool :=
  match s with
  | [] => true
  | c :: s' =>
      (if isspace c then
         (c =? 0x20)%N && match s' with x :: _ => negb (isspace x) | [] => true end
       else true)
      && single_spaced s'
  end.

Definition visible (s : list N) : list N := filter (fun x => isspace x = false) s.


End ReMeasures.

(** ** More sample services and data *)

Module Samples.
Import Py.

(** Catalogues; the world counts the requests. *)
Definition failing_digests (w : nat) (gid : list N)
    : nat * res (list Register.content_item) :=
  (S w, Raise (RuntimeError (u "[{'message': 'Throttled'}]"))).

Definition both_digests (w : nat) (gid : list N)
    : nat * res (list Register.content_item) :=
  (S w, Ok [Register.ContentItem (Some (u "title")) (Some (Some (u "d0")));
            Register.ContentItem (Some (u "body_html")) (Some (Some (u "d1")))]).

(** The title digest shows up from the fourth request on. *)
Definition late_digests (w : nat) (gid : list N)
    : nat * res (list Register.content_item) :=
  (S w, Ok (if (w <? 3)%nat then []
            else [Register.ContentItem (Some (u "title")) (Some (Some (u "d0")))])).

Definition reject_update (w : nat) (gid : list N) (t d : option (list N))
    : nat * res (list unit) := (S w, Ok [tt]).

Definition reject_register (w : nat) (gid : list N)
    (payload : list Register.translation) : nat * res (Register.registered unit) :=
  (S w, Ok (Register.Registered [tt] [])).

Definition broken_register (w : nat) (gid : list N)
    (payload : list Register.translation) : nat * res (Register.registered unit) :=
  (S w, Raise (Exception (u "502 Server Error: Bad Gateway"))).

Definition failing_verify (w : nat) (gid locale : list N) : nat * res (list unit) :=
  (S w, Raise (Exception (u "Read timed out")) ).

Definition phone_job : gmap (list N) Register.cell :=
  Examples.job (u "1001") (u "Phone") (u "<p>Phone</p>").
Definition title_job : gmap (list N) Register.cell :=
  Examples.job (u "1001") (u "Phone") [].
Definition phone_gid : list N := u "gid://shopify/Product/1001".
Definition phone_payload : list Register.translation :=
  [ Register.Translation (u "title") (u "Phone") (u "en") (u "d0");
    Register.Translation (u "body_html") (u "<p>Phone</p>") (u "en") (u "d1") ].

(** A chat service that is overloaded for its first two calls and then
    echoes the user message. *)
Definition flaky_chat (w : nat) (messages : list (list N * list N))
    (model : list N) (temperature : Q) (max_tokens : Z) : nat * res (list N) :=
  if (w <? 2)%nat then (S w, Raise (Exception (u "Error code: 503 - overloaded")))
  else (S w, Ok (match last messages with Some m => snd m | None => [] end)).

Definition hello : list (list N * list N) := [(u "user", u "hello")].

Definition arabic_phone : list N := [0x647; 0x627; 0x62A; 0x641]%N.

Definition title_only_item : gmap (list N) (option (list N)) :=
  <[u "id" := Some (u "1001")]> (<[u "title_ar" := Some arabic_phone]> ∅).
Definition description_only_item : gmap (list N) (option (list N)) :=
  <[u "id" := Some (u "1002")]>
    (<[u "descriptionHtml_ar" := Some (u "<p>" ++ arabic_phone ++ u "</p>")]> ∅).
Definition full_item : gmap (list N) (option (list N)) :=
  <[u "id" := Some (u "1004")]>
    (<[u "title_ar" := Some arabic_phone]>
       (<[u "descriptionHtml_ar" := Some (u "<p>" ++ arabic_phone ++ u "</p>")]> ∅)).
Definition bare_item : gmap (list N) (option (list N)) :=
  <[u "id" := Some (u "1003")]> (<[u "title_ar" := None]> ∅).

End Samples.

(** * Properties *)

(** ** Strings *)

Module PyFacts.
Import Py.

Lemma startswith_app (p s : list N) : startswith (p ++ s) p = true.
Proof.
  induction p as [|c p IH]; simpl; [reflexivity|].
  rewrite N.eqb_refl. exact IH.
Qed.

Lemma startswith_spec (s p : list N) :
  startswith s p = true <-> exists t, s = p ++ t.
Proof.
  split.
  - revert s. induction p as [|c p IH]; intros s H; simpl in *.
    + exists s. reflexivity.
    + destruct s as [|x s]; [discriminate|].
      apply andb_prop in H as [Hx Hs]. apply N.eqb_eq in Hx. subst x.
      destruct (IH _ Hs) as [t ->]. exists t. reflexivity.
  - intros [t ->]. apply startswith_app.
Qed.


End PyFacts.

(** ** The inter-tag whitespace rule *)

Module TrimFacts.
Import Py Translate PyFacts.

Lemma close_tag_prev {R} (k : cont R) prev prev' s g :
  close_tag k prev s g = close_tag k prev' s g.
Proof. destruct s; reflexivity. Qed.

Lemma close_tag_space {R} (k : cont R) prev c s g :
  isspace c = true -> close_tag k prev (c :: s) g = None.
Proof.
  intros Hc. unfold close_tag. cbn [run].
  destruct (N.eqb_spec c 0x3C) as [->|_]; [discriminate Hc|reflexivity].
Qed.

Lemma star_space_close_tag {R} (k : cont R) (s : list N) :
  forall prev g,
    star true isspace (close_tag k) prev s g = close_tag k prev (lstrip s) g.
Proof.
  induction s as [|c s IH]; intros prev g; cbn [star lstrip]; [reflexivity|].
  destruct (isspace c) eqn:Hc; [|reflexivity].
  rewrite IH. rewrite (close_tag_space k prev c s g Hc).
  rewrite (close_tag_prev k (Some c) prev).
  destruct (close_tag k prev (lstrip s) g); reflexivity.
Qed.

Lemma lstrip_suffix (s : list N) : exists pre, s = pre ++ lstrip s.
Proof.
  induction s as [|c s [pre IH]]; cbn [lstrip].
  - exists []. reflexivity.
  - destruct (isspace c).
    + exists (c :: pre). cbn. rewrite <- IH. reflexivity.
    + exists []. reflexivity.
Qed.

Lemma gap_suffix (s s3 : list N) :
  gap s = Some s3 -> exists pre, s = pre ++ s3.
Proof.
  unfold gap. destruct s as [|c s1]; [discriminate|].
  destruct (isspace c); [|discriminate].
  destruct (lstrip_suffix s1) as [pre Hpre].
  destruct (lstrip s1) as [|a [|b s4]]; try discriminate.
  destruct ((a =? 0x3C)%N && (b =? 0x2F)%N); [|discriminate].
  intros [= <-]. exists (c :: pre ++ [a; b]).
  rewrite Hpre at 1. cbn. rewrite <- app_assoc. reflexivity.
Qed.

Lemma match_at_inter_tag (adv : bool) (prev : option N) (s : list N) :
  match_at inter_tag_re adv prev s
  = match s with
    | x :: s1 =>
        if (x =? 0x3E)%N then
          match gap s1 with
          | Some s3 => Some (S (length s1 - length s3), [])
          | None => None
          end
        else None
    | [] => None
    end.
Proof.
  destruct s as [|x s1]; [reflexivity|].
  unfold match_at, inter_tag_re, ws_plus, plus. cbn [cats foldr run].
  destruct (x =? 0x3E)%N; [|reflexivity].
  destruct s1 as [|c s2]; [reflexivity|].
  unfold gap. destruct (isspace c); [|reflexivity].
  match goal with
  | |- star true isspace ?k _ _ _ = _ => change k with (close_tag (R := nat * caps)
       (fun (_ : option N) (s' : list N) (g : caps) =>
          let n := length (x :: c :: s2) - length s' in
          if adv && (n =? 0) then None else Some (n, g)))
  end.
  rewrite star_space_close_tag.
  destruct (lstrip_suffix s2) as [pre Hpre].
  destruct (lstrip s2) as [|a [|b s3]] eqn:Hl.
  - reflexivity.
  - unfold close_tag. cbn [run]. destruct (a =? 0x3C)%N; reflexivity.
  - unfold close_tag. cbn [run].
    destruct (a =? 0x3C)%N; [|reflexivity].
    destruct (b =? 0x2F)%N; [|reflexivity].
    cbn [andb].
    assert (Hlen : length (x :: c :: s2) - length s3 = S (length (c :: s2) - length s3)).
    { rewrite Hpre. cbn [length]. rewrite !length_app. cbn [length]. lia. }
    cbv zeta. rewrite Hlen. cbn [Nat.eqb]. rewrite andb_false_r. reflexivity.
Qed.

Lemma sub_walk_inter_tag_prev (prev prev' : option N) (s : list N) (k : nat) :
  sub_walk inter_tag_re inter_tag_repl prev s k = sub_walk inter_tag_re inter_tag_repl prev' s k.
Proof.
  destruct k, s; cbn [sub_walk]; try reflexivity;
    rewrite (match_at_inter_tag false prev), (match_at_inter_tag false prev');
    try rewrite (match_at_inter_tag true prev), (match_at_inter_tag true prev');
    reflexivity.
Qed.

Lemma sub_walk_inter_tag_skip (pre s : list N) :
  forall prev,
    sub_walk inter_tag_re inter_tag_repl prev (pre ++ s) (length pre)
    = sub_walk inter_tag_re inter_tag_repl None s 0.
Proof.
  induction pre as [|c pre IH]; intros prev.
  - apply sub_walk_inter_tag_prev.
  - cbn [app length sub_walk]. apply IH.
Qed.

Lemma trim_nil : trim_inter_tag [] = [].
Proof. reflexivity. Qed.

Lemma trim_cons_other (x : N) (s : list N) :
  (x =? 0x3E)%N = false -> trim_inter_tag (x :: s) = x :: trim_inter_tag s.
Proof.
  intros Hx. unfold trim_inter_tag, sub. cbn [sub_walk].
  rewrite match_at_inter_tag, Hx.
  rewrite (sub_walk_inter_tag_prev (Some x) None). reflexivity.
Qed.

Lemma trim_cons_gt (s : list N) :
  trim_inter_tag (0x3E%N :: s)
  = match gap s with
    | Some s3 => u "></" ++ trim_inter_tag s3
    | None => 0x3E%N :: trim_inter_tag s
    end.
Proof.
  unfold trim_inter_tag, sub. cbn [sub_walk].
  rewrite match_at_inter_tag. cbn [N.eqb Pos.eqb].
  destruct (gap s) as [s3|] eqn:Hg.
  - destruct (gap_suffix _ _ Hg) as [pre Hpre].
    assert (Hk : length s - length s3 = length pre).
    { rewrite Hpre, length_app. lia. }
    rewrite Hk. rewrite Hpre at 1. rewrite sub_walk_inter_tag_skip. reflexivity.
  - rewrite (sub_walk_inter_tag_prev (Some 0x3E%N) None). reflexivity.
Qed.

Lemma trim_head (c : N) (s : list N) : exists s', trim_inter_tag (c :: s) = c :: s'.
Proof.
  destruct (c =? 0x3E)%N eqn:Hc.
  - apply N.eqb_eq in Hc. subst c. rewrite trim_cons_gt.
    destruct (gap s); eexists; reflexivity.
  - rewrite (trim_cons_other _ _ Hc). eexists. reflexivity.
Qed.

Lemma space_not_gt (c : N) : isspace c = true -> (c =? 0x3E)%N = false.
Proof.
  intros Hc. destruct (N.eqb_spec c 0x3E) as [->|_]; [discriminate Hc|reflexivity].
Qed.

Lemma lstrip_trim (s : list N) :
  lstrip (trim_inter_tag s) = trim_inter_tag (lstrip s).
Proof.
  induction s as [|c s IH]; [reflexivity|].
  cbn [lstrip]. destruct (isspace c) eqn:Hc.
  - rewrite (trim_cons_other _ _ (space_not_gt _ Hc)). cbn [lstrip]. rewrite Hc. exact IH.
  - destruct (trim_head c s) as [s' Hs']. rewrite Hs'. cbn [lstrip]. rewrite Hc.
    reflexivity.
Qed.

Lemma gap_trim (s : list N) :
  gap (trim_inter_tag s) = option_map trim_inter_tag (gap s).
Proof.
  destruct s as [|c s1]; [reflexivity|].
  cbn [gap]. destruct (isspace c) eqn:Hc.
  - rewrite (trim_cons_other _ _ (space_not_gt _ Hc)). cbn [gap]. rewrite Hc.
    rewrite lstrip_trim.
    destruct (lstrip s1) as [|a [|b s3]].
    + reflexivity.
    + destruct (trim_head a []) as [s' Hs']. 
      destruct (a =? 0x3E)%N eqn:Ha.
      * apply N.eqb_eq in Ha. subst a. rewrite trim_cons_gt. reflexivity.
      * rewrite (trim_cons_other _ _ Ha). reflexivity.
    + destruct (a =? 0x3C)%N eqn:Ha.
      * apply N.eqb_eq in Ha. subst a.
        rewrite trim_cons_other by reflexivity.
        destruct (b =? 0x2F)%N eqn:Hb.
        -- apply N.eqb_eq in Hb. subst b.
           rewrite trim_cons_other by reflexivity. reflexivity.
        -- destruct (trim_head b s3) as [s' Hs']. rewrite Hs'.
           cbn [N.eqb Pos.eqb andb]. rewrite Hb. reflexivity.
      * destruct (trim_head a (b :: s3)) as [s' Hs']. rewrite Hs'.
        destruct s' as [|b' s'']; rewrite ?Ha; reflexivity.
  - destruct (trim_head c s1) as [s' Hs']. rewrite Hs'. cbn [gap]. rewrite Hc.
    reflexivity.
Qed.




End TrimFacts.

(** ** Product identifiers *)

Module RegisterIds.
Import Py Register PyFacts.

(** C10: [ensure_gid] is a canonicalising projection: its result always
    starts with the product prefix, a string that already starts with the
    prefix is returned as it is, and applying it twice is applying it once. *)
Theorem C10_ensure_gid_projection (s : list N) :
  startswith (ensure_gid s) gid_prefix = true
  /\ (startswith s gid_prefix = true -> ensure_gid s = s)
  /\ ensure_gid (ensure_gid s) = ensure_gid s.
Proof.
  assert (Hpre : startswith (ensure_gid s) gid_prefix = true).
  { unfold ensure_gid. destruct (startswith s gid_prefix) eqn:Hs.
    - exact Hs.
    - apply startswith_app. }
  split; [exact Hpre|]. split.
  - intros Hs. unfold ensure_gid. rewrite Hs. reflexivity.
  - unfold ensure_gid at 1. rewrite Hpre. reflexivity.
Qed.

Lemma C10_ensure_gid_projection_witness :
  startswith (u "gid://shopify/Product/8923") gid_prefix = true
  /\ ensure_gid (u "gid://shopify/Product/8923") = u "gid://shopify/Product/8923"
  /\ ensure_gid (u "8923") = u "gid://shopify/Product/8923".
Proof.
  split; [reflexivity|]. split.
  - apply (proj1 (proj2 (C10_ensure_gid_projection (u "gid://shopify/Product/8923")))).
    reflexivity.
  - reflexivity.
Defined.

End RegisterIds.

(** ** The ampersand join *)

Module JoinFacts.
Import Py Translate PyFacts ReMeasures Spec.





Lemma startswith_split (s p : list N) :
  startswith s p = true -> s = p ++ drop (length p) s.
Proof.
  intros H. apply startswith_spec in H as [t ->].
  rewrite drop_app_length. reflexivity.
Qed.




Lemma join_walk_prev (p1 p2 : option N) (s : list N) (k : nat) :
  word_opt p1 = word_opt p2 -> join_walk p1 s k = join_walk p2 s k.
Proof.
  intros H. destruct k, s; cbn [join_walk]; try reflexivity. rewrite H. reflexivity.
Qed.



End JoinFacts.

(** ** The clean-up pipeline and the title helper *)

Module TranslateText.
Import Py Translate Spec PyFacts.

(** C7: [postprocess_english_html] is the composition of its enabled steps
    in the fixed order units, brands, phrasing, boilerplate removal,
    attribute strip, followed by the inter-tag whitespace trim; a step whose
    flag is off leaves the string as it is. *)
Theorem C7_postprocess_is_ordered_composition
    (html : list N)
    (drop_meta normalize_units normalize_brands fix_phrasing strip_translate_no : bool) :
  postprocess_english_html html drop_meta normalize_units normalize_brands
                           fix_phrasing strip_translate_no
  = normalization_pipeline drop_meta normalize_units normalize_brands
                           fix_phrasing strip_translate_no html.
Proof.
  unfold postprocess_english_html, normalization_pipeline, normalization_steps.
  cbn [fold_left apply_enabled fst snd]. reflexivity.
Qed.

(** The order is not incidental: boilerplate removal before the phrasing
    fix-up would give another result on this input. *)
Example order_matters :
  let html := u "C400 and<p>Product name in Arabic: x</p> C200" in
  normalize_phrasing (drop_meta_lines html) <> drop_meta_lines (normalize_phrasing html).
Proof. vm_compute. discriminate. Qed.


(** Two more inputs on which a second pass still changes the text: a
    removal that joins the two model codes, and the attribute strip. *)
Example second_pass_changes_text :
  (let once := postprocess_english_html
                 (u "C400 and<p>Product name in Arabic:x</p> C200")
                 true true true true false in
   once = u "C400 and C200"
   /\ postprocess_english_html once true true true true false = u "C400 & C200")
  /\ (let html := u "translate translate=" ++ [dquote] ++ u "no" ++ [dquote]
                  ++ u "=" ++ [dquote] ++ u "no" ++ [dquote] in
      let once := postprocess_english_html html false false false false true in
      once = u "translate=" ++ [dquote] ++ u "no" ++ [dquote]
      /\ postprocess_english_html once false false false false true = []).
Proof. vm_compute. split; split; reflexivity. Qed.


Section Title.
Context {W : Type}.
Variable _chat :
  W -> list (list N * list N) -> list N -> Q -> Z -> W * res (list N).
Variable _sha_key : list (list N * list N) -> list N.


End Title.


(** The join needs whole words and the exact spelling: a letter before the
    first code, of any script, or a lower-case code leaves the text as it
    is, and blanks of any kind between the words are accepted. *)
Example join_needs_whole_words :
  ampersand_join (u "C400" ++ [0x09; 0xA0]%N ++ u "and  C200.") = u "C400 & C200."
  /\ ampersand_join ([0xE01]%N ++ u "C400 and C200") = [0xE01]%N ++ u "C400 and C200"
  /\ ampersand_join (u "C400 and C200s") = u "C400 and C200s"
  /\ ampersand_join (u "c400 and c200") = u "c400 and c200"
  /\ sub c400_and_c200 c400_amp ([0xE01]%N ++ u "C400 and C200")
     = [0xE01]%N ++ u "C400 and C200".
Proof. vm_compute. repeat split; reflexivity. Qed.

(** Scenario A of the specification: the brand label and the degree
    phrase are put in their canonical form, the paragraph tags stay. *)
Example scenario_A_units_and_brand :
  postprocess_english_html
    (u "<p>Brand: " ++ [0x634; 0x627; 0x648; 0x645; 0x64A]%N ++ u " 360 degrees</p>")
    true true true true false
  = u "<p>Brand: Xiaomi 360" ++ [degree_sign] ++ u "</p>".
Proof. vm_compute. reflexivity. Qed.

(** The title pipeline runs none of the other rules: a reply the unit rules
    would rewrite is kept as it is. *)
Example title_keeps_units :
  title_polish (u "Camera 360 degrees 78mm") = u "Camera 360 degrees 78mm"
  /\ normalize_units_symbols (u "Camera 360 degrees 78mm")
     = u "Camera 360" ++ [degree_sign] ++ u " 78 mm".
Proof. vm_compute. split; reflexivity. Qed.

End TranslateText.

(** ** Retry and cache *)

Module TranslateEngine.
Import Py Translate PyFacts TranslateMeasures.

Section Retry.
Context {W : Type}.
Variable _chat :
  W -> list (list N * list N) -> list N -> Q -> Z -> W * res (list N).
Variable messages : list (list N * list N).
Variable model : list N.
Variable temperature : Q.
Variable max_tokens : Z.
Variable attempts : nat.
Variable backoff_min backoff_max : Q.

Let after (n : nat) (w : W) : W :=
  world_after _chat n messages model temperature max_tokens w.
Let retry_log (n i : nat) : list event :=
  failed_attempts_log messages model temperature max_tokens backoff_min backoff_max n i.

Hypothesis always_transient :
  forall w, exists e,
    snd (_chat w messages model temperature max_tokens) = Raise e
    /\ is_transient (str_of_exn e) = true.

Lemma chat_retry_from_exhausts (n : nat) :
  forall i st, i + n = attempts ->
    exists e,
      snd (_chat (after n (world st)) messages model temperature max_tokens) = Raise e
      /\ chat_retry_from _chat (S n) i messages model temperature max_tokens
                         attempts backoff_min backoff_max st
         = (Raise e,
            State (after (S n) (world st)) (_CACHE st) (log st ++ retry_log (S n) i)).
Proof using always_transient.
  induction n as [|n IH]; intros i st Hi.
  - destruct (always_transient (world st)) as [e [He Ht]].
    exists e. split; [exact He|].
    cbn [chat_retry_from]. unfold try_except, bind, call_chat, ret, raise.
    unfold after, retry_log. cbn [world_after failed_attempts_log].
    destruct (_chat (world st) messages model temperature max_tokens) as [w' out].
    cbn in He. subst out. rewrite Ht.
    replace (i <? attempts)%nat with false by (symmetry; apply Nat.ltb_ge; lia).
    reflexivity.
  - destruct (always_transient (world st)) as [e [He Ht]].
    set (st1 := State (fst (_chat (world st) messages model temperature max_tokens))
                      (_CACHE st)
                      ((log st ++ [EvChat messages model temperature max_tokens])
                       ++ [EvSleep (backoff backoff_min backoff_max i)])).
    destruct (IH (S i) st1 ltac:(lia)) as [e' [He' Hrun]].
    exists e'. split; [exact He'|].
    change (chat_retry_from _chat (S (S n)) i messages model temperature max_tokens
              attempts backoff_min backoff_max st)
      with (try_except
              (bind (call_chat _chat messages model temperature max_tokens)
                    (fun r => ret (Some r)))
              (fun e =>
                 if is_transient (str_of_exn e) && (i <? attempts)%nat then
                   bind (emit (EvSleep (backoff backoff_min backoff_max i)))
                        (fun _ => chat_retry_from _chat (S n) (S i) messages model
                                    temperature max_tokens attempts backoff_min backoff_max)
                 else raise e) st).
    unfold try_except, bind at 1, call_chat, ret.
    destruct (_chat (world st) messages model temperature max_tokens) as [w' out] eqn:Hc.
    cbn in He. subst out. rewrite Ht.
    replace (i <? attempts)%nat with true by (symmetry; apply Nat.ltb_lt; lia).
    cbn [andb]. unfold bind, emit. cbn [world _CACHE log].
    subst st1. cbn [fst] in Hrun. rewrite Hrun. cbn [world _CACHE log].
    unfold after, retry_log.
    change (failed_attempts_log messages model temperature max_tokens
              backoff_min backoff_max (S (S n)) i)
      with (EvChat messages model temperature max_tokens
            :: EvSleep (backoff backoff_min backoff_max i)
            :: failed_attempts_log messages model temperature max_tokens
                 backoff_min backoff_max (S n) (S i)).
    cbn [world_after]. rewrite Hc. cbn [fst].
    f_equal. f_equal. rewrite <- !app_assoc. reflexivity.
Qed.

End Retry.

Section RetryBound.
Context {W : Type}.
Variable _chat :
  W -> list (list N * list N) -> list N -> Q -> Z -> W * res (list N).

Lemma chat_retry_stops_at_once (messages : list (list N * list N)) (model : list N)
    (temperature : Q) (max_tokens : Z) (n : nat) (backoff_min backoff_max : Q)
    (st : state) (w' : W) (e : exn) :
  _chat (world st) messages model temperature max_tokens = (w', Raise e) ->
  is_transient (str_of_exn e) = false ->
  chat_retry _chat messages model temperature max_tokens (S n) backoff_min backoff_max st
  = (Raise e,
     State w' (_CACHE st) (log st ++ [EvChat messages model temperature max_tokens])).
Proof.
  intros Hc Ht. unfold chat_retry. cbn [chat_retry_from].
  unfold try_except, bind, call_chat, ret, raise.
  rewrite Hc, Ht. reflexivity.
Qed.

(** C3: with the default ceiling of six attempts, a chat call that always
    fails with a transient signal is attempted exactly six times, with the
    five back-off sleeps in between, and the error of the sixth call is
    raised; a call whose first error carries no transient signal is
    attempted once, and that error is raised with no sleep. *)
Theorem C3_chat_retry_attempts (messages : list (list N * list N)) (model : list N)
    (temperature : Q) (max_tokens : Z) (st : state) :
  ((forall w, exists e,
       snd (_chat w messages model temperature max_tokens) = Raise e
       /\ is_transient (str_of_exn e) = true) ->
   exists e,
     snd (_chat (world_after _chat 5 messages model temperature max_tokens (world st))
                messages model temperature max_tokens) = Raise e
     /\ chat_retry _chat messages model temperature max_tokens 6 1.0 20.0 st
        = (Raise e,
           State (world_after _chat 6 messages model temperature max_tokens (world st))
                 (_CACHE st)
                 (log st ++
                  [ EvChat messages model temperature max_tokens; EvSleep 1.0;
                    EvChat messages model temperature max_tokens; EvSleep 2.0;
                    EvChat messages model temperature max_tokens; EvSleep 4.0;
                    EvChat messages model temperature max_tokens; EvSleep 8.0;
                    EvChat messages model temperature max_tokens; EvSleep 16.0;
                    EvChat messages model temperature max_tokens ])))
  /\ (forall w' e,
        _chat (world st) messages model temperature max_tokens = (w', Raise e) ->
        is_transient (str_of_exn e) = false ->
        chat_retry _chat messages model temperature max_tokens 6 1.0 20.0 st
        = (Raise e,
           State w' (_CACHE st)
                 (log st ++ [EvChat messages model temperature max_tokens]))).
Proof.
  split.
  - intros Hall.
    destruct (chat_retry_from_exhausts _chat messages model temperature max_tokens
                6 1.0 20.0 Hall 5 1 st eq_refl) as [e [He Hrun]].
    exists e. split; [exact He|]. exact Hrun.
  - intros w' e Hc Ht. apply chat_retry_stops_at_once; assumption.
Qed.

End RetryBound.

Lemma C3_chat_retry_attempts_witness :
  chat_retry Examples.overloaded_chat [(u "user", u "hello")] Examples.gpt 0.0 400
             6 1.0 20.0 Examples.fresh
  = (Raise (Exception (u "Error code: 429 - rate limit reached")),
     State 6%nat ∅
       [ EvChat [(u "user", u "hello")] Examples.gpt 0.0 400; EvSleep 1.0;
         EvChat [(u "user", u "hello")] Examples.gpt 0.0 400; EvSleep 2.0;
         EvChat [(u "user", u "hello")] Examples.gpt 0.0 400; EvSleep 4.0;
         EvChat [(u "user", u "hello")] Examples.gpt 0.0 400; EvSleep 8.0;
         EvChat [(u "user", u "hello")] Examples.gpt 0.0 400; EvSleep 16.0;
         EvChat [(u "user", u "hello")] Examples.gpt 0.0 400 ])
  /\ chat_retry Examples.rejecting_chat [(u "user", u "hello")] Examples.gpt 0.0 400
                6 1.0 20.0 Examples.fresh
     = (Raise (Exception (u "Incorrect API key provided")),
        State 1%nat ∅ [EvChat [(u "user", u "hello")] Examples.gpt 0.0 400]).
Proof.
  split.
  - destruct (proj1 (C3_chat_retry_attempts Examples.overloaded_chat
                       [(u "user", u "hello")] Examples.gpt 0.0 400 Examples.fresh))
      as [e [He Hrun]].
    + intros w. exists (Exception (u "Error code: 429 - rate limit reached")).
      split; reflexivity.
    + injection He as <-. exact Hrun.
  - apply (proj2 (C3_chat_retry_attempts Examples.rejecting_chat
                    [(u "user", u "hello")] Examples.gpt 0.0 400 Examples.fresh)
                 1%nat (Exception (u "Incorrect API key provided"))).
    + reflexivity.
    + reflexivity.
Defined.


Section Cache.
Context {W : Type}.
Variable _chat :
  W -> list (list N * list N) -> list N -> Q -> Z -> W * res (list N).
Variable _sha_key : list (list N * list N) -> list N.

Lemma chat_retry_from_keeps_cache (n : nat) :
  forall i messages model temperature max_tokens attempts backoff_min backoff_max
         (st st' : @state W) r,
    chat_retry_from _chat n i messages model temperature max_tokens attempts
                    backoff_min backoff_max st = (r, st') ->
    _CACHE st' = _CACHE st.
Proof.
  induction n as [|n IH]; intros i messages model temperature max_tokens attempts
    backoff_min backoff_max st st' r H.
  - cbn in H. unfold ret in H. injection H as _ <-. reflexivity.
  - cbn [chat_retry_from] in H.
    unfold try_except, bind at 1, call_chat, ret in H.
    destruct (_chat (world st) messages model temperature max_tokens) as [w' [out|e]].
    + injection H as _ <-. reflexivity.
    + destruct (is_transient (str_of_exn e) && (i <? attempts)%nat).
      * unfold bind, emit in H. apply IH in H. exact H.
      * unfold raise in H. injection H as _ <-. reflexivity.
Qed.

(** The remote part of both translation calls leaves the cache alone. *)
Lemma remote_part_keeps_cache messages model temperature max_tokens
    (st st' : @state W) r :
  bind (chat_retry _chat messages model temperature max_tokens 6 1.0 20.0)
       strip_reply st = (r, st') ->
  _CACHE st' = _CACHE st.
Proof.
  unfold bind, chat_retry. intros H.
  destruct (chat_retry_from _ _ _ _ _ _ _ _ _ _ st) as [[o|e] st1] eqn:Hr.
  - apply chat_retry_from_keeps_cache in Hr.
    destruct o as [x|]; cbn in H; unfold ret, raise in H; injection H as _ <-; exact Hr.
  - apply chat_retry_from_keeps_cache in Hr. injection H as _ <-. exact Hr.
Qed.


Lemma cached_call_grows key (fn : M str) (st st' : @state W) r :
  (forall s s' x, fn s = (x, s') -> _CACHE s' = _CACHE s) ->
  cached_call _sha_key key fn st = (r, st') ->
  _CACHE st ⊆ _CACHE st'.
Proof.
  intros Hfn H. unfold cached_call in H.
  destruct (_CACHE st !! _sha_key key) as [v|] eqn:Hk.
  - injection H as _ <-. reflexivity.
  - destruct (fn st) as [[out|e] st1] eqn:Hrun; apply Hfn in Hrun.
    + injection H as _ <-. cbn. rewrite Hrun. apply insert_subseteq. exact Hk.
    + injection H as _ <-. rewrite Hrun. reflexivity.
Qed.


Lemma invoke_grows (c : invocation) (st : @state W) :
  _CACHE st ⊆ _CACHE (snd (invoke _chat _sha_key c st)).
Proof.
  destruct c as [src model max_tokens|src model]; cbn [invoke];
    unfold translate_text, translate_html_in_place;
    match goal with
    | |- context [cached_call _ ?k ?f st] =>
        destruct (cached_call _sha_key k f st) as [r st'] eqn:H
    end;
    (eapply cached_call_grows; [|exact H]);
    intros s s' x Hx; eapply remote_part_keeps_cache; exact Hx.
Qed.

Lemma after_invocations_grows (l : list invocation) :
  forall st : @state W, _CACHE st ⊆ _CACHE (after_invocations _chat _sha_key l st).
Proof.
  induction l as [|c l IH]; intros st; cbn.
  - reflexivity.
  - etransitivity; [apply (invoke_grows c)|apply IH].
Qed.








End Cache.


End TranslateEngine.

(** ** The batch driver of the translation engine *)

Module TranslateBatch.
Import Py Translate TranslateMeasures TranslateEngine.

Section Skip.
Context {W : Type}.
Variable _chat :
  W -> list (list N * list N) -> list N -> Q -> Z -> W * res (list N).
Variable _sha_key : list (list N * list N) -> list N.
















End Skip.


(** With the force flag the same product is sent to the chat service again
    and its title is overwritten. *)
Example force_translates_again :
  let run := process_products Examples.echo_chat Examples.sum_key
               [Examples.translated_item] Examples.gpt true false (u "en")
               Examples.fresh in
  length (log (snd run)) = 1
  /\ world (snd run) = 1
  /\ match fst run with
     | Ok [p'] => get_or_empty p' (u "title_en") = [0x647; 0x627; 0x62A; 0x641]%N
     | _ => False
     end.
Proof. vm_compute. split; [reflexivity|split; reflexivity]. Qed.

End TranslateBatch.

(** ** The digest protocol *)

Module RegisterProtocol.
Import Py Register PyFacts.

Section Gating.
Context {W E V : Type}.
Variable remote_digests : W -> list N -> W * res (list content_item).
Variable remote_update :
  W -> list N -> option (list N) -> option (list N) -> W * res (list E).
Variable remote_register : W -> list N -> list translation -> W * res (registered E).
Variable remote_verify : W -> list N -> list N -> W * res (list V).
Variable repr_errors : list E -> list N.
Variable repr_float : Q -> list N.

Lemma adds_gated_ret {A} (a : A) : adds_gated (@ret W A a).
Proof. intros st. exists []. rewrite app_nil_r. split; [reflexivity|constructor]. Qed.

Lemma adds_gated_raise {A} (e : exn) : adds_gated (@raise W A e).
Proof. intros st. exists []. rewrite app_nil_r. split; [reflexivity|constructor]. Qed.

Lemma adds_gated_bind {A B} (m : @M W A) (f : A -> @M W B) :
  adds_gated m -> (forall a, adds_gated (f a)) -> adds_gated (bind m f).
Proof.
  intros Hm Hf st. unfold bind. destruct (Hm st) as [l [Hl Hg]].
  destruct (m st) as [[a|e] st1]; cbn [snd] in *.
  - destruct (Hf a st1) as [l' [Hl' Hg']]. exists (l ++ l'). split.
    + rewrite Hl', Hl, app_assoc. reflexivity.
    + apply Forall_app. split; assumption.
  - exists l. split; assumption.
Qed.

Lemma adds_gated_emit (ev : event) : gated ev -> adds_gated (@emit W ev).
Proof.
  intros Hev st. exists [ev]. split; [reflexivity|].
  constructor; [exact Hev|constructor].
Qed.

Lemma adds_gated_remote {A} (ev : event) (f : W -> W * res A) :
  gated ev -> adds_gated (remote ev f).
Proof.
  intros Hev st. exists [ev]. unfold remote.
  destruct (f (world st)) as [w' r]. split; [reflexivity|].
  constructor; [exact Hev|constructor].
Qed.

Lemma adds_gated_fetch (gid : list N) : adds_gated (fetch_digests remote_digests gid).
Proof.
  unfold fetch_digests. apply adds_gated_bind.
  - apply adds_gated_remote. exact I.
  - intros items. apply adds_gated_ret.
Qed.

Lemma adds_gated_poll (n : nat) (gid : list N) (nt nd : bool) :
  adds_gated (poll remote_digests n gid nt nd).
Proof.
  induction n as [|n IH]; cbn [poll].
  - apply adds_gated_ret.
  - apply adds_gated_bind; [apply adds_gated_emit; exact I|]. intros _.
    apply adds_gated_bind; [apply adds_gated_fetch|]. intros d.
    destruct (ready nt nd d); [apply adds_gated_ret|exact IH].
Qed.

Lemma digest_of_nonempty (d : gmap (list N) (option (list N))) (k dg : list N) :
  digest_of d k = Some dg -> nonempty dg = true.
Proof.
  unfold digest_of. destruct (d !! k) as [[s|]|]; try discriminate.
  destruct (nonempty s) eqn:Hs; [|discriminate].
  intros [= <-]. exact Hs.
Qed.

(** Every entry [build_translations] returns carries a non-empty digest. *)
Lemma build_translations_gated (r : gmap (list N) cell) (locale : list N)
    (d : gmap (list N) (option (list N))) (payload : list translation) :
  build_translations repr_float r locale d = Ok payload ->
  Forall (fun t => nonempty (translatableContentDigest t) = true) payload.
Proof.
  unfold build_translations.
  destruct (nonempty (normalize_cell repr_float (row_get r (u "title_en")))).
  - destruct (digest_of d (u "title")) as [dg|] eqn:Ht; [|discriminate].
    apply digest_of_nonempty in Ht.
    destruct (nonempty (normalize_cell repr_float (row_get r (u "descriptionHtml_en")))).
    + destruct (digest_of d (u "body_html")) as [dg'|] eqn:Hb; [|discriminate].
      apply digest_of_nonempty in Hb. intros [= <-].
      repeat constructor; assumption.
    + intros [= <-]. repeat constructor; assumption.
  - destruct (nonempty (normalize_cell repr_float (row_get r (u "descriptionHtml_en")))).
    + destruct (digest_of d (u "body_html")) as [dg'|] eqn:Hb; [|discriminate].
      apply digest_of_nonempty in Hb. intros [= <-].
      repeat constructor; assumption.
    + intros [= <-]. constructor.
Qed.

Lemma adds_gated_commit (r : gmap (list N) cell) (gid locale : list N)
    (d : gmap (list N) (option (list N))) :
  adds_gated (commit remote_register remote_verify repr_errors repr_float r gid locale d).
Proof.
  unfold commit.
  destruct (build_translations repr_float r locale d) as [payload|e] eqn:Hb.
  - apply build_translations_gated in Hb.
    destruct payload as [|t payload].
    + apply adds_gated_bind; [apply adds_gated_emit; exact I|].
      intros _. apply adds_gated_ret.
    + set (p := t :: payload) in *. clearbody p.
      assert (Hreg : adds_gated (register remote_register repr_errors gid p)).
      { unfold register. apply adds_gated_bind.
        - apply adds_gated_remote. exact Hb.
        - intros reg. destruct (userErrors reg);
            [apply adds_gated_ret|apply adds_gated_raise]. }
      intros st. destruct (Hreg st) as [l [Hl Hg]].
      destruct (register remote_register repr_errors gid p st) as [[reg|e] st1];
        cbn [snd] in Hl.
      * assert (Hk : adds_gated
                  (bind (print (Stored (translations reg))) (fun _ =>
                   bind (verify_locale remote_verify gid locale) (fun out =>
                   bind (print (match out with
                                | [] => VerifyEmpty
                                | _ => VerifyRows (length out)
                                end))
                        (fun _ => @ret W _ CountOk))))).
        { apply adds_gated_bind; [apply adds_gated_emit; exact I|]. intros _.
          apply adds_gated_bind; [apply adds_gated_remote; exact I|]. intros out.
          apply adds_gated_bind; [apply adds_gated_emit; exact I|]. intros _.
          apply adds_gated_ret. }
        destruct (Hk st1) as [l' [Hl' Hg']].
        exists (l ++ l'). split.
        -- rewrite Hl', Hl, app_assoc. reflexivity.
        -- apply Forall_app. split; assumption.
      * destruct e as [msg|msg].
        -- assert (Hk : adds_gated
                     (bind (print (FailRegister msg)) (fun _ => @ret W _ CountFail))).
           { apply adds_gated_bind; [apply adds_gated_emit; exact I|]. intros _.
             apply adds_gated_ret. }
           destruct (Hk st1) as [l' [Hl' Hg']].
           exists (l ++ l'). split.
           ++ rewrite Hl', Hl, app_assoc. reflexivity.
           ++ apply Forall_app. split; assumption.
        -- exists l. split; assumption.
  - destruct e as [msg|msg].
    + apply adds_gated_bind; [apply adds_gated_emit; exact I|].
      intros _. apply adds_gated_ret.
    + apply adds_gated_raise.
Qed.

Lemma adds_gated_main_body (i : nat) (r : gmap (list N) cell) (locale : list N)
    (ensure_base : bool) (base_title base_desc : list N) :
  adds_gated (main_body remote_digests remote_update remote_register remote_verify
                        repr_errors repr_float i r locale ensure_base
                        base_title base_desc).
Proof.
  unfold main_body.
  destruct (negb (nonempty (normalize_cell repr_float (row_get r (u "id"))))).
  - apply adds_gated_bind; [apply adds_gated_emit; exact I|].
    intros _. apply adds_gated_ret.
  - apply adds_gated_bind; [apply adds_gated_emit; exact I|]. intros _.
    apply adds_gated_bind; [apply adds_gated_fetch|]. intros d.
    destruct ((needs repr_float r (u "title_en") d (u "title")
               || needs repr_float r (u "descriptionHtml_en") d (u "body_html"))
              && ensure_base).
    + apply adds_gated_bind; [apply adds_gated_emit; exact I|]. intros _.
      apply adds_gated_bind.
      { unfold update_primary. apply adds_gated_bind.
        - apply adds_gated_remote. exact I.
        - intros errs. destruct errs; [apply adds_gated_ret|apply adds_gated_raise]. }
      intros _. apply adds_gated_bind; [apply adds_gated_poll|].
      intros [d'|].
      * apply adds_gated_commit.
      * apply adds_gated_bind; [apply adds_gated_emit; exact I|].
        intros _. apply adds_gated_ret.
    + apply adds_gated_commit.
Qed.

Lemma adds_gated_main_loop (jobs : list (gmap (list N) cell)) :
  forall i locale ensure_base base_title base_desc ok fail,
    adds_gated (main_loop remote_digests remote_update remote_register remote_verify
                          repr_errors repr_float i jobs locale ensure_base
                          base_title base_desc ok fail).
Proof.
  induction jobs as [|r rest IH]; intros; cbn [main_loop].
  - apply adds_gated_ret.
  - apply adds_gated_bind; [apply adds_gated_main_body|].
    intros [|]; apply IH.
Qed.

(** When a field is set and its digest is missing, payload construction
    raises and the row is counted as failed without any request. *)
Lemma commit_fails_on_missing_digest (r : gmap (list N) cell) (gid locale : list N)
    (d : gmap (list N) (option (list N))) :
  lacks_digest repr_float r d = true ->
  exists msg,
    build_translations repr_float r locale d = Raise (RuntimeError msg)
    /\ forall st : @state W,
         commit remote_register remote_verify repr_errors repr_float r gid locale d st
         = (Ok CountFail, State (world st) (log st ++ [EvPrint (FailBuild msg)])).
Proof.
  unfold lacks_digest, needs, has_digest. intros H.
  assert (Hb : exists msg, build_translations repr_float r locale d
                           = Raise (RuntimeError msg)).
  { unfold build_translations.
    destruct (nonempty (normalize_cell repr_float (row_get r (u "title_en")))),
             (digest_of d (u "title")),
             (nonempty (normalize_cell repr_float (row_get r (u "descriptionHtml_en")))),
             (digest_of d (u "body_html"));
      cbn [negb andb orb] in H; try discriminate H; eexists; reflexivity. }
  destruct Hb as [msg Hb]. exists msg. split; [exact Hb|].
  intros st. unfold commit. rewrite Hb. reflexivity.
Qed.

Lemma main_loop_cons (i : nat) (r : gmap (list N) cell)
    (rest : list (gmap (list N) cell)) (locale : list N) (ensure_base : bool)
    (base_title base_desc : list N) (ok fail : nat) (st st' : @state W) (t : tally) :
  main_body remote_digests remote_update remote_register remote_verify
            repr_errors repr_float i r locale ensure_base base_title base_desc st
  = (Ok t, st') ->
  main_loop remote_digests remote_update remote_register remote_verify
            repr_errors repr_float i (r :: rest) locale ensure_base
            base_title base_desc ok fail st
  = match t with
    | CountOk =>
        main_loop remote_digests remote_update remote_register remote_verify
                  repr_errors repr_float (S i) rest locale ensure_base
                  base_title base_desc (S ok) fail st'
    | CountFail =>
        main_loop remote_digests remote_update remote_register remote_verify
                  repr_errors repr_float (S i) rest locale ensure_base
                  base_title base_desc ok (S fail) st'
    end.
Proof.
  intros H. cbn [main_loop]. unfold bind at 1. rewrite H.
  destruct t; reflexivity.
Qed.

(** C1: no register request ever carries an entry with an empty or absent
    digest, whatever the catalogue answers and whatever the rows hold.  When
    a row sets a title (or a description) and the digest map handed to
    payload construction has no non-empty digest for it, construction raises
    [RuntimeError], the row is counted as failed, nothing is sent, and the
    loop goes on with the next row. *)
Theorem C1_register_is_digest_gated
    (jobs rest : list (gmap (list N) cell)) (r : gmap (list N) cell)
    (d : gmap (list N) (option (list N)))
    (i ok fail : nat) (gid locale base_title base_desc : list N) (ensure_base : bool)
    (st : @state W) :
  (exists l,
      log (snd (main remote_digests remote_update remote_register remote_verify
                     repr_errors repr_float jobs locale ensure_base
                     base_title base_desc st))
      = log st ++ l
      /\ Forall gated l)
  /\ (lacks_digest repr_float r d = true ->
      exists msg,
        build_translations repr_float r locale d = Raise (RuntimeError msg)
        /\ commit remote_register remote_verify repr_errors repr_float r gid locale d st
           = (Ok CountFail, State (world st) (log st ++ [EvPrint (FailBuild msg)])))
  /\ (forall w' items,
        let pid := normalize_cell repr_float (row_get r (u "id")) in
        nonempty pid = true ->
        remote_digests (world st) (ensure_gid pid) = (w', Ok items) ->
        lacks_digest repr_float r (digests_of items) = true ->
        exists msg,
          main_loop remote_digests remote_update remote_register remote_verify
                    repr_errors repr_float i (r :: rest) locale false
                    base_title base_desc ok fail st
          = main_loop remote_digests remote_update remote_register remote_verify
                      repr_errors repr_float (S i) rest locale false
                      base_title base_desc ok (S fail)
                      (State w' (log st ++ [ EvPrint (ProductLine i (ensure_gid pid) locale);
                                             EvFetch (ensure_gid pid);
                                             EvPrint (FailBuild msg) ]))).
Proof.
  split; [|split].
  - unfold main. apply adds_gated_bind.
    + apply adds_gated_main_loop.
    + intros c. apply adds_gated_bind; [apply adds_gated_emit; exact I|].
      intros _. apply adds_gated_ret.
  - intros H.
    destruct (commit_fails_on_missing_digest r gid locale d H) as [msg [Hb Hc]].
    exists msg. split; [exact Hb|apply Hc].
  - intros w' items pid Hpid Hfetch Hlack.
    destruct (commit_fails_on_missing_digest r (ensure_gid pid) locale
                (digests_of items) Hlack) as [msg [_ Hc]].
    exists msg.
    erewrite main_loop_cons with (t := CountFail); [reflexivity|].
    unfold main_body. fold pid. rewrite Hpid. cbn [negb].
    unfold bind at 1, print at 1, emit at 1. unfold bind at 1.
    unfold fetch_digests, bind at 1, remote. cbn [world log].
    rewrite Hfetch. unfold ret at 1. rewrite andb_false_r.
    rewrite Hc. cbn [world log]. rewrite <- !app_assoc. reflexivity.
Qed.

(** C2 (as the code has it): a row without an identifier is reported,
    counted in the failure tally, and costs no request; a row with an
    identifier and neither title nor description is reported as having
    nothing to register and counted in the success tally, after the one
    digest fetch that precedes the test (given that this fetch returns).  In
    both cases the loop goes on with the next row and nothing is retried. *)
Theorem C2_validation_outcomes (r : gmap (list N) cell)
    (rest : list (gmap (list N) cell)) (i ok fail : nat)
    (locale base_title base_desc : list N) (ensure_base : bool) (st : @state W) :
  let pid := normalize_cell repr_float (row_get r (u "id")) in
  (nonempty pid = false ->
   main_loop remote_digests remote_update remote_register remote_verify
             repr_errors repr_float i (r :: rest) locale ensure_base
             base_title base_desc ok fail st
   = main_loop remote_digests remote_update remote_register remote_verify
               repr_errors repr_float (S i) rest locale ensure_base
               base_title base_desc ok (S fail)
               (State (world st) (log st ++ [EvPrint (SkipMissingId i)])))
  /\ (forall w' items,
        nonempty pid = true ->
        nonempty (normalize_cell repr_float (row_get r (u "title_en"))) = false ->
        nonempty (normalize_cell repr_float (row_get r (u "descriptionHtml_en"))) = false ->
        remote_digests (world st) (ensure_gid pid) = (w', Ok items) ->
        main_loop remote_digests remote_update remote_register remote_verify
                  repr_errors repr_float i (r :: rest) locale ensure_base
                  base_title base_desc ok fail st
        = main_loop remote_digests remote_update remote_register remote_verify
                    repr_errors repr_float (S i) rest locale ensure_base
                    base_title base_desc (S ok) fail
                    (State w' (log st ++ [ EvPrint (ProductLine i (ensure_gid pid) locale);
                                           EvFetch (ensure_gid pid);
                                           EvPrint NothingToRegister ]))).
Proof.
  intros pid. split.
  - intros Hpid.
    erewrite main_loop_cons with (t := CountFail); [reflexivity|].
    unfold main_body. fold pid. rewrite Hpid. reflexivity.
  - intros w' items Hpid Ht Hd Hfetch.
    erewrite main_loop_cons with (t := CountOk); [reflexivity|].
    unfold main_body. fold pid. rewrite Hpid. cbn [negb].
    unfold bind at 1, print at 1, emit at 1. unfold bind at 1.
    unfold fetch_digests, bind at 1, remote. cbn [world log].
    rewrite Hfetch. unfold ret at 1.
    unfold needs. rewrite Ht, Hd. cbn [andb orb].
    unfold commit, build_translations. rewrite Ht, Hd.
    unfold bind, print, emit, ret. cbn [world log].
    rewrite <- !app_assoc. reflexivity.
Qed.

Section Polling.
Variable gid : list N.
Variable need_title need_desc : bool.

(** Whatever the catalogue answers, polling makes at most [n] rounds, each
    a sleep of 0.7 s followed by one fetch. *)
Lemma poll_rounds_bounded (n : nat) :
  forall st : @state W,
    exists k, k <= n
      /\ log (snd (poll remote_digests n gid need_title need_desc st))
         = log st ++ concat (repeat (poll_round gid) k).
Proof.
  induction n as [|n IH]; intros st.
  - exists 0. split; [lia|]. cbn. rewrite app_nil_r. reflexivity.
  - cbn [poll]. unfold bind at 1, sleep, emit. unfold bind at 1.
    unfold fetch_digests, bind at 1, remote. cbn [world log].
    destruct (remote_digests (world st) gid) as [w' [items|e]].
    + unfold ret at 1. destruct (ready need_title need_desc (digests_of items)).
      * exists 1. split; [lia|]. cbn. rewrite <- !app_assoc. reflexivity.
      * destruct (IH (State w' ((log st ++ [EvSleep 0.7]) ++ [EvFetch gid])))
          as [k [Hk Hl]].
        exists (S k). split; [lia|]. rewrite Hl. cbn [log repeat concat poll_round].
        rewrite <- !app_assoc. reflexivity.
    + exists 1. split; [lia|]. cbn. rewrite <- !app_assoc. reflexivity.
Qed.

Hypothesis never_ready :
  forall w, exists w' items,
    remote_digests w gid = (w', Ok items)
    /\ ready need_title need_desc (digests_of items) = false.

Lemma poll_runs_out (n : nat) :
  forall st : @state W,
    exists w',
      poll remote_digests n gid need_title need_desc st
      = (Ok None, State w' (log st ++ concat (repeat (poll_round gid) n))).
Proof using never_ready.
  induction n as [|n IH]; intros st.
  - exists (world st). cbn. rewrite app_nil_r. destruct st; reflexivity.
  - cbn [poll]. unfold bind at 1, sleep, emit. unfold bind at 1.
    unfold fetch_digests, bind at 1, remote. cbn [world log].
    destruct (never_ready (world st)) as [w1 [items [Hf Hr]]].
    rewrite Hf. unfold ret at 1. rewrite Hr.
    destruct (IH (State w1 ((log st ++ [EvSleep 0.7]) ++ [EvFetch gid]))) as [w' Hp].
    exists w'. rewrite Hp. cbn [log repeat concat poll_round].
    rewrite <- !app_assoc. reflexivity.
Qed.

End Polling.

(** C6: with seeding authorised, when the first fetch shows a required
    digest missing, the placeholder write is accepted and every later fetch
    still lacks a required digest, the loop body sleeps 0.7 s and fetches
    exactly twenty times, reports that the digests are not ready, counts
    the row as failed and goes on with the next row: no exception leaves
    the loop body.  In general polling never makes more than twenty
    rounds. *)
Theorem C6_polling_exhaustion (r : gmap (list N) cell)
    (rest : list (gmap (list N) cell)) (i ok fail : nat)
    (locale base_title base_desc : list N) (st : @state W)
    (w1 w2 : W) (items : list content_item) :
  let pid := normalize_cell repr_float (row_get r (u "id")) in
  let gid := ensure_gid pid in
  let need_title := needs repr_float r (u "title_en") (digests_of items) (u "title") in
  let need_desc :=
    needs repr_float r (u "descriptionHtml_en") (digests_of items) (u "body_html") in
  (nonempty pid = true ->
   remote_digests (world st) gid = (w1, Ok items) ->
   need_title || need_desc = true ->
   remote_update w1 gid (if need_title then Some base_title else None)
                        (if need_desc then Some base_desc else None) = (w2, Ok []) ->
   (forall w, exists w' items',
       remote_digests w gid = (w', Ok items')
       /\ ready need_title need_desc (digests_of items') = false) ->
   exists w',
     main_loop remote_digests remote_update remote_register remote_verify
               repr_errors repr_float i (r :: rest) locale true
               base_title base_desc ok fail st
     = main_loop remote_digests remote_update remote_register remote_verify
                 repr_errors repr_float (S i) rest locale true
                 base_title base_desc ok (S fail)
                 (State w'
                    (log st ++
                     [ EvPrint (ProductLine i gid locale);
                       EvFetch gid;
                       EvPrint (Seeding need_title need_desc);
                       EvUpdate gid (if need_title then Some base_title else None)
                                    (if need_desc then Some base_desc else None) ]
                     ++ concat (repeat (poll_round gid) 20)
                     ++ [EvPrint FailNotReady])))
  /\ (forall (g : list N) (nt nd : bool) (s : @state W),
        exists k, k <= 20
          /\ log (snd (poll remote_digests 20 g nt nd s))
             = log s ++ concat (repeat (poll_round g) k)).
Proof.
  intros pid gid need_title need_desc. split.
  - intros Hpid Hfetch Hneed Hupd Hnever.
    set (st3 := State w2
                  (log st ++ [ EvPrint (ProductLine i gid locale); EvFetch gid;
                               EvPrint (Seeding need_title need_desc);
                               EvUpdate gid (if need_title then Some base_title else None)
                                            (if need_desc then Some base_desc else None) ])).
    destruct (poll_runs_out gid need_title need_desc Hnever 20 st3) as [w' Hpoll].
    exists w'.
    erewrite main_loop_cons with (t := CountFail); [reflexivity|].
    unfold main_body. fold pid. rewrite Hpid. cbn [negb]. fold gid.
    unfold bind at 1, print at 1, emit at 1. unfold bind at 1.
    unfold fetch_digests, bind at 1, remote. cbn [world log].
    rewrite Hfetch. unfold ret at 1.
    fold need_title need_desc. rewrite Hneed. cbn [andb].
    unfold bind at 1, print at 1, emit at 1. unfold bind at 1.
    unfold update_primary, bind at 1, remote. cbn [world log].
    rewrite Hupd. unfold ret at 1. unfold bind at 1.
    replace (State w2 _) with st3
      by (unfold st3; rewrite <- !app_assoc; reflexivity).
    rewrite Hpoll. unfold bind, print, emit, ret. cbn [world log].
    unfold st3. cbn [log]. rewrite <- !app_assoc. reflexivity.
  - intros g nt nd s. apply poll_rounds_bounded.
Qed.

End Gating.

(** *** Concrete runs *)

Lemma C1_register_is_digest_gated_witness :
  lacks_digest Examples.no_repr_float (Examples.job (u "1001") (u "Phone") [])
               (digests_of []) = true
  /\ exists msg,
       main_loop Examples.never_indexed_digests Examples.accept_update
                 Examples.accept_register Examples.empty_verify
                 Examples.no_repr_errors Examples.no_repr_float
                 1 [Examples.job (u "1001") (u "Phone") []] (u "en") false
                 Examples.dash Examples.dash_paragraph 0 0 Examples.start
       = (Ok (0, 1)%nat,
          State 1%nat
            [ EvPrint (ProductLine 1 (u "gid://shopify/Product/1001") (u "en"));
              EvFetch (u "gid://shopify/Product/1001");
              EvPrint (FailBuild msg) ]).
Proof.
  assert (H : lacks_digest Examples.no_repr_float
                (Examples.job (u "1001") (u "Phone") []) (digests_of []) = true)
    by (vm_compute; reflexivity).
  split; [exact H|].
  destruct (proj2 (proj2 (C1_register_is_digest_gated
              Examples.never_indexed_digests Examples.accept_update
              Examples.accept_register Examples.empty_verify
              Examples.no_repr_errors Examples.no_repr_float
              [] [] (Examples.job (u "1001") (u "Phone") []) ∅
              1 0 0 [] (u "en") Examples.dash Examples.dash_paragraph false
              Examples.start))
            1%nat [] eq_refl eq_refl H) as [msg Hrun].
  exists msg. exact Hrun.
Defined.

(** Scenario B of the specification: with digests
    [{title: empty, body_html: d1}] a job that sets only the description
    gets a payload with the one entry, and no error. *)
Example scenario_B_title_not_required :
  build_translations Examples.no_repr_float
    (Examples.job (u "1001") [] (u "<p>Desc EN</p>")) (u "en")
    (digests_of [ContentItem (Some (u "title")) (Some (Some []));
                 ContentItem (Some (u "body_html")) (Some (Some (u "d1")))])
  = Ok [Translation (u "body_html") (u "<p>Desc EN</p>") (u "en") (u "d1")].
Proof. vm_compute. reflexivity. Qed.

(** A full successful run: both digests present, one register request with
    both entries, then the verification read. *)
Example run_registers_both_fields :
  let both (w : nat) (gid : list N) : nat * res (list content_item) :=
    (S w, Ok [ContentItem (Some (u "title")) (Some (Some (u "d0")));
              ContentItem (Some (u "body_html")) (Some (Some (u "d1")))]) in
  main both Examples.accept_update Examples.accept_register Examples.empty_verify
       Examples.no_repr_errors Examples.no_repr_float
       [Examples.job (u "1001") (u "Phone") (u "<p>Phone</p>")] (u "en") false
       Examples.dash Examples.dash_paragraph Examples.start
  = (Ok (1, 0)%nat,
     State 3%nat
       [ EvPrint (ProductLine 1 (u "gid://shopify/Product/1001") (u "en"));
         EvFetch (u "gid://shopify/Product/1001");
         EvRegister (u "gid://shopify/Product/1001")
           [ Translation (u "title") (u "Phone") (u "en") (u "d0");
             Translation (u "body_html") (u "<p>Phone</p>") (u "en") (u "d1") ];
         EvPrint (Stored [(u "title", u "en"); (u "body_html", u "en")]);
         EvVerify (u "gid://shopify/Product/1001") (u "en");
         EvPrint VerifyEmpty;
         EvPrint (Done 1 0) ]).
Proof. vm_compute. reflexivity. Qed.

(** C2 as stated fails for the empty job: with an identifier and no target value it
    ends in the success tally, not in the failure tally. *)
Lemma C2_empty_job_counted_ok :
  let outcome :=
    fst (main Examples.never_indexed_digests Examples.accept_update
              Examples.accept_register Examples.empty_verify
              Examples.no_repr_errors Examples.no_repr_float
              [Examples.job (u "1001") [] []] (u "en") false
              Examples.dash Examples.dash_paragraph Examples.start) in
  outcome = Ok (1, 0)%nat /\ outcome <> Ok (0, 1)%nat.
Proof.
  intros outcome.
  assert (H : outcome = Ok (1, 0)%nat) by (vm_compute; reflexivity).
  split; [exact H|]. rewrite H. discriminate.
Qed.

Lemma C2_validation_outcomes_witness :
  main_loop Examples.never_indexed_digests Examples.accept_update
            Examples.accept_register Examples.empty_verify
            Examples.no_repr_errors Examples.no_repr_float
            1 [Examples.job [] (u "Phone") []] (u "en") false
            Examples.dash Examples.dash_paragraph 0 0 Examples.start
  = (Ok (0, 1)%nat, State 0%nat [EvPrint (SkipMissingId 1)])
  /\ main_loop Examples.never_indexed_digests Examples.accept_update
               Examples.accept_register Examples.empty_verify
               Examples.no_repr_errors Examples.no_repr_float
               1 [Examples.job (u "1001") [] []] (u "en") false
               Examples.dash Examples.dash_paragraph 0 0 Examples.start
     = (Ok (1, 0)%nat,
        State 1%nat
          [ EvPrint (ProductLine 1 (u "gid://shopify/Product/1001") (u "en"));
            EvFetch (u "gid://shopify/Product/1001");
            EvPrint NothingToRegister ]).
Proof.
  split.
  - apply (proj1 (C2_validation_outcomes
                    Examples.never_indexed_digests Examples.accept_update
                    Examples.accept_register Examples.empty_verify
                    Examples.no_repr_errors Examples.no_repr_float
                    (Examples.job [] (u "Phone") []) [] 1 0 0 (u "en")
                    Examples.dash Examples.dash_paragraph false Examples.start)).
    reflexivity.
  - apply (proj2 (C2_validation_outcomes
                    Examples.never_indexed_digests Examples.accept_update
                    Examples.accept_register Examples.empty_verify
                    Examples.no_repr_errors Examples.no_repr_float
                    (Examples.job (u "1001") [] []) [] 1 0 0 (u "en")
                    Examples.dash Examples.dash_paragraph false Examples.start)
                 1%nat []); reflexivity.
Defined.

Lemma C6_polling_exhaustion_witness :
  exists w',
    main_loop Examples.never_indexed_digests Examples.accept_update
              Examples.accept_register Examples.empty_verify
              Examples.no_repr_errors Examples.no_repr_float
              1 [Examples.job (u "1001") (u "Phone") []] (u "en") true
              Examples.dash Examples.dash_paragraph 0 0 Examples.start
    = (Ok (0, 1)%nat,
       State w'
         ([ EvPrint (ProductLine 1 (u "gid://shopify/Product/1001") (u "en"));
            EvFetch (u "gid://shopify/Product/1001");
            EvPrint (Seeding true false);
            EvUpdate (u "gid://shopify/Product/1001") (Some Examples.dash) None ]
          ++ concat (repeat (poll_round (u "gid://shopify/Product/1001")) 20)
          ++ [EvPrint FailNotReady])).
Proof.
  destruct (proj1 (C6_polling_exhaustion
                     Examples.never_indexed_digests Examples.accept_update
                     Examples.accept_register Examples.empty_verify
                     Examples.no_repr_errors Examples.no_repr_float
                     (Examples.job (u "1001") (u "Phone") []) [] 1 0 0 (u "en")
                     Examples.dash Examples.dash_paragraph Examples.start
                     1%nat 2%nat [])
                  eq_refl eq_refl eq_refl eq_refl
                  (fun w => ex_intro _ (S w) (ex_intro _ [] (conj eq_refl eq_refl))))
    as [w' Hrun].
  exists w'. exact Hrun.
Defined.

End RegisterProtocol.

(** ** More on strings *)

Module StripFacts.
Import Py PyFacts.

Lemma lstrip_head (s t : list N) (c : N) : lstrip s = c :: t -> isspace c = false.
Proof.
  induction s as [|x s IH]; cbn [lstrip]; [discriminate|].
  destruct (isspace x) eqn:Hx; [exact IH|].
  intros [= <- _]. exact Hx.
Qed.

Lemma lstrip_id (c : N) (s : list N) : isspace c = false -> lstrip (c :: s) = c :: s.
Proof. intros Hc. cbn [lstrip]. rewrite Hc. reflexivity. Qed.

Lemma lstrip_idempotent (s : list N) : lstrip (lstrip s) = lstrip s.
Proof.
  destruct (lstrip s) as [|c t] eqn:Hs; [reflexivity|].
  apply lstrip_id. eapply lstrip_head. exact Hs.
Qed.

Lemma lstrip_split (s : list N) :
  exists ws, s = ws ++ lstrip s /\ forallb isspace ws = true.
Proof.
  induction s as [|c s [ws [Hs Hws]]]; cbn [lstrip].
  - exists []. split; reflexivity.
  - destruct (isspace c) eqn:Hc.
    + exists (c :: ws). cbn. rewrite Hc, Hws, <- Hs. split; reflexivity.
    + exists []. split; reflexivity.
Qed.

Lemma rstrip_split (s : list N) :
  exists ws, s = rstrip s ++ ws /\ forallb isspace ws = true.
Proof.
  unfold rstrip. destruct (lstrip_split (rev s)) as [ws [Hs Hws]].
  exists (rev ws). split.
  - rewrite <- rev_app_distr, <- Hs, rev_involutive. reflexivity.
  - rewrite forallb_forall in *. intros x Hx. apply Hws. apply in_rev. exact Hx.
Qed.

Lemma rstrip_idempotent (s : list N) : rstrip (rstrip s) = rstrip s.
Proof. unfold rstrip. rewrite rev_involutive, lstrip_idempotent. reflexivity. Qed.

Lemma lstrip_rstrip_lstrip (s : list N) :
  lstrip (rstrip (lstrip s)) = rstrip (lstrip s).
Proof.
  destruct (rstrip_split (lstrip s)) as [ws [Hs _]].
  destruct (rstrip (lstrip s)) as [|c t] eqn:Hr; [reflexivity|].
  apply lstrip_id. cbn [app] in Hs. eapply lstrip_head. exact Hs.
Qed.

Lemma strip_idempotent (s : list N) : strip (strip s) = strip s.
Proof.
  unfold strip. rewrite lstrip_rstrip_lstrip. apply rstrip_idempotent.
Qed.

(** A stripped string neither starts nor ends with a blank. *)
Lemma strip_ends (s : list N) :
  match strip s with
  | [] => True
  | c :: _ => isspace c = false
  end
  /\ match rev (strip s) with
     | [] => True
     | c :: _ => isspace c = false
     end.
Proof.
  split.
  - pose proof (lstrip_rstrip_lstrip s) as H. fold (strip s) in H.
    destruct (strip s) as [|c t]; [exact I|]. eapply lstrip_head. exact H.
  - unfold strip, rstrip. rewrite rev_involutive.
    destruct (lstrip (rev (lstrip s))) as [|c t] eqn:H; [exact I|].
    eapply lstrip_head. exact H.
Qed.

End StripFacts.

(** ** More on the digest protocol: tallies, request budgets, failures *)

Module RegisterBatch.
Import Py Register PyFacts RegisterMeasures RegisterProtocol.

Section Logs.
Context {W : Type}.

Lemma adds_ret {A} (Q : list event -> Prop) (a : A) : Q [] -> adds Q (@ret W A a).
Proof. intros HQ st. exists []. rewrite app_nil_r. split; [reflexivity|exact HQ]. Qed.

Lemma adds_raise {A} (Q : list event -> Prop) (e : exn) :
  Q [] -> adds Q (@raise W A e).
Proof. intros HQ st. exists []. rewrite app_nil_r. split; [reflexivity|exact HQ]. Qed.

Lemma adds_emit (Q : list event -> Prop) (ev : event) : Q [ev] -> adds Q (@emit W ev).
Proof. intros HQ st. exists [ev]. split; [reflexivity|exact HQ]. Qed.

Lemma adds_remote {A} (Q : list event -> Prop) (ev : event) (f : W -> W * res A) :
  Q [ev] -> adds Q (remote ev f).
Proof.
  intros HQ st. exists [ev]. unfold remote.
  destruct (f (world st)) as [w' r]. split; [reflexivity|exact HQ].
Qed.

Lemma adds_bind {A B} (Q1 Q2 Q : list event -> Prop) (m : @M W A) (f : A -> @M W B) :
  adds Q1 m -> (forall a, adds Q2 (f a)) ->
  (forall l1, Q1 l1 -> Q l1) ->
  (forall l1 l2, Q1 l1 -> Q2 l2 -> Q (l1 ++ l2)) ->
  adds Q (bind m f).
Proof.
  intros Hm Hf Hstop Happ st. unfold bind. destruct (Hm st) as [l [Hl HQ]].
  destruct (m st) as [[a|e] st1]; cbn [snd] in *.
  - destruct (Hf a st1) as [l' [Hl' HQ']]. exists (l ++ l'). split.
    + rewrite Hl', Hl, app_assoc. reflexivity.
    + apply Happ; assumption.
  - exists l. split; [exact Hl|apply Hstop; exact HQ].
Qed.

Lemma adds_weaken {A} (Q Q' : list event -> Prop) (m : @M W A) :
  (forall l, Q l -> Q' l) -> adds Q m -> adds Q' m.
Proof.
  intros HQ Hm st. destruct (Hm st) as [l [Hl Hq]]. exists l. split; [exact Hl|auto].
Qed.

Lemma count_app (f : event -> bool) (l1 l2 : list event) :
  count f (l1 ++ l2) = count f l1 + count f l2.
Proof. unfold count. rewrite filter_app, length_app. reflexivity. Qed.

Lemma within_app (f1 u1 r1 v1 f2 u2 r2 v2 : nat) (l1 l2 : list event) :
  within f1 u1 r1 v1 l1 -> within f2 u2 r2 v2 l2 ->
  within (f1 + f2) (u1 + u2) (r1 + r2) (v1 + v2) (l1 ++ l2).
Proof.
  unfold within. rewrite !count_app. intros (?&?&?&?) (?&?&?&?).
  repeat split; lia.
Qed.

Lemma within_le (f u r v f' u' r' v' : nat) (l : list event) :
  f <= f' -> u <= u' -> r <= r' -> v <= v' ->
  within f u r v l -> within f' u' r' v' l.
Proof. unfold within. intros ? ? ? ? (?&?&?&?). repeat split; lia. Qed.

(** Sequencing adds the budgets. *)
Lemma uses_bind {A B} (f1 u1 r1 v1 f2 u2 r2 v2 : nat) (m : @M W A) (k : A -> @M W B) :
  adds (within f1 u1 r1 v1) m -> (forall a, adds (within f2 u2 r2 v2) (k a)) ->
  adds (within (f1 + f2) (u1 + u2) (r1 + r2) (v1 + v2)) (bind m k).
Proof.
  intros Hm Hk. eapply adds_bind; [exact Hm|exact Hk| |].
  - intros l. apply within_le; lia.
  - intros l1 l2. apply within_app.
Qed.

Lemma uses_le {A} (f u r v f' u' r' v' : nat) (m : @M W A) :
  f <= f' -> u <= u' -> r <= r' -> v <= v' ->
  adds (within f u r v) m -> adds (within f' u' r' v') m.
Proof. intros ? ? ? ?. apply adds_weaken. intros l. apply within_le; assumption. Qed.

Lemma uses_print (l : line) : adds (within 0 0 0 0) (@print W l).
Proof. apply adds_emit. cbv. repeat split; lia. Qed.

Lemma uses_sleep (q : Q) : adds (within 0 0 0 0) (@sleep W q).
Proof. apply adds_emit. cbv. repeat split; lia. Qed.

End Logs.

Section Budget.
Context {W E V : Type}.
Variable remote_digests : W -> list N -> W * res (list content_item).
Variable remote_update :
  W -> list N -> option (list N) -> option (list N) -> W * res (list E).
Variable remote_register : W -> list N -> list translation -> W * res (registered E).
Variable remote_verify : W -> list N -> list N -> W * res (list V).
Variable repr_errors : list E -> list N.
Variable repr_float : Q -> list N.

Lemma uses_fetch (gid : list N) :
  adds (within 1 0 0 0) (fetch_digests remote_digests gid).
Proof.
  unfold fetch_digests.
  apply (uses_bind 1 0 0 0 0 0 0 0).
  - apply adds_remote. cbv. repeat split; lia.
  - intros items. apply adds_ret. cbv. repeat split; lia.
Qed.

Lemma uses_poll (n : nat) (gid : list N) (nt nd : bool) :
  adds (within n 0 0 0) (poll remote_digests n gid nt nd).
Proof.
  induction n as [|n IH]; cbn [poll].
  - apply adds_ret. cbv. repeat split; lia.
  - apply (uses_le (0 + (1 + n)) (0 + (0 + 0)) (0 + (0 + 0)) (0 + (0 + 0)));
      try lia.
    apply uses_bind; [apply uses_sleep|]. intros _.
    apply uses_bind; [apply uses_fetch|]. intros d.
    destruct (ready nt nd d); [|exact IH].
    apply adds_ret. cbv. repeat split; lia.
Qed.

Lemma uses_update (gid : list N) (t d : option (list N)) :
  adds (within 0 1 0 0) (update_primary remote_update repr_errors gid t d).
Proof.
  unfold update_primary. apply (uses_bind 0 1 0 0 0 0 0 0).
  - apply adds_remote. cbv. repeat split; lia.
  - intros errs. destruct errs; [apply adds_ret|apply adds_raise];
      cbv; repeat split; lia.
Qed.

Lemma uses_register (gid : list N) (payload : list translation) :
  adds (within 0 0 1 0) (register remote_register repr_errors gid payload).
Proof.
  unfold register. apply (uses_bind 0 0 1 0 0 0 0 0).
  - apply adds_remote. cbv. repeat split; lia.
  - intros reg. destruct (userErrors reg); [apply adds_ret|apply adds_raise];
      cbv; repeat split; lia.
Qed.

Lemma uses_commit (r : gmap (list N) cell) (gid locale : list N)
    (d : gmap (list N) (option (list N))) :
  adds (within 0 0 1 1)
       (commit remote_register remote_verify repr_errors repr_float r gid locale d).
Proof.
  unfold commit.
  destruct (build_translations repr_float r locale d) as [payload|e].
  - destruct payload as [|t payload].
    + apply (uses_le (0 + 0) (0 + 0) (0 + 0) (0 + 0)); try lia.
      apply uses_bind; [apply uses_print|]. intros _.
      apply adds_ret. cbv. repeat split; lia.
    + set (p := t :: payload). clearbody p.
      intros st. destruct (uses_register gid p st) as [l [Hl Hw]].
      destruct (register remote_register repr_errors gid p st) as [[reg|e] st1];
        cbn [snd] in Hl.
      * assert (Hk : adds (within 0 0 0 1)
                  (bind (print (Stored (translations reg))) (fun _ =>
                   bind (verify_locale remote_verify gid locale) (fun out =>
                   bind (print (match out with
                                | [] => VerifyEmpty
                                | _ => VerifyRows (length out)
                                end))
                        (fun _ => @ret W _ CountOk))))).
        { apply (uses_le (0 + (0 + (0 + 0))) (0 + (0 + (0 + 0)))
                         (0 + (0 + (0 + 0))) (0 + (1 + (0 + 0)))); try lia.
          apply uses_bind; [apply uses_print|]. intros _.
          apply uses_bind.
          { apply adds_remote. cbv. repeat split; lia. }
          intros out. apply uses_bind; [apply uses_print|]. intros _.
          apply adds_ret. cbv. repeat split; lia. }
        destruct (Hk st1) as [l' [Hl' Hw']].
        exists (l ++ l'). split.
        -- rewrite Hl', Hl, app_assoc. reflexivity.
        -- apply (within_app 0 0 1 0 0 0 0 1); assumption.
      * destruct e as [msg|msg].
        -- exists (l ++ [EvPrint (FailRegister msg)]). split.
           ++ unfold bind, print, emit, ret. cbn [snd log].
              rewrite Hl, app_assoc. reflexivity.
           ++ apply (within_app 0 0 1 0 0 0 0 1); [exact Hw|].
              cbv. repeat split; lia.
        -- exists l. split; [exact Hl|].
           revert Hw. apply within_le; lia.
  - destruct e as [msg|msg].
    + apply (uses_le (0 + 0) (0 + 0) (0 + 0) (0 + 0)); try lia.
      apply uses_bind; [apply uses_print|]. intros _.
      apply adds_ret. cbv. repeat split; lia.
    + apply adds_raise. cbv. repeat split; lia.
Qed.

Lemma uses_main_body (i : nat) (r : gmap (list N) cell) (locale : list N)
    (ensure_base : bool) (base_title base_desc : list N) :
  adds (within (1 + 20 * seeding_share ensure_base) (seeding_share ensure_base) 1 1)
       (main_body remote_digests remote_update remote_register remote_verify
                  repr_errors repr_float i r locale ensure_base base_title base_desc).
Proof.
  unfold main_body.
  destruct (negb (nonempty (normalize_cell repr_float (row_get r (u "id"))))).
  - apply (uses_le (0 + 0) (0 + 0) (0 + 0) (0 + 0)); try lia.
    apply uses_bind; [apply uses_print|]. intros _.
    apply adds_ret. cbv. repeat split; lia.
  - destruct ensure_base; cbn [seeding_share].
    + apply (uses_le (0 + (1 + (0 + (0 + (20 + 0))))) (0 + (0 + (0 + (1 + (0 + 0)))))
                     (0 + (0 + (0 + (0 + (0 + 1))))) (0 + (0 + (0 + (0 + (0 + 1))))));
        try lia.
      apply uses_bind; [apply uses_print|]. intros _.
      apply uses_bind; [apply uses_fetch|]. intros d.
      destruct ((needs repr_float r (u "title_en") d (u "title")
                 || needs repr_float r (u "descriptionHtml_en") d (u "body_html"))
                && true).
      * apply uses_bind; [apply uses_print|]. intros _.
        apply uses_bind; [apply uses_update|]. intros _.
        apply uses_bind; [apply uses_poll|]. intros [d'|].
        -- apply (uses_le 0 0 1 1); try lia. apply uses_commit.
        -- apply (uses_le (0 + 0) (0 + 0) (0 + 0) (0 + 0)); try lia.
           apply uses_bind; [apply uses_print|]. intros _.
           apply adds_ret. cbv. repeat split; lia.
      * apply (uses_le 0 0 1 1); try lia. apply uses_commit.
    + apply (uses_le (0 + (1 + 0)) (0 + (0 + 0)) (0 + (0 + 1)) (0 + (0 + 1))); try lia.
      apply uses_bind; [apply uses_print|]. intros _.
      apply uses_bind; [apply uses_fetch|]. intros d.
      rewrite andb_false_r. apply uses_commit.
Qed.

Lemma uses_main_loop (jobs : list (gmap (list N) cell)) :
  forall i locale ensure_base base_title base_desc ok fail,
    adds (within ((1 + 20 * seeding_share ensure_base) * length jobs)
                 (seeding_share ensure_base * length jobs)
                 (length jobs) (length jobs))
         (main_loop remote_digests remote_update remote_register remote_verify
                    repr_errors repr_float i jobs locale ensure_base
                    base_title base_desc ok fail).
Proof.
  induction jobs as [|r rest IH]; intros; cbn [main_loop length].
  - apply adds_ret. cbv. repeat split; lia.
  - eapply uses_le; [| | | |apply uses_bind; [apply uses_main_body|]].
    5: { intros [|]; apply IH. }
    all: lia.
Qed.

(** X1: whatever the catalogue answers, a run of [main] over [n] rows sends
    at most [n] register requests, [n] verification reads and [n]
    placeholder writes, and at most [21 n] digest fetches; without
    [--ensure-base] it sends no placeholder write at all and at most [n]
    digest fetches. *)
Theorem main_request_budget (jobs : list (gmap (list N) cell))
    (locale base_title base_desc : list N) (ensure_base : bool) (st : @state W) :
  exists l,
    log (snd (main remote_digests remote_update remote_register remote_verify
                   repr_errors repr_float jobs locale ensure_base
                   base_title base_desc st))
    = log st ++ l
    /\ count is_register l <= length jobs
    /\ count is_verify l <= length jobs
    /\ count is_update l <= length jobs
    /\ count is_fetch l <= 21 * length jobs
    /\ (ensure_base = false ->
        count is_update l = 0 /\ count is_fetch l <= length jobs).
Proof.
  assert (H : adds (within ((1 + 20 * seeding_share ensure_base) * length jobs)
                           (seeding_share ensure_base * length jobs)
                           (length jobs) (length jobs))
                   (main remote_digests remote_update remote_register remote_verify
                         repr_errors repr_float jobs locale ensure_base
                         base_title base_desc)).
  { unfold main.
    eapply uses_le; [| | | |apply uses_bind; [apply uses_main_loop|]].
    5: { intros c. apply (uses_le (0 + 0) (0 + 0) (0 + 0) (0 + 0) 0 0 0 0); try lia.
         apply uses_bind; [apply uses_print|]. intros _.
         apply adds_ret. cbv. repeat split; lia. }
    all: lia. }
  destruct (H st) as [l [Hl (Hf & Hu & Hr & Hv)]].
  exists l. split; [exact Hl|].
  destruct ensure_base; cbn [seeding_share] in *.
  - repeat split; try lia. all: discriminate.
  - repeat split; intros; lia.
Qed.

End Budget.

Section Outcomes.
Context {W E V : Type}.
Variable remote_digests : W -> list N -> W * res (list content_item).
Variable remote_update :
  W -> list N -> option (list N) -> option (list N) -> W * res (list E).
Variable remote_register : W -> list N -> list translation -> W * res (registered E).
Variable remote_verify : W -> list N -> list N -> W * res (list V).
Variable repr_errors : list E -> list N.
Variable repr_float : Q -> list N.

Lemma main_loop_tally (jobs : list (gmap (list N) cell)) :
  forall i locale ensure_base base_title base_desc ok fail (st st' : @state W) ok' fail',
    main_loop remote_digests remote_update remote_register remote_verify
              repr_errors repr_float i jobs locale ensure_base
              base_title base_desc ok fail st = (Ok (ok', fail'), st') ->
    ok' + fail' = ok + fail + length jobs.
Proof.
  induction jobs as [|r rest IH]; intros i locale ensure_base base_title base_desc
    ok fail st st' ok' fail' H; cbn [main_loop] in H.
  - unfold ret in H. injection H as <- <- _. cbn. lia.
  - unfold bind in H.
    destruct (main_body _ _ _ _ _ _ i r locale ensure_base base_title base_desc st)
      as [[t|e] st1]; [|discriminate].
    destruct t; apply IH in H; cbn [length]; lia.
Qed.

(** X2: when [main] runs to its end, the two tallies it reports add up to
    the number of rows: every row is counted exactly once, as a success or
    as a failure. *)
Theorem main_counts_every_row (jobs : list (gmap (list N) cell))
    (locale base_title base_desc : list N) (ensure_base : bool)
    (st st' : @state W) (ok fail : nat) :
  main remote_digests remote_update remote_register remote_verify
       repr_errors repr_float jobs locale ensure_base base_title base_desc st
  = (Ok (ok, fail), st') ->
  ok + fail = length jobs
  /\ exists l, log st' = log st ++ l ++ [EvPrint (Done ok fail)].
Proof.
  unfold main, bind at 1. intros H.
  destruct (main_loop _ _ _ _ _ _ 1 jobs locale ensure_base base_title base_desc 0 0 st)
    as [[[ok' fail']|e] st1] eqn:Hloop; [|discriminate].
  unfold bind, print, emit, ret in H. cbn [fst snd world log] in H.
  injection H as <- <- <-.
  split.
  - apply main_loop_tally in Hloop. lia.
  - destruct (uses_main_loop remote_digests remote_update remote_register
                remote_verify repr_errors repr_float jobs 1 locale ensure_base
                base_title base_desc 0 0 st) as [l [Hl _]].
    rewrite Hloop in Hl. cbn [snd] in Hl. exists l. cbn [log].
    rewrite Hl, app_assoc. reflexivity.
Qed.

(** The loop body once the identifier is there, the fetch has returned and
    no seeding takes place: it is [commit] on the fetched digests. *)
Lemma main_body_commits (i : nat) (r : gmap (list N) cell)
    (locale base_title base_desc : list N) (ensure_base : bool) (st : @state W)
    (w1 : W) (items : list content_item) :
  let pid := normalize_cell repr_float (row_get r (u "id")) in
  nonempty pid = true ->
  remote_digests (world st) (ensure_gid pid) = (w1, Ok items) ->
  lacks_digest repr_float r (digests_of items) && ensure_base = false ->
  main_body remote_digests remote_update remote_register remote_verify
            repr_errors repr_float i r locale ensure_base base_title base_desc st
  = commit remote_register remote_verify repr_errors repr_float r
           (ensure_gid pid) locale (digests_of items)
           (State w1 (log st ++ [EvPrint (ProductLine i (ensure_gid pid) locale);
                                 EvFetch (ensure_gid pid)])).
Proof.
  intros pid Hpid Hfetch Hseed.
  unfold main_body. fold pid. rewrite Hpid. cbn [negb].
  unfold bind at 1, print at 1, emit at 1. unfold bind at 1.
  unfold fetch_digests, bind at 1, remote. cbn [world log].
  rewrite Hfetch. unfold ret at 1.
  unfold lacks_digest in Hseed. rewrite Hseed.
  rewrite <- app_assoc. reflexivity.
Qed.

Lemma build_ok_not_lacking (r : gmap (list N) cell) (locale : list N)
    (d : gmap (list N) (option (list N))) (payload : list translation) :
  build_translations repr_float r locale d = Ok payload ->
  lacks_digest repr_float r d = false.
Proof.
  unfold build_translations, lacks_digest, needs, has_digest.
  destruct (nonempty (normalize_cell repr_float (row_get r (u "title_en")))),
           (digest_of d (u "title")),
           (nonempty (normalize_cell repr_float (row_get r (u "descriptionHtml_en")))),
           (digest_of d (u "body_html"));
    intros H; try discriminate H; reflexivity.
Qed.

(** X3: an exception of the digest fetch is not caught, whatever its class:
    the loop stops at that row with the exception, the rows after it are not
    looked at, and [main] ends without its closing line. *)
Theorem fetch_failure_aborts_batch (r : gmap (list N) cell)
    (rest : list (gmap (list N) cell)) (i ok fail : nat)
    (locale base_title base_desc : list N) (ensure_base : bool) (st : @state W)
    (w1 : W) (e : exn) :
  let pid := normalize_cell repr_float (row_get r (u "id")) in
  nonempty pid = true ->
  remote_digests (world st) (ensure_gid pid) = (w1, Raise e) ->
  main_loop remote_digests remote_update remote_register remote_verify
            repr_errors repr_float i (r :: rest) locale ensure_base
            base_title base_desc ok fail st
  = (Raise e,
     State w1 (log st ++ [EvPrint (ProductLine i (ensure_gid pid) locale);
                          EvFetch (ensure_gid pid)]))
  /\ main remote_digests remote_update remote_register remote_verify
          repr_errors repr_float (r :: rest) locale ensure_base
          base_title base_desc st
     = (Raise e,
        State w1 (log st ++ [EvPrint (ProductLine 1 (ensure_gid pid) locale);
                             EvFetch (ensure_gid pid)])).
Proof.
  intros pid Hpid Hfetch.
  assert (Hbody : forall j,
    main_body remote_digests remote_update remote_register remote_verify
              repr_errors repr_float j r locale ensure_base base_title base_desc st
    = (Raise e,
       State w1 (log st ++ [EvPrint (ProductLine j (ensure_gid pid) locale);
                            EvFetch (ensure_gid pid)]))).
  { intros j. unfold main_body. fold pid. rewrite Hpid. cbn [negb].
    unfold bind at 1, print at 1, emit at 1. unfold bind at 1.
    unfold fetch_digests, bind at 1, remote. cbn [world log].
    rewrite Hfetch. rewrite <- app_assoc. reflexivity. }
  split.
  - cbn [main_loop]. unfold bind at 1. rewrite Hbody. reflexivity.
  - unfold main. unfold bind at 1. cbn [main_loop]. unfold bind at 1.
    rewrite Hbody. reflexivity.
Qed.

(** X4: a rejected placeholder write is not caught either: when the
    catalogue answers the seeding write with user errors, [update_primary]
    raises [RuntimeError] and the loop stops with it, before any polling. *)
Theorem seeding_rejection_aborts_batch (r : gmap (list N) cell)
    (rest : list (gmap (list N) cell)) (i ok fail : nat)
    (locale base_title base_desc : list N) (st : @state W)
    (w1 w2 : W) (items : list content_item) (err : E) (errs : list E) :
  let pid := normalize_cell repr_float (row_get r (u "id")) in
  let gid := ensure_gid pid in
  let need_title := needs repr_float r (u "title_en") (digests_of items) (u "title") in
  let need_desc :=
    needs repr_float r (u "descriptionHtml_en") (digests_of items) (u "body_html") in
  let t := if need_title then Some base_title else None in
  let d := if need_desc then Some base_desc else None in
  nonempty pid = true ->
  remote_digests (world st) gid = (w1, Ok items) ->
  need_title || need_desc = true ->
  remote_update w1 gid t d = (w2, Ok (err :: errs)) ->
  main_loop remote_digests remote_update remote_register remote_verify
            repr_errors repr_float i (r :: rest) locale true
            base_title base_desc ok fail st
  = (Raise (RuntimeError (u "productUpdate errors: " ++ repr_errors (err :: errs))),
     State w2 (log st ++ [EvPrint (ProductLine i gid locale); EvFetch gid;
                          EvPrint (Seeding need_title need_desc);
                          EvUpdate gid t d])).
Proof.
  intros pid gid need_title need_desc t d Hpid Hfetch Hneed Hupd.
  cbn [main_loop]. unfold bind at 1.
  unfold main_body. fold pid. rewrite Hpid. cbn [negb]. fold gid.
  unfold bind at 1, print at 1, emit at 1. unfold bind at 1.
  unfold fetch_digests, bind at 1, remote. cbn [world log].
  rewrite Hfetch. unfold ret at 1.
  fold need_title need_desc. rewrite Hneed. cbn [andb].
  unfold bind at 1, print at 1, emit at 1. unfold bind at 1.
  unfold update_primary, bind at 1, remote. cbn [world log].
  fold t d. rewrite Hupd. unfold raise.
  rewrite <- !app_assoc. reflexivity.
Qed.

(** X5: a registration the catalogue refuses is a failure of that row
    only.  User errors in the reply make [register] raise [RuntimeError];
    when [register] raises [RuntimeError], for that reason or for a GraphQL
    error list, the row is counted as failed, no verification read is made,
    and the loop goes on with the next row. *)
Theorem register_rejection_fails_row (r : gmap (list N) cell)
    (rest : list (gmap (list N) cell)) (i ok fail : nat)
    (locale base_title base_desc : list N) (ensure_base : bool) (st st2 : @state W)
    (w1 : W) (items : list content_item) (t : translation)
    (payload : list translation) (msg : list N) :
  let pid := normalize_cell repr_float (row_get r (u "id")) in
  let gid := ensure_gid pid in
  let st1 := State w1 (log st ++ [EvPrint (ProductLine i gid locale); EvFetch gid]) in
  (forall (s : @state W) w' reg err errs,
      remote_register (world s) gid (t :: payload) = (w', Ok reg) ->
      userErrors reg = err :: errs ->
      register remote_register repr_errors gid (t :: payload) s
      = (Raise (RuntimeError (u "translationsRegister errors: "
                              ++ repr_errors (err :: errs))),
         State w' (log s ++ [EvRegister gid (t :: payload)])))
  /\ (nonempty pid = true ->
      remote_digests (world st) gid = (w1, Ok items) ->
      build_translations repr_float r locale (digests_of items) = Ok (t :: payload) ->
      register remote_register repr_errors gid (t :: payload) st1
      = (Raise (RuntimeError msg), st2) ->
      main_loop remote_digests remote_update remote_register remote_verify
                repr_errors repr_float i (r :: rest) locale ensure_base
                base_title base_desc ok fail st
      = main_loop remote_digests remote_update remote_register remote_verify
                  repr_errors repr_float (S i) rest locale ensure_base
                  base_title base_desc ok (S fail)
                  (State (world st2) (log st2 ++ [EvPrint (FailRegister msg)]))).
Proof.
  intros pid gid st1. split.
  - intros s w' reg err errs Hreg Herr.
    unfold register, bind, remote. rewrite Hreg, Herr. reflexivity.
  - intros Hpid Hfetch Hbuild Hreg.
    erewrite main_loop_cons with (t := CountFail); [reflexivity|].
    rewrite (main_body_commits i r locale base_title base_desc ensure_base st w1 items
               Hpid Hfetch)
      by (rewrite (build_ok_not_lacking _ _ _ _ Hbuild); reflexivity).
    unfold commit. rewrite Hbuild. fold pid gid st1. rewrite Hreg. reflexivity.
Qed.

(** X6: an exception of the register request that is not a [RuntimeError]
    (an HTTP or connection failure) is not caught: the loop stops at that
    row with the exception and the rows after it are not processed. *)
Theorem register_transport_error_aborts_batch (r : gmap (list N) cell)
    (rest : list (gmap (list N) cell)) (i ok fail : nat)
    (locale base_title base_desc : list N) (ensure_base : bool) (st : @state W)
    (w1 w2 : W) (items : list content_item) (t : translation)
    (payload : list translation) (msg : list N) :
  let pid := normalize_cell repr_float (row_get r (u "id")) in
  let gid := ensure_gid pid in
  nonempty pid = true ->
  remote_digests (world st) gid = (w1, Ok items) ->
  build_translations repr_float r locale (digests_of items) = Ok (t :: payload) ->
  remote_register w1 gid (t :: payload) = (w2, Raise (Exception msg)) ->
  main_loop remote_digests remote_update remote_register remote_verify
            repr_errors repr_float i (r :: rest) locale ensure_base
            base_title base_desc ok fail st
  = (Raise (Exception msg),
     State w2 (log st ++ [EvPrint (ProductLine i gid locale); EvFetch gid;
                          EvRegister gid (t :: payload)])).
Proof.
  intros pid gid Hpid Hfetch Hbuild Hreg.
  cbn [main_loop]. unfold bind at 1.
  rewrite (main_body_commits i r locale base_title base_desc ensure_base st w1 items
             Hpid Hfetch)
    by (rewrite (build_ok_not_lacking _ _ _ _ Hbuild); reflexivity).
  unfold commit. rewrite Hbuild. fold pid gid.
  unfold register, bind, remote. cbn [world log]. rewrite Hreg.
  rewrite <- !app_assoc. reflexivity.
Qed.

(** X7: once the register request is accepted the row is a success whatever
    the verification read returns, rows or none; only an exception of that
    read changes the outcome, and it stops the whole loop although the
    translation is already registered. *)
Theorem verification_does_not_decide (r : gmap (list N) cell)
    (rest : list (gmap (list N) cell)) (i ok fail : nat)
    (locale base_title base_desc : list N) (ensure_base : bool) (st : @state W)
    (w1 w2 w3 : W) (items : list content_item) (t : translation)
    (payload : list translation) (reg : registered E) :
  let pid := normalize_cell repr_float (row_get r (u "id")) in
  let gid := ensure_gid pid in
  let sent := log st ++ [EvPrint (ProductLine i gid locale); EvFetch gid;
                         EvRegister gid (t :: payload);
                         EvPrint (Stored (translations reg));
                         EvVerify gid locale] in
  nonempty pid = true ->
  remote_digests (world st) gid = (w1, Ok items) ->
  build_translations repr_float r locale (digests_of items) = Ok (t :: payload) ->
  remote_register w1 gid (t :: payload) = (w2, Ok reg) ->
  userErrors reg = [] ->
  (forall out,
      remote_verify w2 gid locale = (w3, Ok out) ->
      main_loop remote_digests remote_update remote_register remote_verify
                repr_errors repr_float i (r :: rest) locale ensure_base
                base_title base_desc ok fail st
      = main_loop remote_digests remote_update remote_register remote_verify
                  repr_errors repr_float (S i) rest locale ensure_base
                  base_title base_desc (S ok) fail
                  (State w3 (sent ++ [EvPrint (match out with
                                               | [] => VerifyEmpty
                                               | _ => VerifyRows (length out)
                                               end)])))
  /\ (forall e,
        remote_verify w2 gid locale = (w3, Raise e) ->
        main_loop remote_digests remote_update remote_register remote_verify
                  repr_errors repr_float i (r :: rest) locale ensure_base
                  base_title base_desc ok fail st
        = (Raise e, State w3 sent)).
Proof.
  intros pid gid sent Hpid Hfetch Hbuild Hreg Herr.
  assert (Hbody :
    main_body remote_digests remote_update remote_register remote_verify
              repr_errors repr_float i r locale ensure_base base_title base_desc st
    = match remote_verify w2 gid locale with
      | (w, Ok out) =>
          (Ok CountOk,
           State w (sent ++ [EvPrint (match out with
                                      | [] => VerifyEmpty
                                      | _ => VerifyRows (length out)
                                      end)]))
      | (w, Raise e) => (Raise e, State w sent)
      end).
  { rewrite (main_body_commits i r locale base_title base_desc ensure_base st w1 items
               Hpid Hfetch)
      by (rewrite (build_ok_not_lacking _ _ _ _ Hbuild); reflexivity).
    unfold commit. rewrite Hbuild. fold pid gid.
    unfold register, bind at 1, remote. cbn [world log]. rewrite Hreg, Herr.
    unfold ret at 1. unfold bind at 1, print at 1, emit at 1. unfold bind at 1.
    unfold verify_locale, remote. cbn [world log].
    destruct (remote_verify w2 gid locale) as [w [out|e]].
    - unfold bind, print, emit, ret. cbn [world log]. unfold sent.
      rewrite <- !app_assoc. reflexivity.
    - unfold sent. rewrite <- !app_assoc. reflexivity. }
  split.
  - intros out Hv. rewrite Hv in Hbody.
    erewrite main_loop_cons with (t := CountOk); [reflexivity|exact Hbody].
  - intros e Hv. rewrite Hv in Hbody.
    cbn [main_loop]. unfold bind at 1. rewrite Hbody. reflexivity.
Qed.

Lemma count_zero_all (f : event -> bool) (l : list event) :
  count f l <= 0 -> Forall (fun e => f e = false) l.
Proof.
  unfold count. induction l as [|e l IH]; intros H; [constructor|].
  rewrite filter_cons in H. destruct (decide (f e = true)) as [Ht|Hf].
  - cbn in H. lia.
  - constructor; [destruct (f e); congruence|apply IH; exact H].
Qed.

Lemma adds_no_update {A} (P : event -> Prop) (f r v : nat) (m : @M W A) :
  (forall e, is_update e = false -> P e) ->
  adds (within f 0 r v) m -> adds (Forall P) m.
Proof.
  intros HP. apply adds_weaken. intros l (_ & Hu & _).
  apply count_zero_all in Hu. eapply Forall_impl; [exact Hu|exact HP].
Qed.

Lemma adds_all_bind {A B} (P : event -> Prop) (m : @M W A) (k : A -> @M W B) :
  adds (Forall P) m -> (forall a, adds (Forall P) (k a)) -> adds (Forall P) (bind m k).
Proof.
  intros Hm Hk. eapply adds_bind; [exact Hm|exact Hk|auto|].
  intros l1 l2 H1 H2. apply Forall_app. split; assumption.
Qed.

Lemma main_body_seeds (i : nat) (r : gmap (list N) cell)
    (locale base_title base_desc : list N) (ensure_base : bool) (st : @state W) :
  exists l,
    log (snd (main_body remote_digests remote_update remote_register remote_verify
                        repr_errors repr_float i r locale ensure_base
                        base_title base_desc st))
    = log st ++ l
    /\ Forall (seeds_for repr_float r) l.
Proof.
  assert (Hother : forall e, is_update e = false -> seeds_for repr_float r e).
  { intros [] H; try exact I. discriminate H. }
  revert st. change (adds (Forall (seeds_for repr_float r))
    (main_body remote_digests remote_update remote_register remote_verify
               repr_errors repr_float i r locale ensure_base base_title base_desc)).
  unfold main_body.
  destruct (negb (nonempty (normalize_cell repr_float (row_get r (u "id"))))).
  - apply adds_all_bind; [apply adds_emit; repeat constructor|].
    intros _. apply adds_ret. constructor.
  - apply adds_all_bind; [apply adds_emit; repeat constructor|]. intros _.
    apply adds_all_bind.
    { eapply adds_no_update; [exact Hother|apply uses_fetch]. }
    intros d.
    destruct ((needs repr_float r (u "title_en") d (u "title")
               || needs repr_float r (u "descriptionHtml_en") d (u "body_html"))
              && ensure_base) eqn:Hs;
      [|eapply adds_no_update; [exact Hother|apply uses_commit]].
    apply andb_prop in Hs as [Hneed _].
    apply adds_all_bind; [apply adds_emit; repeat constructor|]. intros _.
    apply adds_all_bind.
    { unfold update_primary. apply adds_all_bind.
      - apply adds_remote. constructor; [|constructor].
        cbn [seeds_for]. unfold needs in *.
        destruct (nonempty (normalize_cell repr_float (row_get r (u "title_en")))),
                 (negb (has_digest d (u "title"))),
                 (nonempty (normalize_cell repr_float
                              (row_get r (u "descriptionHtml_en")))),
                 (negb (has_digest d (u "body_html")));
          cbn [andb orb] in *; try discriminate Hneed;
          (split; [first [left; discriminate|right; discriminate]
                  |split; intros H; first [reflexivity|exfalso; apply H; reflexivity]]).
      - intros errs. destruct errs; [apply adds_ret|apply adds_raise]; constructor. }
    intros _. apply adds_all_bind.
    { eapply adds_no_update; [exact Hother|apply uses_poll]. }
    intros [d'|].
    + eapply adds_no_update; [exact Hother|apply uses_commit].
    + apply adds_all_bind; [apply adds_emit; repeat constructor|].
      intros _. apply adds_ret. constructor.
Qed.

(** X8: a placeholder write is made only for what the row needs: whatever
    the catalogue answers, every update request the loop body sends for a
    row sets at least one field, and sets the title (the description) only
    if the row gives a non-empty title (description); without
    [--ensure-base] the loop body sends no update request at all. *)
Theorem seeding_only_for_fields_of_the_row (i : nat) (r : gmap (list N) cell)
    (locale base_title base_desc : list N) (ensure_base : bool) (st : @state W) :
  exists l,
    log (snd (main_body remote_digests remote_update remote_register remote_verify
                        repr_errors repr_float i r locale ensure_base
                        base_title base_desc st))
    = log st ++ l
    /\ Forall (seeds_for repr_float r) l
    /\ (ensure_base = false -> Forall (fun e => is_update e = false) l).
Proof.
  destruct (main_body_seeds i r locale base_title base_desc ensure_base st)
    as [l [Hl HF]].
  exists l. split; [exact Hl|]. split; [exact HF|]. intros ->.
  destruct (uses_main_body remote_digests remote_update remote_register remote_verify
              repr_errors repr_float i r locale false base_title base_desc st)
    as [l' [Hl' (_ & Hu & _)]].
  rewrite Hl in Hl'. apply app_inv_head in Hl'. subst l'.
  apply count_zero_all. exact Hu.
Qed.

(** X9: polling hands on a digest map only if it holds every required
    digest, and it stops at the first fetch that does: a fetch that is ready
    ends the loop after its round. *)
Theorem poll_returns_ready_digests (n : nat) (gid : list N)
    (need_title need_desc : bool) (st st' : @state W)
    (d : gmap (list N) (option (list N))) :
  (poll remote_digests n gid need_title need_desc st = (Ok (Some d), st') ->
   (need_title = true -> has_digest d (u "title") = true)
   /\ (need_desc = true -> has_digest d (u "body_html") = true))
  /\ (forall w' items,
        remote_digests (world st) gid = (w', Ok items) ->
        ready need_title need_desc (digests_of items) = true ->
        poll remote_digests (S n) gid need_title need_desc st
        = (Ok (Some (digests_of items)),
           State w' (log st ++ poll_round gid))).
Proof.
  split.
  - revert st. induction n as [|n IH]; intros st H; cbn [poll] in H.
    + discriminate H.
    + unfold bind at 1, sleep, emit in H. unfold bind at 1 in H.
      unfold fetch_digests, bind at 1, remote in H. cbn [world log] in H.
      destruct (remote_digests (world st) gid) as [w1 [items|e]]; [|discriminate].
      unfold ret at 1 in H.
      destruct (ready need_title need_desc (digests_of items)) eqn:Hr.
      * injection H as <- _. unfold ready in Hr.
        apply andb_prop in Hr as [Ht Hd]. split; intros ->; assumption.
      * apply IH in H. exact H.
  - intros w' items Hf Hr. cbn [poll].
    unfold bind at 1, sleep, emit. unfold bind at 1.
    unfold fetch_digests, bind at 1, remote. cbn [world log].
    rewrite Hf. unfold ret at 1. rewrite Hr. unfold ret, poll_round.
    rewrite <- app_assoc. reflexivity.
Qed.

End Outcomes.

(** *** The digest map and the payload *)

Lemma fold_digest_entry_lookup (items : list content_item) (k : list N) :
  forall d0 : gmap (list N) (option (list N)),
    fold_left digest_entry items d0 !! k
    = match last_digest k items with
      | Some v => Some v
      | None => d0 !! k
      end.
Proof.
  induction items as [|it rest IH]; intros d0; cbn [fold_left last_digest].
  - reflexivity.
  - rewrite IH. destruct (last_digest k rest) as [v|]; [reflexivity|].
    unfold digest_entry. destruct (ci_key it) as [k'|]; [|reflexivity].
    destruct (decide (k' = k)) as [->|Hne].
    + rewrite bool_decide_eq_true_2 by reflexivity. cbn [andb].
      destruct (nonempty k); [apply lookup_insert_eq|reflexivity].
    + rewrite bool_decide_eq_false_2 by exact Hne. cbn [andb].
      destruct (nonempty k'); [apply lookup_insert_ne; exact Hne|reflexivity].
Qed.

(** X10: the digest map built from the catalogue's reply holds, for each
    key, the digest of the last item with that key (the empty string when
    that item has no digest field), and nothing for a key no item has; items
    without a key or with an empty key leave no entry, so the empty key is
    never in the map. *)
Theorem digests_of_lookup (items : list content_item) (k : list N) :
  digests_of items !! k = last_digest k items
  /\ digests_of items !! [] = None.
Proof.
  unfold digests_of. split.
  - rewrite fold_digest_entry_lookup.
    destruct (last_digest k items); [reflexivity|apply lookup_empty].
  - rewrite fold_digest_entry_lookup.
    assert (H : last_digest [] items = None).
    { induction items as [|it rest IH]; [reflexivity|].
      cbn [last_digest]. rewrite IH. destruct (ci_key it); [|reflexivity].
      cbn [nonempty]. rewrite andb_false_r. reflexivity. }
    rewrite H. apply lookup_empty.
Qed.

Section Payload.
Variable repr_float : Q -> list N.

(** X11: a payload [build_translations] returns has at most two entries,
    the title before the description, each with the locale given, a
    non-empty value taken from the normalised row and a non-empty digest;
    it is empty exactly when the row sets neither field. *)
Theorem build_translations_payload (r : gmap (list N) cell) (locale : list N)
    (d : gmap (list N) (option (list N))) (payload : list translation) :
  build_translations repr_float r locale d = Ok payload ->
  Forall (entry_for repr_float r locale) payload
  /\ map tr_key payload
     = (if nonempty (normalize_cell repr_float (row_get r (u "title_en")))
        then [u "title"] else [])
       ++ (if nonempty (normalize_cell repr_float (row_get r (u "descriptionHtml_en")))
           then [u "body_html"] else []).
Proof.
  unfold build_translations.
  destruct (nonempty (normalize_cell repr_float (row_get r (u "title_en")))) eqn:Ht;
    [destruct (digest_of d (u "title")) as [dg|] eqn:Hdt; [|discriminate]|];
    (destruct (nonempty (normalize_cell repr_float
                           (row_get r (u "descriptionHtml_en")))) eqn:Hd;
     [destruct (digest_of d (u "body_html")) as [dg'|] eqn:Hdb; [|discriminate]|]);
    intros [= <-]; (split; [|reflexivity]);
    repeat match goal with
           | H : digest_of _ _ = Some _ |- _ => apply digest_of_nonempty in H
           end;
    repeat (constructor;
            [unfold entry_for;
             cbn [tr_locale tr_value translatableContentDigest tr_key];
             repeat split; auto;
             first [left; split; reflexivity|right; split; reflexivity]|]);
    constructor.
Qed.

(** X12: normalising a cell gives a string that normalising again leaves
    alone: the loaders normalise every cell and [main] normalises what it
    reads from the row once more, to the same value.  A string cell comes
    out without blanks at either end. *)
Theorem normalize_cell_settles (s : list N) :
  normalize_cell repr_float (CStr (normalize_cell repr_float (CStr s)))
  = normalize_cell repr_float (CStr s)
  /\ normalize_cell repr_float (CStr s) = strip s
  /\ match strip s with [] => True | c :: _ => isspace c = false end
  /\ match rev (strip s) with [] => True | c :: _ => isspace c = false end.
Proof.
  cbn [normalize_cell]. split; [apply StripFacts.strip_idempotent|].
  split; [reflexivity|]. apply StripFacts.strip_ends.
Qed.

End Payload.

End RegisterBatch.

(** ** More on the chat wrapper and the cache *)

Module TranslateCalls.
Import Py Translate PyFacts TranslateMeasures TranslateEngine.

Lemma contains_spec (needle hay : list N) :
  contains needle hay = true <-> exists pre post, hay = pre ++ needle ++ post.
Proof.
  split.
  - induction hay as [|c hay IH]; cbn [contains]; intros H.
    + rewrite orb_false_r in H. apply startswith_spec in H as [t Ht].
      exists [], t. exact Ht.
    + apply orb_prop in H as [H|H].
      * apply startswith_spec in H as [t Ht]. exists [], t. exact Ht.
      * destruct (IH H) as [pre [post ->]]. exists (c :: pre), post. reflexivity.
  - intros [pre [post ->]]. induction pre as [|c pre IH].
    + cbn [app]. destruct (needle ++ post) eqn:E; cbn [contains];
        rewrite <- E, startswith_app; reflexivity.
    + cbn [app contains]. rewrite IH. apply orb_true_r.
Qed.

(** X13: an error is retried exactly when its text has one of the six
    signals somewhere in it, as a substring: a status code inside a longer
    number or word counts as well. *)
Theorem is_transient_iff_substring (msg : list N) :
  is_transient msg = true
  <-> exists signal pre post,
        In signal transient_signals /\ msg = pre ++ signal ++ post.
Proof.
  unfold is_transient. rewrite existsb_exists. split.
  - intros [x [Hin Hc]]. apply contains_spec in Hc as [pre [post ->]].
    exists x, pre, post. split; [exact Hin|reflexivity].
  - intros [x [pre [post [Hin ->]]]]. exists x. split; [exact Hin|].
    apply contains_spec. exists pre, post. reflexivity.
Qed.

Lemma backoff_capped (backoff_min backoff_max : Q) (i : nat) :
  (backoff backoff_min backoff_max i <= backoff_max)%Q.
Proof.
  unfold backoff.
  destruct (Qle_bool backoff_max
              (backoff_min * inject_Z (2 ^ Z.of_nat (i - 1)))) eqn:H.
  - apply Qle_refl.
  - apply Qlt_le_weak. apply Qnot_le_lt. intros Hle.
    apply Qle_bool_iff in Hle. congruence.
Qed.

Lemma count_events_app (f : event -> bool) (l1 l2 : list event) :
  count f (l1 ++ l2) = count f l1 + count f l2.
Proof. unfold count. rewrite filter_app, length_app. reflexivity. Qed.

Section Calls.
Context {W : Type}.
Variable _chat :
  W -> list (list N * list N) -> list N -> Q -> Z -> W * res (list N).
Variable _sha_key : list (list N * list N) -> list N.

Lemma chat_retry_from_log (n : nat) :
  forall i messages model temperature max_tokens attempts backoff_min backoff_max
         (st : @state W),
    i + n = S attempts ->
    exists l,
      log (snd (chat_retry_from _chat n i messages model temperature max_tokens
                                attempts backoff_min backoff_max st))
      = log st ++ l
      /\ count is_chat l <= n
      /\ (1 <= n -> count is_chat l = S (count is_sleep l))
      /\ Forall (sleep_capped backoff_max) l.
Proof.
  induction n as [|n IH]; intros i messages model temperature max_tokens attempts
    backoff_min backoff_max st Hi.
  - exists []. cbn. rewrite app_nil_r.
    split; [reflexivity|]. split; [lia|]. split; [lia|constructor].
  - cbn [chat_retry_from]. unfold try_except, bind at 1, call_chat, ret.
    destruct (_chat (world st) messages model temperature max_tokens) as [w' [out|e]].
    + exists [EvChat messages model temperature max_tokens]. cbn [snd log].
      split; [reflexivity|]. split; [cbv; lia|].
      split; [reflexivity|repeat constructor].
    + destruct (is_transient (str_of_exn e) && (i <? attempts)%nat) eqn:Hretry.
      * apply andb_prop in Hretry as [_ Hlt]. apply Nat.ltb_lt in Hlt.
        unfold bind, emit. cbn [world _CACHE log].
        destruct (IH (S i) messages model temperature max_tokens attempts
                     backoff_min backoff_max
                     (State w' (_CACHE st)
                        ((log st ++ [EvChat messages model temperature max_tokens])
                         ++ [EvSleep (backoff backoff_min backoff_max i)]))
                     ltac:(lia))
          as [l [Hl [Hc [Hs Hcap]]]].
        exists ([EvChat messages model temperature max_tokens;
                 EvSleep (backoff backoff_min backoff_max i)] ++ l).
        split; [rewrite Hl; cbn [log]; rewrite <- !app_assoc; reflexivity|].
        specialize (Hs ltac:(lia)).
        rewrite !count_events_app.
        change (count is_chat [EvChat messages model temperature max_tokens;
                               EvSleep (backoff backoff_min backoff_max i)]) with 1.
        change (count is_sleep [EvChat messages model temperature max_tokens;
                                EvSleep (backoff backoff_min backoff_max i)]) with 1.
        split; [lia|]. split; [lia|].
        cbn [app]. constructor; [exact I|].
        constructor; [apply backoff_capped|exact Hcap].
      * exists [EvChat messages model temperature max_tokens]. cbn [snd log raise].
        split; [reflexivity|]. split; [cbv; lia|].
        split; [reflexivity|repeat constructor].
Qed.

(** X14: whatever the chat service does, [chat_retry] calls it at most
    [attempts] times, sleeps once between two calls and never after the
    last one, never sleeps longer than [backoff_max], and does not touch the
    cache. *)
Theorem chat_retry_is_bounded (messages : list (list N * list N)) (model : list N)
    (temperature : Q) (max_tokens : Z) (attempts : nat) (backoff_min backoff_max : Q)
    (st : @state W) :
  let run := chat_retry _chat messages model temperature max_tokens attempts
                        backoff_min backoff_max st in
  exists l,
    log (snd run) = log st ++ l
    /\ count is_chat l <= attempts
    /\ (1 <= attempts -> count is_chat l = S (count is_sleep l))
    /\ Forall (sleep_capped backoff_max) l
    /\ _CACHE (snd run) = _CACHE st.
Proof.
  intros run. unfold run, chat_retry.
  destruct (chat_retry_from_log attempts 1 messages model temperature max_tokens
              attempts backoff_min backoff_max st ltac:(lia)) as [l [Hl [Hc [Hs Hcap]]]].
  exists l. split; [exact Hl|]. split; [exact Hc|]. split; [exact Hs|].
  split; [exact Hcap|].
  destruct (chat_retry_from _chat attempts 1 messages model temperature max_tokens
              attempts backoff_min backoff_max st) as [r st'] eqn:Hrun.
  eapply chat_retry_from_keeps_cache. exact Hrun.
Qed.

Lemma chat_retry_from_recovers (k : nat) :
  forall n i messages model temperature max_tokens attempts backoff_min backoff_max
         (st : @state W) (reply : list N),
    i + k <= attempts ->
    (forall j, j < k -> exists e,
        snd (_chat (world_after _chat j messages model temperature max_tokens (world st))
                   messages model temperature max_tokens) = Raise e
        /\ is_transient (str_of_exn e) = true) ->
    snd (_chat (world_after _chat k messages model temperature max_tokens (world st))
               messages model temperature max_tokens) = Ok reply ->
    chat_retry_from _chat (S k + n) i messages model temperature max_tokens
                    attempts backoff_min backoff_max st
    = (Ok (Some reply),
       State (world_after _chat (S k) messages model temperature max_tokens (world st))
             (_CACHE st)
             (log st ++ failed_attempts_log messages model temperature max_tokens
                          backoff_min backoff_max (S k) i)).
Proof.
  induction k as [|k IH]; intros n i messages model temperature max_tokens attempts
    backoff_min backoff_max st reply Hi Hfail Hok.
  - cbn [world_after] in Hok. change (1 + n) with (S n). cbn [chat_retry_from].
    unfold try_except, bind, call_chat, ret. cbn [world_after failed_attempts_log].
    destruct (_chat (world st) messages model temperature max_tokens) as [w' out].
    cbn [snd fst] in *. subst out. reflexivity.
  - destruct (Hfail 0 ltac:(lia)) as [e [He Ht]]. cbn [world_after] in He.
    change (S (S k) + n) with (S (S k + n)).
    cbn [chat_retry_from]. unfold try_except, bind at 1, call_chat, ret.
    destruct (_chat (world st) messages model temperature max_tokens) as [w' out] eqn:Hc.
    cbn [snd] in He. subst out. rewrite Ht.
    replace (i <? attempts)%nat with true by (symmetry; apply Nat.ltb_lt; lia).
    cbn [andb]. unfold bind, emit. cbn [world _CACHE log].
    rewrite (IH n (S i) messages model temperature max_tokens attempts
                backoff_min backoff_max _ reply).
    + cbn [world _CACHE log].
      change (world_after _chat (S (S k)) messages model temperature max_tokens (world st))
        with (world_after _chat (S k) messages model temperature max_tokens
                (fst (_chat (world st) messages model temperature max_tokens))).
      rewrite Hc. cbn [fst].
      change (failed_attempts_log messages model temperature max_tokens
                backoff_min backoff_max (S (S k)) i)
        with (EvChat messages model temperature max_tokens
              :: EvSleep (backoff backoff_min backoff_max i)
              :: failed_attempts_log messages model temperature max_tokens
                   backoff_min backoff_max (S k) (S i)).
      rewrite <- !app_assoc. reflexivity.
    + lia.
    + intros j Hj. cbn [world].
      specialize (Hfail (S j) ltac:(lia)). cbn [world_after] in Hfail.
      rewrite Hc in Hfail. exact Hfail.
    + cbn [world]. cbn [world_after] in Hok. rewrite Hc in Hok. exact Hok.
Qed.

(** X15: when the first [k] calls fail with a transient signal and the next
    one answers, with [k] below the ceiling, [chat_retry] returns that
    answer after [k + 1] calls and [k] sleeps of 1, 2, 4, ... seconds
    (capped at [backoff_max]). *)
Theorem chat_retry_recovers (k : nat) (messages : list (list N * list N))
    (model : list N) (temperature : Q) (max_tokens : Z) (attempts : nat)
    (backoff_min backoff_max : Q) (st : @state W) (reply : list N) :
  k < attempts ->
  (forall j, j < k -> exists e,
      snd (_chat (world_after _chat j messages model temperature max_tokens (world st))
                 messages model temperature max_tokens) = Raise e
      /\ is_transient (str_of_exn e) = true) ->
  snd (_chat (world_after _chat k messages model temperature max_tokens (world st))
             messages model temperature max_tokens) = Ok reply ->
  chat_retry _chat messages model temperature max_tokens attempts
             backoff_min backoff_max st
  = (Ok (Some reply),
     State (world_after _chat (S k) messages model temperature max_tokens (world st))
           (_CACHE st)
           (log st ++ failed_attempts_log messages model temperature max_tokens
                        backoff_min backoff_max (S k) 1)).
Proof.
  intros Hk Hfail Hok. unfold chat_retry.
  replace attempts with (S k + (attempts - S k)) at 1 by lia.
  apply chat_retry_from_recovers; [lia|exact Hfail|exact Hok].
Qed.

(** X16: a translation call that raises leaves the cache as it was: a
    failure is never stored, so the next call with the same request asks the
    chat service again. *)
Theorem failed_invocation_not_cached (c : invocation) (st st' : @state W) (e : exn) :
  invoke _chat _sha_key c st = (Raise e, st') ->
  _CACHE st' = _CACHE st.
Proof.
  assert (H : forall key (fn : M str) ,
             (forall s s' x, fn s = (x, s') -> _CACHE s' = _CACHE s) ->
             cached_call _sha_key key fn st = (Raise e, st') ->
             _CACHE st' = _CACHE st).
  { intros key fn Hfn Hrun. unfold cached_call in Hrun.
    destruct (_CACHE st !! _sha_key key); [discriminate|].
    destruct (fn st) as [[out|e'] st1] eqn:Hf; [discriminate|].
    injection Hrun as _ <-. eapply Hfn. exact Hf. }
  destruct c as [src model max_tokens|src model]; cbn [invoke];
    unfold translate_text, translate_html_in_place; apply H;
    intros s s' x Hx; eapply remote_part_keeps_cache; exact Hx.
Qed.

(** X17: translation calls only ever add to the cache: after any sequence
    of calls, whatever they returned or raised, every entry that was there
    is still there with the same value. *)
Theorem cache_entries_are_permanent (l : list invocation) (st : @state W)
    (k v : list N) :
  _CACHE st !! k = Some v ->
  _CACHE (after_invocations _chat _sha_key l st) !! k = Some v.
Proof.
  intros H. eapply lookup_weaken; [exact H|]. apply after_invocations_grows.
Qed.

Lemma strip_reply_stripped (r : option (list N)) (st st' : @state W) (out : list N) :
  strip_reply r st = (Ok out, st') -> strip out = out.
Proof.
  destruct r as [s|]; cbn; unfold ret, raise; intros [= <- _].
  apply StripFacts.strip_idempotent.
Qed.

(** X18: if every cached value is free of blanks at both ends (as the
    values this engine stores are), every translation a call returns is,
    and the cache still is after the call. *)
Theorem translations_are_stripped (c : invocation) (st : @state W) :
  all_stripped (_CACHE st) ->
  all_stripped (_CACHE (snd (invoke _chat _sha_key c st)))
  /\ (forall out, fst (invoke _chat _sha_key c st) = Ok out -> strip out = out).
Proof.
  intros Hall.
  assert (H : forall key messages model max_tokens,
    let fn := bind (chat_retry _chat messages model 0.0 max_tokens 6 1.0 20.0)
                   strip_reply in
    all_stripped (_CACHE (snd (cached_call _sha_key key fn st)))
    /\ (forall out, fst (cached_call _sha_key key fn st) = Ok out -> strip out = out)).
  { intros key messages model max_tokens fn. unfold cached_call.
    destruct (_CACHE st !! _sha_key key) as [v|] eqn:Hk.
    - cbn [fst snd]. split; [exact Hall|]. intros out [= <-].
      exact (Hall _ _ Hk).
    - destruct (fn st) as [[out|e] st1] eqn:Hf; cbn [fst snd _CACHE].
      + pose proof (remote_part_keeps_cache _chat _ _ _ _ _ _ _ Hf) as Hc.
        assert (Hs : strip out = out).
        { unfold fn, bind in Hf.
          destruct (chat_retry _chat messages model 0.0 max_tokens 6 1.0 20.0 st)
            as [[r|e] st0]; [|discriminate].
          eapply strip_reply_stripped. exact Hf. }
        split.
        * rewrite Hc. apply map_Forall_insert_2; assumption.
        * intros out' [= <-]. exact Hs.
      + pose proof (remote_part_keeps_cache _chat _ _ _ _ _ _ _ Hf) as Hc.
        split; [rewrite Hc; exact Hall|discriminate]. }
  destruct c as [src model max_tokens|src model]; cbn [invoke];
    unfold translate_text, translate_html_in_place; apply H.
Qed.

End Calls.

End TranslateCalls.

(** ** More on the batch driver of the translation engine *)

Module TranslateFrames.
Import Py Translate PyFacts TranslateMeasures.

Section Returns.
Context {W : Type}.

Lemma returns_ret {A} (P : A -> Prop) (a : A) : P a -> returns P (@ret W A a).
Proof. intros HP st a' st' [= <- _]. exact HP. Qed.

Lemma returns_bind {A B} (P1 : A -> Prop) (P : B -> Prop) (m : @M W A)
    (f : A -> @M W B) :
  returns P1 m -> (forall a, P1 a -> returns P (f a)) -> returns P (bind m f).
Proof.
  intros Hm Hf st b st' H. unfold bind in H.
  destruct (m st) as [[a|e] st1] eqn:Hrun; [|discriminate].
  eapply Hf; [eapply Hm; exact Hrun|exact H].
Qed.

Lemma returns_try {A} (P : A -> Prop) (m : @M W A) (h : exn -> @M W A) :
  returns P m -> (forall e, returns P (h e)) -> returns P (try_except m h).
Proof.
  intros Hm Hh st a st' H. unfold try_except in H.
  destruct (m st) as [[a'|e] st1] eqn:Hrun.
  - injection H as <- <-. eapply Hm. exact Hrun.
  - eapply Hh. exact H.
Qed.

Lemma returns_any {A} (m : @M W A) : returns (fun _ => True) m.
Proof. intros st a st' _. exact I. Qed.

End Returns.

Lemma same_but_targets_refl (p : gmap (list N) (option (list N))) :
  same_but_targets p p.
Proof. intros k _ _. reflexivity. Qed.

Lemma same_but_targets_trans (p q r : gmap (list N) (option (list N))) :
  same_but_targets p q -> same_but_targets q r -> same_but_targets p r.
Proof. intros H1 H2 k Ht Hd. rewrite (H2 k Ht Hd). apply H1; assumption. Qed.

Lemma same_but_targets_title (p : gmap (list N) (option (list N))) v :
  same_but_targets p (<[u "title_en" := v]> p).
Proof. intros k Ht _. apply lookup_insert_ne. congruence. Qed.

Lemma same_but_targets_desc (p : gmap (list N) (option (list N))) v :
  same_but_targets p (<[u "descriptionHtml_en" := v]> p).
Proof. intros k _ Hd. apply lookup_insert_ne. congruence. Qed.

Section Frames.
Context {W : Type}.
Variable _chat :
  W -> list (list N * list N) -> list N -> Q -> Z -> W * res (list N).
Variable _sha_key : list (list N * list N) -> list N.

Lemma translate_product_frame (p : gmap (list N) (option (list N))) (model : list N)
    (strip_translate_no : bool) (brand_normalize : list N) :
  returns (same_but_targets p)
          (translate_product _chat _sha_key p model strip_translate_no brand_normalize).
Proof.
  unfold translate_product.
  eapply returns_bind with (P1 := same_but_targets p).
  - destruct (nonempty (get_or_empty p (u "title_ar"))).
    + apply returns_try.
      * eapply returns_bind; [apply returns_any|]. intros t _.
        apply returns_ret. apply same_but_targets_title.
      * intros _. apply returns_ret. apply same_but_targets_title.
    + apply returns_ret. apply same_but_targets_refl.
  - intros p1 Hp1.
    destruct (nonempty (get_or_empty p (u "descriptionHtml_ar"))).
    + eapply returns_bind; [apply returns_any|]. intros desc_en _.
      apply returns_ret. eapply same_but_targets_trans; [exact Hp1|].
      apply same_but_targets_desc.
    + apply returns_ret. exact Hp1.
Qed.

(** X19: whatever the chat service answers, a batch that returns gives back
    one product per input product, in the same order, and each differs from
    its input at most in [title_en] and [descriptionHtml_en]: the
    identifier, the source fields and every other field are as they were. *)
Theorem process_products_touches_only_targets
    (products out : list (gmap (list N) (option (list N)))) (model : list N)
    (force strip_translate_no : bool) (brand_normalize : list N) (st st' : @state W) :
  process_products _chat _sha_key products model force strip_translate_no
                   brand_normalize st = (Ok out, st') ->
  Forall2 same_but_targets products out /\ length out = length products.
Proof.
  intros H.
  assert (HF : Forall2 same_but_targets products out).
  { revert st out st' H.
    change (returns (Forall2 same_but_targets products)
              (process_products _chat _sha_key products model force
                                strip_translate_no brand_normalize)).
    induction products as [|p rest IH]; cbn [process_products].
    - apply returns_ret. constructor.
    - eapply returns_bind with (P1 := same_but_targets p).
      + destruct (get_truthy p (u "title_en")
                  && get_truthy p (u "descriptionHtml_en") && negb force).
        * apply returns_ret. apply same_but_targets_refl.
        * apply translate_product_frame.
      + intros p' Hp'. eapply returns_bind; [exact IH|].
        intros out' Hout. apply returns_ret. constructor; assumption. }
  split; [exact HF|]. symmetry. eapply Forall2_length. exact HF.
Qed.

(** X20: a failed title translation never stops the batch.  For a product
    with a title and no description to translate, [translate_product]
    always returns: with the translated title, or, when [make_title_en]
    raises, with the plain text of the source title (which is not cut to
    150 characters). *)
Theorem title_failure_falls_back (p : gmap (list N) (option (list N)))
    (model : list N) (strip_translate_no : bool) (brand_normalize : list N)
    (st : @state W) :
  let title_ar := get_or_empty p (u "title_ar") in
  nonempty title_ar = true ->
  nonempty (get_or_empty p (u "descriptionHtml_ar")) = false ->
  translate_product _chat _sha_key p model strip_translate_no brand_normalize st
  = match make_title_en _chat _sha_key title_ar model st with
    | (Ok t, st1) => (Ok (<[u "title_en" := Some t]> p), st1)
    | (Raise _, st1) => (Ok (<[u "title_en" := Some (html_to_text title_ar)]> p), st1)
    end.
Proof.
  intros title_ar Ht Hd. unfold translate_product. fold title_ar.
  rewrite Ht, Hd. unfold bind at 1, try_except, bind at 1.
  destruct (make_title_en _chat _sha_key title_ar model st) as [[t|e] st1];
    reflexivity.
Qed.

(** X21: a description is different.  When the HTML translation raises and
    the plain-text fallback raises too, the second exception is not caught:
    [process_products] stops with it and returns no product at all, also
    none of those it had already translated.  This holds whether or not the
    product has a title; the title step before it never raises. *)
Theorem description_failure_aborts_batch
    (p : gmap (list N) (option (list N)))
    (rest : list (gmap (list N) (option (list N)))) (model : list N)
    (force strip_translate_no : bool) (brand_normalize : list N)
    (st st1 st2 : @state W) (e1 e2 : exn) :
  let title_ar := get_or_empty p (u "title_ar") in
  let desc_ar := get_or_empty p (u "descriptionHtml_ar") in
  let st0 := if nonempty title_ar
             then snd (make_title_en _chat _sha_key title_ar model st)
             else st in
  nonempty desc_ar = true ->
  already_translated p && negb force = false ->
  translate_html_in_place _chat _sha_key desc_ar model st0 = (Raise e1, st1) ->
  translate_text _chat _sha_key (html_to_text desc_ar) model 400 st1 = (Raise e2, st2) ->
  process_products _chat _sha_key (p :: rest) model force strip_translate_no
                   brand_normalize st
  = (Raise e2, st2).
Proof.
  intros title_ar desc_ar st0 Hd Hskip Hhtml Htext.
  cbn [process_products]. unfold already_translated in Hskip. rewrite Hskip.
  unfold bind at 1. unfold translate_product. fold title_ar desc_ar. rewrite Hd.
  unfold bind at 1.
  assert (Htitle :
    exists p1,
      (if nonempty title_ar
       then try_except
              (bind (make_title_en _chat _sha_key title_ar model)
                    (fun t => ret (<[u "title_en" := Some t]> p)))
              (fun _ => ret (<[u "title_en" := Some (html_to_text title_ar)]> p))
       else ret p) st = (Ok p1, st0)).
  { unfold st0. destruct (nonempty title_ar); [|exists p; reflexivity].
    unfold try_except, bind.
    destruct (make_title_en _chat _sha_key title_ar model st) as [[t|e] s1];
      eexists; reflexivity. }
  destruct Htitle as [p1 Htitle]. rewrite Htitle.
  unfold bind at 1, try_except, bind at 1.
  rewrite Hhtml. unfold bind at 1. rewrite Htext. reflexivity.
Qed.

Lemma translate_product_no_source (p : gmap (list N) (option (list N)))
    (model : list N) (strip_translate_no : bool) (brand_normalize : list N)
    (st : @state W) :
  no_source p = true ->
  translate_product _chat _sha_key p model strip_translate_no brand_normalize st
  = (Ok p, st).
Proof.
  unfold no_source. intros H. apply andb_prop in H as [Ht Hd].
  apply negb_true_iff in Ht, Hd.
  unfold translate_product. rewrite Ht, Hd. reflexivity.
Qed.

(** X22: the force flag has nothing to translate on a product without
    source text: a batch of products whose [title_ar] and
    [descriptionHtml_ar] are missing, null or empty comes back unchanged,
    with no chat call and no cache write, with or without the flag. *)
Theorem products_without_source_unchanged
    (products : list (gmap (list N) (option (list N)))) (model : list N)
    (force strip_translate_no : bool) (brand_normalize : list N) (st : @state W) :
  forallb no_source products = true ->
  process_products _chat _sha_key products model force strip_translate_no
                   brand_normalize st
  = (Ok products, st).
Proof.
  induction products as [|p rest IH]; intros Hall; cbn [process_products].
  - reflexivity.
  - cbn [forallb] in Hall. apply andb_prop in Hall as [Hp Hrest].
    unfold bind at 1.
    assert (Hstep :
      (if get_truthy p (u "title_en") && get_truthy p (u "descriptionHtml_en")
          && negb force
       then ret p
       else translate_product _chat _sha_key p model strip_translate_no
                              brand_normalize) st = (Ok p, st)).
    { destruct (get_truthy p (u "title_en") && get_truthy p (u "descriptionHtml_en")
                && negb force); [reflexivity|].
      apply translate_product_no_source. exact Hp. }
    rewrite Hstep. unfold bind at 1. rewrite (IH Hrest). reflexivity.
Qed.

End Frames.

End TranslateFrames.

(** ** More on the substitution engine and the clean-up rules *)

Module ReFacts.
Import Py Translate PyFacts ReMeasures.

(** A successful run ends in a success of the continuation on a suffix of
    the subject. *)
Lemma star_reaches {R} (greedy : bool) (p : N -> bool) (k : cont R) (s : list N) :
  forall prev g res,
    star greedy p k prev s g = Some res ->
    exists prev' s' g', k prev' s' g' = Some res /\ s' `suffix_of` s.
Proof.
  induction s as [|c s IH]; intros prev g res H; cbn [star] in H.
  - exists prev, [], g. split; [exact H|reflexivity].
  - destruct (p c).
    + destruct greedy.
      * destruct (star true p k (Some c) s g) as [r|] eqn:Hs.
        -- injection H as <-. destruct (IH _ _ _ Hs) as (prev' & s' & g' & Hk & Hsuf).
           exists prev', s', g'. split; [exact Hk|]. apply suffix_cons_r. exact Hsuf.
        -- exists prev, (c :: s), g. split; [exact H|reflexivity].
      * destruct (k prev (c :: s) g) as [r|] eqn:Hk.
        -- injection H as <-. exists prev, (c :: s), g. split; [exact Hk|reflexivity].
        -- destruct (IH _ _ _ H) as (prev' & s' & g' & Hk' & Hsuf).
           exists prev', s', g'. split; [exact Hk'|]. apply suffix_cons_r. exact Hsuf.
    + exists prev, (c :: s), g. split; [exact H|reflexivity].
Qed.

Lemma run_reaches {R} (r : re) :
  forall (k : cont R) prev s g res,
    run r k prev s g = Some res ->
    exists prev' s' g', k prev' s' g' = Some res /\ s' `suffix_of` s.
Proof.
  induction r as [|c|c|p| |a IHa b IHb|a IHa b IHb|greedy p|n a IHa];
    intros k prev s g res H; cbn [run] in H.
  - exists prev, s, g. split; [exact H|reflexivity].
  - destruct s as [|x s]; [discriminate|]. destruct (x =? c)%N; [|discriminate].
    exists (Some x), s, g. split; [exact H|]. apply suffix_cons_r. reflexivity.
  - destruct s as [|x s]; [discriminate|]. destruct (ieq c x); [|discriminate].
    exists (Some x), s, g. split; [exact H|]. apply suffix_cons_r. reflexivity.
  - destruct s as [|x s]; [discriminate|]. destruct (p x); [|discriminate].
    exists (Some x), s, g. split; [exact H|]. apply suffix_cons_r. reflexivity.
  - destruct (at_boundary prev s); [|discriminate].
    exists prev, s, g. split; [exact H|reflexivity].
  - destruct (IHa _ _ _ _ _ H) as (prev1 & s1 & g1 & H1 & Hsuf1).
    destruct (IHb _ _ _ _ _ H1) as (prev2 & s2 & g2 & H2 & Hsuf2).
    exists prev2, s2, g2. split; [exact H2|]. etransitivity; eassumption.
  - destruct (run a k prev s g) as [r|] eqn:Ha.
    + injection H as <-. eapply IHa. exact Ha.
    + eapply IHb. exact H.
  - eapply star_reaches. exact H.
  - destruct (IHa _ _ _ _ _ H) as (prev1 & s1 & g1 & H1 & Hsuf1).
    eexists _, _, _. split; [exact H1|exact Hsuf1].
Qed.

Lemma lacks_suffix (P : N -> bool) (s s' : list N) :
  s' `suffix_of` s -> lacks P s -> lacks P s'.
Proof. intros [pre ->] H. apply Forall_app in H as [_ H]. exact H. Qed.

(** A pattern that must consume a character of class [P] does not match in
    a text without such a character. *)
Lemma run_must_fails {R} (P : N -> bool) (r : re) :
  must P r ->
  forall (k : cont R) prev s g, lacks P s -> run r k prev s g = None.
Proof.
  induction r as [|c|c|p| |a IHa b IHb|a IHa b IHb|greedy p|n a IHa];
    cbn [must]; intros Hm k prev s g Hs; try contradiction; cbn [run].
  - destruct s as [|x s]; [reflexivity|].
    destruct (N.eqb_spec x c) as [->|_]; [|reflexivity].
    apply Forall_cons in Hs as [Hx _]. congruence.
  - destruct s as [|x s]; [reflexivity|].
    destruct (ieq c x) eqn:Hi; [|reflexivity].
    apply Forall_cons in Hs as [Hx _]. rewrite (Hm x Hi) in Hx. discriminate.
  - destruct s as [|x s]; [reflexivity|].
    destruct (p x) eqn:Hp; [|reflexivity].
    apply Forall_cons in Hs as [Hx _]. rewrite (Hm x Hp) in Hx. discriminate.
  - destruct Hm as [Hm|Hm].
    + apply IHa; assumption.
    + destruct (run a (run b k) prev s g) as [res|] eqn:H; [|reflexivity].
      apply run_reaches in H as (prev' & s' & g' & Hb & Hsuf).
      rewrite (IHb Hm k prev' s' g') in Hb; [discriminate|].
      eapply lacks_suffix; eassumption.
  - destruct Hm as [Ha Hb]. rewrite (IHa Ha k prev s g Hs). apply IHb; assumption.
  - apply IHa; assumption.
Qed.

Lemma sub_walk_must (P : N -> bool) (r : re) (t : list titem) (s : list N) :
  must P r -> lacks P s -> forall prev, sub_walk r t prev s 0 = s.
Proof.
  intros Hm. induction s as [|c s IH]; intros Hs prev; cbn [sub_walk].
  - unfold match_at. rewrite (run_must_fails P r Hm) by exact Hs. reflexivity.
  - unfold match_at. rewrite (run_must_fails P r Hm) by exact Hs.
    rewrite IH; [reflexivity|]. apply Forall_cons in Hs as [_ Hs]. exact Hs.
Qed.

(** [re.sub] as modelled leaves a text alone when the pattern needs a
    character the text does not have. *)
Lemma sub_needs_its_trigger (P : N -> bool) (r : re) (t : list titem) (s : list N) :
  must P r -> lacks P s -> sub r t s = s.
Proof. intros Hm Hs. apply (sub_walk_must P r t s Hm Hs). Qed.

Lemma lower_cp_uncased (c : N) : (c < 0x41)%N -> lower_cp c = c.
Proof.
  intros Hc. unfold lower_cp, in_range.
  destruct (N.leb_spec 0x41 c); [lia|]. cbn [andb].
  destruct (N.eqb_spec c 0x130); [lia|].
  destruct (N.eqb_spec c 0x212A); [lia|]. reflexivity.
Qed.

Lemma ieq_uncased (c x : N) : (c < 0x41)%N -> ieq c x = true -> x = c.
Proof.
  intros Hc. unfold ieq. rewrite (lower_cp_uncased c Hc).
  destruct (N.eqb_spec c 0x69); [lia|]. destruct (N.eqb_spec c 0x73); [lia|].
  cbn [andb]. rewrite !orb_false_r. unfold lower_cp, in_range.
  destruct (N.leb_spec 0x41 x), (N.leb_spec x 0x5A), (N.eqb_spec x 0x130),
           (N.eqb_spec x 0x212A); cbn [andb]; cbv iota;
    intros Hieq; apply N.eqb_eq in Hieq; lia.
Qed.

Lemma must_cats_in (P : N -> bool) (l : list re) (r : re) :
  In r l -> must P r -> must P (cats l).
Proof.
  induction l as [|a l IH]; intros Hin Hm; [destruct Hin|].
  cbn [cats foldr must]. destruct Hin as [->|Hin]; [left; exact Hm|].
  right. apply IH; assumption.
Qed.

Lemma must_liti_in (P : N -> bool) (s : list N) (c : N) :
  In c s -> (forall x, ieq c x = true -> P x = true) -> must P (liti s).
Proof.
  intros Hin Hc. unfold liti. apply must_cats_in with (r := LitI c).
  - apply in_map. exact Hin.
  - exact Hc.
Qed.

Lemma must_lit_in (P : N -> bool) (s : list N) (c : N) :
  In c s -> P c = true -> must P (lit s).
Proof.
  intros Hin Hc. unfold lit. apply must_cats_in with (r := Lit c).
  - apply in_map. exact Hin.
  - exact Hc.
Qed.

Lemma uncased_char (c : N) :
  (c < 0x41)%N -> forall x, ieq c x = true -> is_char c x = true.
Proof.
  intros Hc x H. apply (ieq_uncased c x Hc) in H. subst x.
  unfold is_char. apply N.eqb_refl.
Qed.

Lemma startswith_lacks (P : N -> bool) (s old : list N) :
  lacks P s -> Exists (fun c => P c = true) old -> startswith s old = false.
Proof.
  intros Hs Hold. destruct (startswith s old) eqn:H; [|reflexivity].
  apply startswith_spec in H as [t ->]. apply Forall_app in Hs as [Hs _].
  exfalso. apply Exists_exists in Hold as (c & Hin & Hc).
  rewrite Forall_forall in Hs. rewrite (Hs c Hin) in Hc. discriminate.
Qed.

(** [str.replace] as modelled leaves a text alone when the text lacks a
    character of what it looks for. *)
Lemma replace_needs_its_trigger (P : N -> bool) (s old new : list N) :
  lacks P s -> Exists (fun c => P c = true) old -> replace s old new = s.
Proof.
  intros Hs Hold. unfold replace. induction s as [|c s IH]; cbn [replace_walk].
  - rewrite (startswith_lacks P [] old Hs Hold). reflexivity.
  - rewrite (startswith_lacks P (c :: s) old Hs Hold).
    rewrite IH; [reflexivity|]. apply Forall_cons in Hs as [_ Hs]. exact Hs.
Qed.

Lemma must_digits (P : N -> bool) :
  (forall x, isdecimal x = true -> P x = true) -> must P digits.
Proof. intros H. left. exact H. Qed.

(** X23: the unit rules rewrite numbers only: a text without a decimal
    digit comes back from [normalize_units_symbols] unchanged. *)
Theorem units_need_a_digit (s : list N) :
  lacks isdecimal s -> normalize_units_symbols s = s.
Proof.
  intros Hs. unfold normalize_units_symbols.
  assert (Hd : forall x, isdecimal x = true -> isdecimal x = true) by auto.
  rewrite (sub_needs_its_trigger isdecimal units_360 _ s); [|
    apply must_cats_in with (r := liti (u "360")); [cbn; tauto|];
    apply must_liti_in with (c := 0x33%N); [cbn; tauto|];
    intros x Hx; apply ieq_uncased in Hx; [subst x; reflexivity|reflexivity]
    |exact Hs].
  rewrite (sub_needs_its_trigger isdecimal units_celsius _ s); [|
    apply must_cats_in with (r := Grp 1 (Cat (opt (Lit 0x2D)) digits)); [cbn; tauto|];
    right; apply must_digits; exact Hd
    |exact Hs].
  rewrite (sub_needs_its_trigger isdecimal units_grams _ s); [|
    apply must_cats_in with (r := Grp 1 digits); [cbn; tauto|];
    apply must_digits; exact Hd
    |exact Hs].
  rewrite (sub_needs_its_trigger isdecimal units_millimeters _ s); [|
    apply must_cats_in with (r := Grp 1 digits); [cbn; tauto|];
    apply must_digits; exact Hd
    |exact Hs].
  apply (sub_needs_its_trigger isdecimal units_mm).
  - apply must_cats_in with (r := Grp 1 (Cls isdecimal)); [cbn; tauto|]. exact Hd.
  - exact Hs.
Qed.

(** Digits of every script count: a Devanagari or a full-width digit
    before the unit is a number for the rule. *)
Example units_digits_of_other_scripts :
  normalize_units_symbols ([0x96B]%N ++ u " grams") = [0x96B]%N ++ u " g"
  /\ normalize_units_symbols ([0xFF17]%N ++ u "mm") = [0xFF17]%N ++ u " mm".
Proof. vm_compute. split; reflexivity. Qed.

Lemma must_brand_label (ar : list N) : must (is_char 0x3A) (brand_label_re ar).
Proof.
  apply must_cats_in with (r := liti (u "Brand:")); [cbn; tauto|].
  apply must_liti_in with (c := 0x3A%N); [cbn; tauto|].
  apply uncased_char. reflexivity.
Qed.

(** X24: the brand rules act on the label only: a text without a colon
    comes back from [normalize_brand_names] unchanged, also when it holds a
    brand name of the table in Arabic script. *)
Theorem brands_need_the_label (html : list N) :
  lacks (is_char 0x3A) html -> normalize_brand_names html = html.
Proof.
  intros Hs. unfold normalize_brand_names.
  assert (H1 : forall l : list (list N * list N),
             fold_left (fun h b => sub (brand_label_re (fst b))
                                       [TStr (u "Brand: " ++ snd b)] h) l html = html).
  { induction l as [|b l IH]; [reflexivity|]. cbn [fold_left].
    rewrite (sub_needs_its_trigger (is_char 0x3A) _ _ html (must_brand_label _) Hs).
    exact IH. }
  rewrite H1.
  induction BRAND_MAP as [|b l IH]; [reflexivity|]. cbn [fold_left].
  rewrite (replace_needs_its_trigger (is_char 0x3A) html); [exact IH|exact Hs|].
  apply Exists_app. left. apply Exists_exists. exists 0x3A%N.
  split; [apply list_elem_of_In; cbn; tauto|reflexivity].
Qed.

Lemma must_meta (label : list N) : must (is_char 0x3C) (meta_re label).
Proof.
  apply must_cats_in with (r := liti (u "<p")); [cbn; tauto|].
  apply must_liti_in with (c := 0x3C%N); [cbn; tauto|].
  apply uncased_char. reflexivity.
Qed.

(** X25: blank lines are squeezed whether or not a meta paragraph was
    removed: on a text without [<], where no paragraph can match,
    [drop_meta_lines] still replaces every run of two or more newlines by
    one; a text with neither [<] nor a newline comes back unchanged. *)
Theorem drop_meta_lines_without_tags (html : list N) :
  lacks (is_char 0x3C) html ->
  drop_meta_lines html = sub blank_lines_re [TStr [newline]] html
  /\ (lacks (is_char newline) html -> drop_meta_lines html = html).
Proof.
  intros Hs.
  assert (H : drop_meta_lines html = sub blank_lines_re [TStr [newline]] html).
  { unfold drop_meta_lines, meta_patterns. cbn [fold_left].
    rewrite !(sub_needs_its_trigger (is_char 0x3C) _ _ html (must_meta _) Hs).
    reflexivity. }
  split; [exact H|]. intros Hn. rewrite H.
  apply (sub_needs_its_trigger (is_char newline)); [|exact Hn].
  left. reflexivity.
Qed.

(** X26: the attribute rule needs the quoted value: a text without a double
    quote comes back from [strip_translate_no_attr] unchanged, whatever it
    says about [translate]. *)
Theorem strip_translate_no_needs_quote (html : list N) :
  lacks (is_char dquote) html -> strip_translate_no_attr html = html.
Proof.
  intros Hs. unfold strip_translate_no_attr.
  apply (sub_needs_its_trigger (is_char dquote)); [|exact Hs].
  apply must_cats_in with (r := LitI dquote).
  - cbn. tauto.
  - cbn [must]. apply uncased_char. reflexivity.
Qed.

End ReFacts.

(** ** More on the inter-tag rule and on whitespace *)

Module SpacingFacts.
Import Py Translate PyFacts ReMeasures TrimFacts StripFacts.

Lemma visible_app (a b : list N) : visible (a ++ b) = visible a ++ visible b.
Proof. unfold visible. apply filter_app. Qed.

Lemma visible_blanks (ws : list N) : forallb isspace ws = true -> visible ws = [].
Proof.
  unfold visible. induction ws as [|c ws IH]; [reflexivity|].
  cbn [forallb]. intros H. apply andb_prop in H as [Hc Hws].
  rewrite filter_cons. destruct (decide (isspace c = false)); [congruence|].
  apply IH. exact Hws.
Qed.

Lemma visible_cons (c : N) (s : list N) :
  visible (c :: s) = if isspace c then visible s else c :: visible s.
Proof.
  unfold visible. rewrite filter_cons.
  destruct (decide (isspace c = false)) as [H|H].
  - rewrite H. reflexivity.
  - destruct (isspace c); [reflexivity|congruence].
Qed.

Lemma gap_visible (s s3 : list N) :
  gap s = Some s3 -> visible s = 0x3C%N :: 0x2F%N :: visible s3.
Proof.
  unfold gap. destruct s as [|c s1]; [discriminate|].
  destruct (isspace c) eqn:Hc; [|discriminate].
  destruct (lstrip_split s1) as [ws [Hs1 Hws]].
  destruct (lstrip s1) as [|a [|b s4]]; try discriminate.
  destruct (N.eqb_spec a 0x3C) as [->|]; [|discriminate].
  destruct (N.eqb_spec b 0x2F) as [->|]; [|discriminate].
  cbn [andb]. intros [= <-].
  rewrite visible_cons, Hc, Hs1, visible_app, (visible_blanks ws Hws).
  cbn [app]. rewrite !visible_cons. reflexivity.
Qed.

Lemma gap_takes_three (s s3 : list N) :
  gap s = Some s3 -> length s3 + 3 <= length s.
Proof.
  unfold gap. destruct s as [|c s1]; [discriminate|].
  destruct (isspace c); [|discriminate].
  destruct (lstrip_split s1) as [ws [Hs1 _]].
  destruct (lstrip s1) as [|a [|b s4]]; try discriminate.
  destruct ((a =? 0x3C)%N && (b =? 0x2F)%N); [|discriminate].
  intros [= <-]. rewrite Hs1. cbn [length]. rewrite length_app. cbn [length]. lia.
Qed.

Lemma trim_facts_len (n : nat) :
  forall s, length s <= n ->
    has_gap (trim_inter_tag s) = false
    /\ visible (trim_inter_tag s) = visible s
    /\ length (trim_inter_tag s) <= length s.
Proof.
  induction n as [|n IH]; intros s Hlen.
  - destruct s; [|cbn in Hlen; lia].
    split; [reflexivity|]. split; [reflexivity|apply Nat.le_refl].
  - destruct s as [|c s];
      [split; [reflexivity|]; split; [reflexivity|apply Nat.le_refl]|].
    cbn [length] in Hlen.
    destruct (c =? 0x3E)%N eqn:Hc.
    + apply N.eqb_eq in Hc. subst c. rewrite trim_cons_gt.
      destruct (gap s) as [s3|] eqn:Hg.
      * pose proof (gap_takes_three _ _ Hg) as Hshort.
        destruct (IH s3 ltac:(lia)) as (Hgap & Hvis & Hle).
        change (u "></" ++ trim_inter_tag s3)
          with (0x3E%N :: 0x3C%N :: 0x2F%N :: trim_inter_tag s3).
        split; [|split].
        -- cbn [has_gap gap]. change (isspace 0x3C) with false.
           cbn [N.eqb Pos.eqb andb orb]. exact Hgap.
        -- rewrite !visible_cons. change (isspace 0x3E) with false.
           change (isspace 0x3C) with false. change (isspace 0x2F) with false.
           cbv iota. rewrite Hvis, (gap_visible _ _ Hg). reflexivity.
        -- cbn [length]. lia.
      * destruct (IH s ltac:(lia)) as (Hgap & Hvis & Hle).
        split; [|split].
        -- cbn [has_gap]. rewrite gap_trim, Hg. cbn [option_map andb orb].
           rewrite andb_false_r. exact Hgap.
        -- rewrite !visible_cons. rewrite Hvis. reflexivity.
        -- cbn [length]. lia.
    + rewrite (trim_cons_other _ _ Hc).
      destruct (IH s ltac:(lia)) as (Hgap & Hvis & Hle).
      split; [|split].
      * cbn [has_gap]. rewrite Hc. cbn [andb orb]. exact Hgap.
      * rewrite !visible_cons. rewrite Hvis. reflexivity.
      * cbn [length]. lia.
Qed.

Lemma trim_fixed (s : list N) : has_gap s = false -> trim_inter_tag s = s.
Proof.
  induction s as [|c s IH]; intros H; [reflexivity|].
  cbn [has_gap] in H. apply orb_false_elim in H as [Hhere Hrest].
  destruct (c =? 0x3E)%N eqn:Hc.
  - apply N.eqb_eq in Hc. subst c. rewrite trim_cons_gt.
    destruct (gap s); [discriminate Hhere|]. rewrite (IH Hrest). reflexivity.
  - rewrite (trim_cons_other _ _ Hc), (IH Hrest). reflexivity.
Qed.

(** X27: the last step of the pipeline deletes blanks and nothing else: the
    trimmed text has the same non-blank characters in the same order and is
    never longer; no [>] followed by blanks and a closing tag is left in
    it; and a text that has no such place is returned as it is. *)
Theorem trim_inter_tag_deletes_blanks_only (html : list N) :
  visible (trim_inter_tag html) = visible html
  /\ length (trim_inter_tag html) <= length html
  /\ has_gap (trim_inter_tag html) = false
  /\ (has_gap html = false -> trim_inter_tag html = html).
Proof.
  destruct (trim_facts_len (length html) html (Nat.le_refl _)) as (Hgap & Hvis & Hle).
  split; [exact Hvis|]. split; [exact Hle|]. split; [exact Hgap|apply trim_fixed].
Qed.

(** *** Collapsing whitespace *)

Lemma star_greedy_hits {R} (k : cont R) (s : list N) :
  (forall p1 p2 s' g, k p1 s' g = k p2 s' g) ->
  forall prev g res,
    k prev (lstrip s) g = Some res ->
    star true isspace k prev s g = Some res.
Proof.
  intros Hk. induction s as [|c s IH]; intros prev g res H; cbn [star lstrip] in *.
  - exact H.
  - destruct (isspace c); [|exact H].
    rewrite (IH (Some c) g res); [reflexivity|].
    rewrite (Hk (Some c) prev). exact H.
Qed.

Lemma lstrip_length (s : list N) : length (lstrip s) <= length s.
Proof.
  destruct (lstrip_split s) as [ws [Hs _]]. rewrite Hs at 2.
  rewrite length_app. lia.
Qed.

Lemma match_at_ws_plus (adv : bool) (prev : option N) (s : list N) :
  match_at ws_plus adv prev s
  = match s with
    | c :: s' =>
        if isspace c then Some (S (length s' - length (lstrip s')), []) else None
    | [] => None
    end.
Proof.
  destruct s as [|c s']; [reflexivity|].
  unfold match_at, ws_plus, plus. cbn [run].
  destruct (isspace c); [|reflexivity].
  apply star_greedy_hits; [reflexivity|].
  pose proof (lstrip_length s') as Hl. cbv zeta.
  replace (length (c :: s') - length (lstrip s'))
    with (S (length s' - length (lstrip s'))) by (cbn [length]; lia).
  cbn [Nat.eqb]. rewrite andb_false_r. reflexivity.
Qed.

Section Walk.
Variable r : re.
Variable t : list titem.
Hypothesis blind :
  forall adv p1 p2 s, match_at r adv p1 s = match_at r adv p2 s.

Lemma sub_walk_blind (p1 p2 : option N) (s : list N) (k : nat) :
  sub_walk r t p1 s k = sub_walk r t p2 s k.
Proof using blind.
  destruct k, s; cbn [sub_walk]; try reflexivity;
    rewrite (blind false p1 p2); try rewrite (blind true p1 p2); reflexivity.
Qed.

Lemma sub_walk_skips (pre s : list N) :
  forall prev, sub_walk r t prev (pre ++ s) (length pre) = sub_walk r t None s 0.
Proof using blind.
  induction pre as [|c pre IH]; intros prev.
  - apply sub_walk_blind.
  - cbn [app length sub_walk]. apply IH.
Qed.

End Walk.

Lemma collapse_ws_cons (c : N) (s : list N) :
  collapse_ws (c :: s)
  = if isspace c then 0x20%N :: collapse_ws (lstrip s) else c :: collapse_ws s.
Proof.
  unfold collapse_ws, sub. cbn [sub_walk]. rewrite match_at_ws_plus.
  assert (Hblind : forall adv p1 p2 s0,
             match_at ws_plus adv p1 s0 = match_at ws_plus adv p2 s0).
  { intros. rewrite !match_at_ws_plus. reflexivity. }
  destruct (isspace c).
  - destruct (lstrip_split s) as [ws [Hs _]].
    assert (Hk : length s - length (lstrip s) = length ws).
    { rewrite Hs at 1. rewrite length_app. lia. }
    rewrite Hk. rewrite Hs at 1.
    rewrite (sub_walk_skips ws_plus _ Hblind). reflexivity.
  - rewrite (sub_walk_blind ws_plus _ Hblind (Some c) None). reflexivity.
Qed.

Lemma collapse_ws_head (c : N) (s : list N) :
  isspace c = false -> exists s', collapse_ws (c :: s) = c :: s'.
Proof. intros Hc. rewrite collapse_ws_cons, Hc. eexists. reflexivity. Qed.

Lemma collapse_ws_facts_len (n : nat) :
  forall s, length s <= n ->
    single_spaced (collapse_ws s) = true /\ visible (collapse_ws s) = visible s.
Proof.
  induction n as [|n IH]; intros s Hlen.
  - destruct s; [split; reflexivity|cbn in Hlen; lia].
  - destruct s as [|c s]; [split; reflexivity|]. cbn [length] in Hlen.
    rewrite collapse_ws_cons. destruct (isspace c) eqn:Hc.
    + pose proof (lstrip_length s) as Hl.
      destruct (IH (lstrip s) ltac:(lia)) as [Hsingle Hvis].
      destruct (lstrip_split s) as [ws [Hs Hws]].
      split.
      * cbn [single_spaced]. change (isspace 0x20) with true. cbv iota.
        rewrite Hsingle. cbn [N.eqb Pos.eqb andb]. rewrite andb_true_r.
        destruct (lstrip s) as [|x s'] eqn:Hls; [reflexivity|].
        pose proof (lstrip_head _ _ _ Hls) as Hx.
        destruct (collapse_ws_head x s' Hx) as [s'' ->]. rewrite Hx. reflexivity.
      * rewrite !visible_cons. change (isspace 0x20) with true. rewrite Hc.
        cbv iota. rewrite Hvis. rewrite Hs at 2.
        rewrite visible_app, (visible_blanks ws Hws). reflexivity.
    + destruct (IH s ltac:(lia)) as [Hsingle Hvis]. split.
      * cbn [single_spaced]. rewrite Hc. exact Hsingle.
      * rewrite !visible_cons, Hc, Hvis. reflexivity.
Qed.

Lemma collapse_ws_fixed (s : list N) : single_spaced s = true -> collapse_ws s = s.
Proof.
  induction s as [|c s IH]; intros H; [reflexivity|].
  cbn [single_spaced] in H. apply andb_prop in H as [Hc Hs].
  rewrite collapse_ws_cons. destruct (isspace c).
  - apply andb_prop in Hc as [Hc Hnext]. apply N.eqb_eq in Hc. subst c.
    destruct s as [|x s']; [reflexivity|].
    apply negb_true_iff in Hnext. cbn [lstrip]. rewrite Hnext.
    rewrite (IH Hs). reflexivity.
  - rewrite (IH Hs). reflexivity.
Qed.

Lemma single_spaced_tail (c : N) (s : list N) :
  single_spaced (c :: s) = true -> single_spaced s = true.
Proof. cbn [single_spaced]. intros H. apply andb_prop in H as [_ H]. exact H. Qed.

Lemma single_spaced_lstrip (s : list N) :
  single_spaced s = true -> single_spaced (lstrip s) = true.
Proof.
  induction s as [|c s IH]; intros H; [reflexivity|]. cbn [lstrip].
  destruct (isspace c); [|exact H]. apply IH. eapply single_spaced_tail. exact H.
Qed.

Lemma single_spaced_prefix (a b : list N) :
  single_spaced (a ++ b) = true -> single_spaced a = true.
Proof.
  induction a as [|c a IH]; intros H; [reflexivity|].
  cbn [app single_spaced] in *. apply andb_prop in H as [Hc Hrest].
  rewrite (IH Hrest), andb_true_r.
  destruct (isspace c); [|reflexivity].
  apply andb_prop in Hc as [Hc Hnext]. rewrite Hc. cbn [andb].
  destruct a as [|x a']; [reflexivity|exact Hnext].
Qed.

Lemma single_spaced_strip (s : list N) :
  single_spaced s = true -> single_spaced (strip s) = true.
Proof.
  intros H. unfold strip. apply single_spaced_lstrip in H.
  destruct (rstrip_split (lstrip s)) as [ws [Hs _]].
  apply (single_spaced_prefix _ ws). rewrite <- Hs. exact H.
Qed.

Lemma collapse_ws_is_single_spaced (s : list N) :
  single_spaced (collapse_ws s) = true.
Proof.
  exact (proj1 (collapse_ws_facts_len (length s) s (Nat.le_refl _))).
Qed.

(** X28: collapsing whitespace leaves a text in which every blank is a
    single plain space, keeps the non-blank characters in their order, and
    returns a text that is already in this form as it is (so collapsing
    twice is collapsing once). *)
Theorem collapse_ws_single_spaces (s : list N) :
  single_spaced (collapse_ws s) = true
  /\ visible (collapse_ws s) = visible s
  /\ (single_spaced s = true -> collapse_ws s = s)
  /\ collapse_ws (collapse_ws s) = collapse_ws s.
Proof.
  destruct (collapse_ws_facts_len (length s) s (Nat.le_refl _)) as [Hsingle Hvis].
  split; [exact Hsingle|]. split; [exact Hvis|].
  split; [apply collapse_ws_fixed|]. apply collapse_ws_fixed. exact Hsingle.
Qed.

(** X29: the plain text [html_to_text] extracts has no blank at either end
    and only single plain spaces inside, whatever tags, newlines and tabs
    the HTML had. *)
Theorem html_to_text_is_single_spaced (html : list N) :
  single_spaced (html_to_text html) = true
  /\ strip (html_to_text html) = html_to_text html
  /\ match html_to_text html with [] => True | c :: _ => isspace c = false end
  /\ match rev (html_to_text html) with [] => True | c :: _ => isspace c = false end.
Proof.
  unfold html_to_text. split; [|split].
  - apply single_spaced_strip. apply collapse_ws_is_single_spaced.
  - apply strip_idempotent.
  - apply strip_ends.
Qed.

Section Titles.
Context {W : Type}.
Variable _chat :
  W -> list (list N * list N) -> list N -> Q -> Z -> W * res (list N).
Variable _sha_key : list (list N * list N) -> list N.

(** X30: a title [make_title_en] returns starts with a non-blank character
    and has only single plain spaces between its words, whatever the chat
    service replied.  (It may end in a space: the cut at 150 characters
    comes after the trim.) *)
Theorem make_title_en_is_single_spaced (title_ar model : list N)
    (st st' : @state W) (t : list N) :
  make_title_en _chat _sha_key title_ar model st = (Ok t, st') ->
  single_spaced t = true
  /\ match t with [] => True | c :: _ => isspace c = false end.
Proof.
  unfold make_title_en, bind, ret. intros H.
  destruct (translate_text _chat _sha_key (html_to_text title_ar) model 400 st)
    as [[en|e] st1]; [|discriminate].
  injection H as <- _.
  set (body := strip (collapse_ws (sub c400_and_c200 c400_amp en))).
  assert (Hbody : single_spaced body = true).
  { apply single_spaced_strip. apply collapse_ws_is_single_spaced. }
  split.
  - apply (single_spaced_prefix _ (drop 150 body)). rewrite take_drop. exact Hbody.
  - pose proof (proj1 (strip_ends (collapse_ws (sub c400_and_c200 c400_amp en))))
      as Hhead. fold body in Hhead.
    destruct body as [|c b]; [exact I|exact Hhead].
Qed.

End Titles.

(** A reply of 149 letters, a space and more text gives a title that ends
    in a space. *)
Example title_cut_can_end_in_a_space :
  let reply := repeat 0x61%N 149 ++ u " and more" in
  Spec.title_polish reply = repeat 0x61%N 149 ++ u " ".
Proof. vm_compute. reflexivity. Qed.

End SpacingFacts.

(** ** Concrete runs of the properties above *)

Module RegisterRuns.
Import Py Register RegisterMeasures RegisterBatch.

Lemma main_counts_every_row_witness :
  let run := main Examples.never_indexed_digests Examples.accept_update
                  Examples.accept_register Examples.empty_verify
                  Examples.no_repr_errors Examples.no_repr_float
                  [Samples.title_job; Examples.job [] (u "Phone") []] (u "en") false
                  Examples.dash Examples.dash_paragraph Examples.start in
  fst run = Ok (0, 2)%nat /\ 0 + 2 = 2.
Proof.
  intros run.
  assert (H : fst run = Ok (0, 2)%nat) by (vm_compute; reflexivity).
  split; [exact H|].
  apply (main_counts_every_row Examples.never_indexed_digests Examples.accept_update
           Examples.accept_register Examples.empty_verify
           Examples.no_repr_errors Examples.no_repr_float
           [Samples.title_job; Examples.job [] (u "Phone") []] (u "en")
           Examples.dash Examples.dash_paragraph false Examples.start (snd run) 0 2).
  rewrite <- H. apply surjective_pairing.
Defined.

Lemma fetch_failure_aborts_batch_witness :
  main Samples.failing_digests Examples.accept_update
       Examples.accept_register Examples.empty_verify
       Examples.no_repr_errors Examples.no_repr_float
       [Samples.title_job; Samples.phone_job] (u "en") true
       Examples.dash Examples.dash_paragraph Examples.start
  = (Raise (RuntimeError (u "[{'message': 'Throttled'}]")),
     State 1%nat [EvPrint (ProductLine 1 Samples.phone_gid (u "en"));
                  EvFetch Samples.phone_gid]).
Proof.
  apply (fetch_failure_aborts_batch Samples.failing_digests Examples.accept_update
           Examples.accept_register Examples.empty_verify
           Examples.no_repr_errors Examples.no_repr_float
           Samples.title_job [Samples.phone_job] 1 0 0 (u "en")
           Examples.dash Examples.dash_paragraph true Examples.start 1%nat
           (RuntimeError (u "[{'message': 'Throttled'}]"))); reflexivity.
Defined.

Lemma seeding_rejection_aborts_batch_witness :
  main_loop Examples.never_indexed_digests Samples.reject_update
            Examples.accept_register Examples.empty_verify
            Examples.no_repr_errors Examples.no_repr_float
            1 [Samples.title_job; Samples.phone_job] (u "en") true
            Examples.dash Examples.dash_paragraph 0 0 Examples.start
  = (Raise (RuntimeError (u "productUpdate errors: [...]")),
     State 2%nat [EvPrint (ProductLine 1 Samples.phone_gid (u "en"));
                  EvFetch Samples.phone_gid;
                  EvPrint (Seeding true false);
                  EvUpdate Samples.phone_gid (Some Examples.dash) None]).
Proof.
  apply (seeding_rejection_aborts_batch Examples.never_indexed_digests
           Samples.reject_update Examples.accept_register Examples.empty_verify
           Examples.no_repr_errors Examples.no_repr_float
           Samples.title_job [Samples.phone_job] 1 0 0 (u "en")
           Examples.dash Examples.dash_paragraph Examples.start 1%nat 2%nat [] tt []);
    reflexivity.
Defined.

Lemma register_rejection_fails_row_witness :
  main_loop Samples.both_digests Examples.accept_update
            Samples.reject_register Examples.empty_verify
            Examples.no_repr_errors Examples.no_repr_float
            1 [Samples.phone_job] (u "en") false
            Examples.dash Examples.dash_paragraph 0 0 Examples.start
  = (Ok (0, 1)%nat,
     State 2%nat [EvPrint (ProductLine 1 Samples.phone_gid (u "en"));
                  EvFetch Samples.phone_gid;
                  EvRegister Samples.phone_gid Samples.phone_payload;
                  EvPrint (FailRegister (u "translationsRegister errors: [...]"))]).
Proof.
  apply (proj2 (register_rejection_fails_row Samples.both_digests Examples.accept_update
           Samples.reject_register Examples.empty_verify
           Examples.no_repr_errors Examples.no_repr_float
           Samples.phone_job [] 1 0 0 (u "en") Examples.dash Examples.dash_paragraph
           false Examples.start
           (State 2%nat [EvPrint (ProductLine 1 Samples.phone_gid (u "en"));
                         EvFetch Samples.phone_gid;
                         EvRegister Samples.phone_gid Samples.phone_payload])
           1%nat
           [ContentItem (Some (u "title")) (Some (Some (u "d0")));
            ContentItem (Some (u "body_html")) (Some (Some (u "d1")))]
           (Translation (u "title") (u "Phone") (u "en") (u "d0"))
           [Translation (u "body_html") (u "<p>Phone</p>") (u "en") (u "d1")]
           (u "translationsRegister errors: [...]")));
    reflexivity.
Defined.

Lemma register_transport_error_aborts_batch_witness :
  main_loop Samples.both_digests Examples.accept_update
            Samples.broken_register Examples.empty_verify
            Examples.no_repr_errors Examples.no_repr_float
            1 [Samples.phone_job; Samples.title_job] (u "en") false
            Examples.dash Examples.dash_paragraph 0 0 Examples.start
  = (Raise (Exception (u "502 Server Error: Bad Gateway")),
     State 2%nat [EvPrint (ProductLine 1 Samples.phone_gid (u "en"));
                  EvFetch Samples.phone_gid;
                  EvRegister Samples.phone_gid Samples.phone_payload]).
Proof.
  apply (register_transport_error_aborts_batch Samples.both_digests
           Examples.accept_update Samples.broken_register Examples.empty_verify
           Examples.no_repr_errors Examples.no_repr_float
           Samples.phone_job [Samples.title_job] 1 0 0 (u "en")
           Examples.dash Examples.dash_paragraph false Examples.start 1%nat 2%nat
           [ContentItem (Some (u "title")) (Some (Some (u "d0")));
            ContentItem (Some (u "body_html")) (Some (Some (u "d1")))]
           (Translation (u "title") (u "Phone") (u "en") (u "d0"))
           [Translation (u "body_html") (u "<p>Phone</p>") (u "en") (u "d1")]
           (u "502 Server Error: Bad Gateway"));
    reflexivity.
Defined.

Lemma verification_does_not_decide_witness :
  fst (main_loop Samples.both_digests Examples.accept_update
                 Examples.accept_register Examples.empty_verify
                 Examples.no_repr_errors Examples.no_repr_float
                 1 [Samples.phone_job] (u "en") false
                 Examples.dash Examples.dash_paragraph 0 0 Examples.start)
  = Ok (1, 0)%nat
  /\ fst (main_loop Samples.both_digests Examples.accept_update
                    Examples.accept_register Samples.failing_verify
                    Examples.no_repr_errors Examples.no_repr_float
                    1 [Samples.phone_job] (u "en") false
                    Examples.dash Examples.dash_paragraph 0 0 Examples.start)
     = Raise (Exception (u "Read timed out")).
Proof.
  split.
  - rewrite (proj1 (verification_does_not_decide Samples.both_digests
               Examples.accept_update Examples.accept_register Examples.empty_verify
               Examples.no_repr_errors Examples.no_repr_float
               Samples.phone_job [] 1 0 0 (u "en") Examples.dash
               Examples.dash_paragraph false Examples.start 1%nat 2%nat 3%nat
               [ContentItem (Some (u "title")) (Some (Some (u "d0")));
                ContentItem (Some (u "body_html")) (Some (Some (u "d1")))]
               (Translation (u "title") (u "Phone") (u "en") (u "d0"))
               [Translation (u "body_html") (u "<p>Phone</p>") (u "en") (u "d1")]
               (Registered [] [(u "title", u "en"); (u "body_html", u "en")])
               eq_refl eq_refl eq_refl eq_refl eq_refl) [] eq_refl).
    reflexivity.
  - rewrite (proj2 (verification_does_not_decide Samples.both_digests
               Examples.accept_update Examples.accept_register Samples.failing_verify
               Examples.no_repr_errors Examples.no_repr_float
               Samples.phone_job [] 1 0 0 (u "en") Examples.dash
               Examples.dash_paragraph false Examples.start 1%nat 2%nat 3%nat
               [ContentItem (Some (u "title")) (Some (Some (u "d0")));
                ContentItem (Some (u "body_html")) (Some (Some (u "d1")))]
               (Translation (u "title") (u "Phone") (u "en") (u "d0"))
               [Translation (u "body_html") (u "<p>Phone</p>") (u "en") (u "d1")]
               (Registered [] [(u "title", u "en"); (u "body_html", u "en")])
               eq_refl eq_refl eq_refl eq_refl eq_refl)
             (Exception (u "Read timed out")) eq_refl).
    reflexivity.
Defined.

Lemma poll_returns_ready_digests_witness :
  let run := poll Samples.late_digests 20 Samples.phone_gid true false Examples.start in
  world (snd run) = 4
  /\ has_digest (digests_of [ContentItem (Some (u "title")) (Some (Some (u "d0")))])
                (u "title") = true
  /\ poll Samples.both_digests 20 Samples.phone_gid true true Examples.start
     = (Ok (Some (digests_of
                    [ContentItem (Some (u "title")) (Some (Some (u "d0")));
                     ContentItem (Some (u "body_html")) (Some (Some (u "d1")))])),
        State 1%nat (poll_round Samples.phone_gid)).
Proof.
  intros run. split; [vm_compute; reflexivity|]. split.
  - apply (proj1 (proj1 (poll_returns_ready_digests Samples.late_digests 20
             Samples.phone_gid true false Examples.start (snd run)
             (digests_of [ContentItem (Some (u "title")) (Some (Some (u "d0")))]))
             ltac:(vm_compute; reflexivity))).
    reflexivity.
  - apply (proj2 (poll_returns_ready_digests Samples.both_digests 19
             Samples.phone_gid true true Examples.start Examples.start ∅));
      reflexivity.
Defined.

Lemma build_translations_payload_witness :
  map tr_key Samples.phone_payload = [u "title"; u "body_html"]
  /\ Forall (entry_for Examples.no_repr_float Samples.phone_job (u "en"))
            Samples.phone_payload.
Proof.
  destruct (build_translations_payload Examples.no_repr_float Samples.phone_job
              (u "en")
              (digests_of [ContentItem (Some (u "title")) (Some (Some (u "d0")));
                           ContentItem (Some (u "body_html")) (Some (Some (u "d1")))])
              Samples.phone_payload ltac:(vm_compute; reflexivity)) as [Hall Hkeys].
  split; [reflexivity|exact Hall].
Defined.


Lemma main_request_budget_witness :
  exists l,
    log (snd (main Examples.never_indexed_digests Examples.accept_update
                   Examples.accept_register Examples.empty_verify
                   Examples.no_repr_errors Examples.no_repr_float
                   [Samples.title_job; Samples.phone_job] (u "en") false
                   Examples.dash Examples.dash_paragraph Examples.start))
    = log Examples.start ++ l
    /\ count is_update l = 0
    /\ count is_fetch l <= 2.
Proof.
  destruct (main_request_budget Examples.never_indexed_digests Examples.accept_update
              Examples.accept_register Examples.empty_verify
              Examples.no_repr_errors Examples.no_repr_float
              [Samples.title_job; Samples.phone_job] (u "en")
              Examples.dash Examples.dash_paragraph false Examples.start)
    as [l (Hl & _ & _ & _ & _ & H)].
  exists l. split; [exact Hl|exact (H eq_refl)].
Defined.

Lemma seeding_only_for_fields_of_the_row_witness :
  exists l,
    log (snd (main_body Examples.never_indexed_digests Examples.accept_update
                        Examples.accept_register Examples.empty_verify
                        Examples.no_repr_errors Examples.no_repr_float
                        1 Samples.phone_job (u "en") false
                        Examples.dash Examples.dash_paragraph Examples.start))
    = log Examples.start ++ l
    /\ Forall (fun e => is_update e = false) l.
Proof.
  destruct (seeding_only_for_fields_of_the_row Examples.never_indexed_digests
              Examples.accept_update Examples.accept_register Examples.empty_verify
              Examples.no_repr_errors Examples.no_repr_float
              1 Samples.phone_job (u "en") Examples.dash Examples.dash_paragraph
              false Examples.start)
    as [l (Hl & _ & H)].
  exists l. split; [exact Hl|exact (H eq_refl)].
Defined.

End RegisterRuns.

Module TranslateRuns.
Import Py Translate TranslateMeasures TranslateCalls TranslateFrames.

Lemma chat_retry_is_bounded_witness :
  exists l,
    log (snd (chat_retry Examples.overloaded_chat Samples.hello Examples.gpt
                         0 400 6 1 20 Examples.fresh))
    = log Examples.fresh ++ l
    /\ count is_chat l <= 6
    /\ count is_chat l = S (count is_sleep l)
    /\ Forall (sleep_capped 20) l.
Proof.
  destruct (chat_retry_is_bounded Examples.overloaded_chat Samples.hello Examples.gpt
              0 400 6 1 20 Examples.fresh) as [l (Hl & Hc & Hs & Hcap & _)].
  exists l. split; [exact Hl|]. split; [exact Hc|]. split; [|exact Hcap].
  apply Hs. apply le_S, le_S, le_S, le_S, le_S, le_n.
Defined.

Lemma chat_retry_recovers_witness :
  chat_retry Samples.flaky_chat Samples.hello Examples.gpt 0 400 6 1 20 Examples.fresh
  = (Ok (Some (u "hello")),
     State 3%nat ∅
       [EvChat Samples.hello Examples.gpt 0 400; EvSleep (backoff 1 20 1);
        EvChat Samples.hello Examples.gpt 0 400; EvSleep (backoff 1 20 2);
        EvChat Samples.hello Examples.gpt 0 400]).
Proof.
  apply (chat_retry_recovers Samples.flaky_chat 2 Samples.hello Examples.gpt
           0 400 6 1 20 Examples.fresh (u "hello")).
  - lia.
  - intros [|[|j]] Hj.
    + eexists. split; [reflexivity|vm_compute; reflexivity].
    + eexists. split; [reflexivity|vm_compute; reflexivity].
    + lia.
  - reflexivity.
Defined.

Lemma failed_invocation_not_cached_witness :
  let run := invoke Examples.rejecting_chat Examples.sum_key
                    (TranslateText (u "hello") Examples.gpt 400) Examples.fresh in
  fst run = Raise (Exception (u "Incorrect API key provided"))
  /\ _CACHE (snd run) = _CACHE Examples.fresh.
Proof.
  intros run.
  assert (H : fst run = Raise (Exception (u "Incorrect API key provided")))
    by (vm_compute; reflexivity).
  split; [exact H|].
  apply (failed_invocation_not_cached Examples.rejecting_chat Examples.sum_key
           (TranslateText (u "hello") Examples.gpt 400) Examples.fresh (snd run)
           (Exception (u "Incorrect API key provided"))).
  rewrite <- H. apply surjective_pairing.
Defined.

Lemma cache_entries_are_permanent_witness :
  _CACHE (after_invocations Examples.echo_chat Examples.sum_key
            [TranslateText (u "hello") Examples.gpt 400;
             TranslateHtml (u "<i>a</i>") Examples.gpt]
            (State 0%nat {[ u "k" := u "v" ]} []))
    !! u "k" = Some (u "v").
Proof.
  apply (cache_entries_are_permanent Examples.echo_chat Examples.sum_key
           [TranslateText (u "hello") Examples.gpt 400;
            TranslateHtml (u "<i>a</i>") Examples.gpt]
           (State 0%nat {[ u "k" := u "v" ]} []) (u "k") (u "v")).
  vm_compute. reflexivity.
Defined.

Lemma translations_are_stripped_witness :
  let run := invoke Examples.echo_chat Examples.sum_key
                    (TranslateText (u "hello") Examples.gpt 400) Examples.fresh in
  all_stripped (_CACHE (snd run)) /\ strip (u "hello") = u "hello".
Proof.
  intros run.
  destruct (translations_are_stripped Examples.echo_chat Examples.sum_key
              (TranslateText (u "hello") Examples.gpt 400) Examples.fresh
              (map_Forall_empty _)) as [Hc Ho].
  split; [exact Hc|]. apply Ho. vm_compute. reflexivity.
Defined.

Lemma process_products_touches_only_targets_witness :
  let products := [Samples.title_only_item; Examples.translated_item] in
  let out := [<[u "title_en" := Some Samples.arabic_phone]> Samples.title_only_item;
              Examples.translated_item] in
  let run := process_products Examples.echo_chat Examples.sum_key products
               Examples.gpt false false (u "en") Examples.fresh in
  fst run = Ok out
  /\ Forall2 same_but_targets products out /\ length out = length products.
Proof.
  intros products out run.
  assert (H : fst run = Ok out) by (vm_compute; reflexivity).
  split; [exact H|].
  apply (process_products_touches_only_targets Examples.echo_chat Examples.sum_key
           products out Examples.gpt false false (u "en") Examples.fresh (snd run)).
  rewrite <- H. apply surjective_pairing.
Defined.

Lemma title_failure_falls_back_witness :
  fst (translate_product Examples.rejecting_chat Examples.sum_key
         Samples.title_only_item Examples.gpt false (u "en") Examples.fresh)
  = Ok (<[u "title_en" := Some Samples.arabic_phone]> Samples.title_only_item).
Proof.
  rewrite (title_failure_falls_back Examples.rejecting_chat Examples.sum_key
             Samples.title_only_item Examples.gpt false (u "en") Examples.fresh
             ltac:(vm_compute; reflexivity) ltac:(vm_compute; reflexivity)).
  vm_compute. reflexivity.
Defined.

Lemma description_failure_aborts_batch_witness :
  fst (process_products Examples.rejecting_chat Examples.sum_key
         [Samples.full_item; Samples.title_only_item]
         Examples.gpt false false (u "en") Examples.fresh)
  = Raise (Exception (u "Incorrect API key provided")).
Proof.
  set (title_ar := get_or_empty Samples.full_item (u "title_ar")).
  set (desc_ar := get_or_empty Samples.full_item (u "descriptionHtml_ar")).
  set (st0 := if nonempty title_ar
              then snd (make_title_en Examples.rejecting_chat Examples.sum_key
                          title_ar Examples.gpt Examples.fresh)
              else Examples.fresh).
  set (h := translate_html_in_place Examples.rejecting_chat Examples.sum_key
              desc_ar Examples.gpt st0).
  set (t := translate_text Examples.rejecting_chat Examples.sum_key
              (html_to_text desc_ar) Examples.gpt 400 (snd h)).
  assert (Hh : fst h = Raise (Exception (u "Incorrect API key provided")))
    by (vm_compute; reflexivity).
  assert (Ht : fst t = Raise (Exception (u "Incorrect API key provided")))
    by (vm_compute; reflexivity).
  rewrite (description_failure_aborts_batch Examples.rejecting_chat Examples.sum_key
             Samples.full_item [Samples.title_only_item] Examples.gpt
             false false (u "en") Examples.fresh (snd h) (snd t)
             (Exception (u "Incorrect API key provided"))
             (Exception (u "Incorrect API key provided"))).
  - reflexivity.
  - vm_compute. reflexivity.
  - vm_compute. reflexivity.
  - rewrite <- Hh. apply surjective_pairing.
  - rewrite <- Ht. apply surjective_pairing.
Defined.

Lemma products_without_source_unchanged_witness :
  process_products Examples.echo_chat Examples.sum_key
    [Samples.bare_item; Samples.bare_item] Examples.gpt true false (u "en")
    Examples.fresh
  = (Ok [Samples.bare_item; Samples.bare_item], Examples.fresh).
Proof.
  apply (products_without_source_unchanged Examples.echo_chat Examples.sum_key
           [Samples.bare_item; Samples.bare_item] Examples.gpt true false (u "en")
           Examples.fresh).
  vm_compute. reflexivity.
Defined.

End TranslateRuns.

Module RuleRuns.
Import Py Translate ReMeasures ReFacts SpacingFacts.

Lemma units_need_a_digit_witness :
  normalize_units_symbols (u "degrees Celsius") = u "degrees Celsius".
Proof.
  apply (units_need_a_digit (u "degrees Celsius")). repeat constructor.
Defined.

Lemma brands_need_the_label_witness :
  let samsung := [0x633; 0x627; 0x645; 0x633; 0x648; 0x646; 0x62C]%N in
  normalize_brand_names (u "<p>" ++ samsung ++ u "</p>")
  = u "<p>" ++ samsung ++ u "</p>".
Proof.
  intros samsung.
  apply (brands_need_the_label (u "<p>" ++ samsung ++ u "</p>")). repeat constructor.
Defined.

Lemma drop_meta_lines_without_tags_witness :
  drop_meta_lines [0x61; newline; newline; newline; 0x62]%N = [0x61; newline; 0x62]%N
  /\ drop_meta_lines (u "Product name in Arabic: x") = u "Product name in Arabic: x".
Proof.
  split.
  - rewrite (proj1 (drop_meta_lines_without_tags
                      [0x61; newline; newline; newline; 0x62]%N
                      ltac:(repeat constructor))).
    vm_compute. reflexivity.
  - apply (proj2 (drop_meta_lines_without_tags (u "Product name in Arabic: x")
                    ltac:(repeat constructor))).
    repeat constructor.
Defined.

Lemma strip_translate_no_needs_quote_witness :
  strip_translate_no_attr (u "<p translate=no>x</p>") = u "<p translate=no>x</p>".
Proof.
  apply (strip_translate_no_needs_quote (u "<p translate=no>x</p>")).
  repeat constructor.
Defined.

Lemma trim_inter_tag_deletes_blanks_only_witness :
  trim_inter_tag (u "<p> a </p>") = u "<p> a </p>".
Proof.
  apply (proj2 (proj2 (proj2 (trim_inter_tag_deletes_blanks_only (u "<p> a </p>"))))).
  vm_compute. reflexivity.
Defined.

Lemma collapse_ws_single_spaces_witness :
  collapse_ws (u " big phone ") = u " big phone ".
Proof.
  apply (proj1 (proj2 (proj2 (collapse_ws_single_spaces (u " big phone "))))).
  vm_compute. reflexivity.
Defined.

Lemma make_title_en_is_single_spaced_witness :
  let run := make_title_en Examples.echo_chat Examples.sum_key
               (u "<b> big   phone </b>") Examples.gpt Examples.fresh in
  fst run = Ok (u "big phone")
  /\ single_spaced (u "big phone") = true
  /\ isspace 0x62 = false.
Proof.
  intros run.
  assert (H : fst run = Ok (u "big phone")) by (vm_compute; reflexivity).
  split; [exact H|].
  apply (make_title_en_is_single_spaced Examples.echo_chat Examples.sum_key
           (u "<b> big   phone </b>") Examples.gpt Examples.fresh (snd run)
           (u "big phone")).
  rewrite <- H. apply surjective_pairing.
Defined.

End RuleRuns.
